(** * Extraction pipeline of the OCR service (src/main.py)

    A shallow embedding of the OCR logic of [main.py]: image
    preprocessing, script detection, language resolution, the hybrid
    line-by-line recognition of [ocr_image], the per-document loop of
    [extract_text_from_pdf] and the page edit of [edit_page_text].

    External libraries (pytesseract, PIL, pdf2image, TinyDB) are not part
    of the repository.  Their operations are fields of the record
    [External]; every call the code makes to them is logged in a trace, so
    that statements can speak about what the code asks of the engine. *)

From Stdlib Require Import String Ascii List ZArith QArith Lia Bool.
From Stdlib Require Import Sorted Permutation.
Import ListNotations.

Local Open Scope string_scope.
Local Open Scope Z_scope.

(** ** Python strings

    A [str] is modelled by [string]; a character stands for the code
    point of the same number (code points below 256). *)

Definition code (c : ascii) : N := N_of_ascii c.

(** [str.isspace] on one character. *)
Definition is_space (c : ascii) : bool :=
  let n := code c in
  (((9 <=? n) && (n <=? 13)) || ((28 <=? n) && (n <=? 32))
   || (n =? 133) || (n =? 160))%N.

Fixpoint lstrip (s : string) : string :=
  match s with
  | EmptyString => EmptyString
  | String c s' => if is_space c then lstrip s' else s
  end.

Fixpoint rstrip (s : string) : string :=
  match s with
  | EmptyString => EmptyString
  | String c s' =>
      match rstrip s' with
      | EmptyString => if is_space c then EmptyString else String c EmptyString
      | r => String c r
      end
  end.

(** [s.strip()] *)
Definition strip (s : string) : string := lstrip (rstrip s).

Definition is_empty (s : string) : bool :=
  match s with EmptyString => true | _ => false end.

Definition snoc (s : string) (c : ascii) : string := s ++ String c EmptyString.

(** [s.split()]: split on runs of whitespace; [word] is the word being
    read. *)
Fixpoint split_words (s : string) (word : string) : list string :=
  match s with
  | EmptyString => if is_empty word then [] else [word]
  | String c s' =>
      if is_space c
      then (if is_empty word then split_words s' "" else word :: split_words s' "")
      else split_words s' (snoc word c)
  end.

Definition split (s : string) : list string := split_words s "".

(** [s.split(sep)] for a separator of one character. *)
Fixpoint split_on (sep : ascii) (s : string) : list string :=
  match s with
  | EmptyString => [EmptyString]
  | String c s' =>
      if Ascii.eqb c sep then EmptyString :: split_on sep s'
      else match split_on sep s' with
           | w :: ws => String c w :: ws
           | [] => [String c EmptyString]
           end
  end.

(** [sep.join(l)] *)
Definition join (sep : string) (l : list string) : string := String.concat sep l.

Definition is_linebreak (c : ascii) : bool :=
  let n := code c in
  ((n =? 10) || (n =? 11) || (n =? 12) || (n =? 28) || (n =? 29) || (n =? 30)
   || (n =? 133))%N.

(** [s.splitlines()]: a carriage return followed by a line feed is one
    break; no empty last line. *)
Fixpoint splitlines_from (s : string) (line : string) : list string :=
  match s with
  | EmptyString => if is_empty line then [] else [line]
  | String c s' =>
      if (code c =? 13)%N then
        match s' with
        | String c' s'' =>
            if (code c' =? 10)%N then line :: splitlines_from s'' ""
            else line :: splitlines_from s' ""
        | EmptyString => [line]
        end
      else if is_linebreak c then line :: splitlines_from s' ""
      else splitlines_from s' (snoc line c)
  end.

Definition splitlines (s : string) : list string := splitlines_from s "".

(** [needle in hay] *)
Fixpoint contains (needle hay : string) : bool :=
  if String.prefix needle hay then true
  else match hay with
       | EmptyString => false
       | String _ hay' => contains needle hay'
       end.

(** [x in l] for a list or set of strings. *)
Definition mem (x : string) (l : list string) : bool := existsb (String.eqb x) l.

(** [l[-1]] *)
Definition last_item (l : list string) : string := List.last l "".

Definition is_ascii_letter (c : ascii) : bool :=
  let n := code c in
  (((65 <=? n) && (n <=? 90)) || ((97 <=? n) && (n <=? 122)))%N.

(** [re.sub(r'[^a-zA-Z]', '', t)] *)
Fixpoint sub_non_letters (t : string) : string :=
  match t with
  | EmptyString => EmptyString
  | String c t' =>
      if is_ascii_letter c then String c (sub_non_letters t') else sub_non_letters t'
  end.

Definition lower_char (c : ascii) : ascii :=
  let n := code c in
  if (((65 <=? n) && (n <=? 90))
      || ((192 <=? n) && (n <=? 222) && negb (n =? 215)))%N
  then ascii_of_N (n + 32) else c.

(** [s.lower()] *)
Fixpoint lower (s : string) : string :=
  match s with
  | EmptyString => EmptyString
  | String c s' => String (lower_char c) (lower s')
  end.

Definition newline : string := String "010"%char EmptyString.

(** ** Results, traces and the monad of external calls *)

Inductive result (A : Type) : Type :=
| Ok (a : A)
| Raise (msg : string).
Arguments Ok {A} a.
Arguments Raise {A} msg.

Record Image (P : Type) : Type := mkImage {
  width : Z;
  height : Z;
  pixels : list P
}.
Arguments mkImage {P} _ _ _.
Arguments width {P} _.
Arguments height {P} _.
Arguments pixels {P} _.

Definition rgb : Type := (Z * Z * Z)%type.
(** The page images of [convert_from_path]. *)
Definition raster : Type := Image rgb.
(** Images of mode L and mode 1: one value per pixel. *)
Definition bitmap : Type := Image Z.

Definition box : Type := (Z * Z * Z * Z)%type.

(** One row of [image_to_data(..., output_type=Output.DICT)]: the entries
    at one index of the columns; [conf] is the value of [int(conf[i])]. *)
Record word : Type := mkWord {
  w_text : string;
  w_conf : Z;
  w_block_num : Z;
  w_par_num : Z;
  w_line_num : Z;
  w_left : Z;
  w_top : Z;
  w_width : Z;
  w_height : Z
}.

(** What the code calls outside the repository.  [get_languages] answers
    with the capability set, listed in the order in which Python iterates
    over it; [image_to_data] answers [None] for a dictionary without the
    key [text]. *)
Record External : Type := mkExternal {
  get_languages : result (list string);
  image_to_osd : bitmap -> result string;
  image_to_string : bitmap -> string -> result string;
  image_to_data : bitmap -> string -> result (option (list word));
  crop : bitmap -> box -> bitmap;
  luminance : rgb -> Z;
  convert_from_path : string -> result (list raster)
}.

Inductive event : Type :=
| ev_get_languages
| ev_image_to_osd (im : bitmap)
| ev_image_to_string (im : bitmap) (lang : string)
| ev_image_to_data (im : bitmap) (lang : string)
| ev_crop (im : bitmap) (b : box)
| ev_convert_from_path (path : string).

(** A computation: the external calls made, in order, and how it ended. *)
Definition M (A : Type) : Type := (list event * result A)%type.

Definition ret {A : Type} (a : A) : M A := ([], Ok a).

Definition raise {A : Type} (msg : string) : M A := ([], Raise msg).

Definition bind {A B : Type} (m : M A) (f : A -> M B) : M B :=
  match m with
  | (t, Ok a) => ((t ++ fst (f a))%list, snd (f a))
  | (t, Raise msg) => (t, Raise msg)
  end.

(** [try: m except Exception as e: h e] *)
Definition try_except {A : Type} (m : M A) (h : string -> M A) : M A :=
  match m with
  | (t, Ok a) => (t, Ok a)
  | (t, Raise msg) => ((t ++ fst (h msg))%list, snd (h msg))
  end.

Definition call {A : Type} (e : event) (r : result A) : M A := ([e], r).

Declare Scope py_scope.
Delimit Scope py_scope with py.
Notation "x <- m ;; k" := (bind m (fun x => k))
  (at level 61, m at next level, right associativity) : py_scope.
Local Open Scope py_scope.

Definition trace {A : Type} (m : M A) : list event := fst m.
Definition outcome {A : Type} (m : M A) : result A := snd m.

(** ** OCR logic *)

Definition SCRIPT_LANG_MAP : list (string * string) :=
  [("Latin", "eng"); ("Meetei_Mayek", "mni"); ("Devanagari", "hin");
   ("Bengali", "ben")].

(** [d.get(k, default)] *)
Fixpoint dict_get (d : list (string * string)) (k default : string) : string :=
  match d with
  | [] => default
  | (k', v) :: d' => if String.eqb k' k then v else dict_get d' k default
  end.

Definition COMMON_ENG_WORDS : list string :=
  ["the"; "be"; "to"; "of"; "and"; "a"; "in"; "that"; "have"; "i"; "it";
   "for"; "not"; "on"; "with"; "he"; "as"; "you"; "do"; "at"; "this";
   "but"; "his"; "by"; "from"; "they"; "we"; "say"; "her"; "she"; "or";
   "an"; "will"; "my"; "one"; "all"; "would"; "there"; "their"; "what";
   "so"; "up"; "out"; "if"; "about"; "who"; "get"; "which"; "go"; "me";
   "when"; "make"; "can"; "like"; "time"; "no"; "just"; "him"; "know";
   "take"; "people"; "into"; "year"; "your"; "good"; "some"; "could";
   "them"; "see"; "other"; "than"; "then"; "now"; "look"; "only"; "come";
   "its"; "over"; "think"; "also"; "back"; "after"; "use"; "two"; "how";
   "our"; "work"; "first"; "well"; "way"; "even"; "new"; "want"; "because";
   "any"; "these"; "give"; "day"; "most"; "us"; "writ"; "petition";
   "civil"; "no"; "of"; "court"; "judgment"; "order"; "case"; "versus";
   "union"; "india"; "state"; "manipur"; "respondents"; "petitioner";
   "advocate"; "counsel"; "honble"; "justice"; "mr"; "mrs"; "shri"; "smt";
   "disclaimer"; "vernacular"; "meant"; "restricted"; "litigant";
   "understand"; "language"; "purpose"; "practical"; "official";
   "original"; "version"; "authentic"; "field"; "execution";
   "implementation"; "high"; "imphal"].

(** [image.convert('L')]: same size, one luminance value per pixel. *)
Definition convert_L (X : External) (image : raster) : bitmap :=
  mkImage (width image) (height image) (map (luminance X) (pixels image)).

(** [image.point(f, '1')] *)
Definition point (f : Z -> Z) (image : bitmap) : bitmap :=
  mkImage (width image) (height image) (map f (pixels image)).

Definition preprocess_image (X : External) (image : raster) : bitmap :=
  let image := convert_L X image in
  let image := point (fun x => if x <? 128 then 0 else 255) image in
  image.

(** The loop of [detect_script] over the lines of the report. *)
Fixpoint scan_osd (lines : list string) : option string :=
  match lines with
  | [] => None
  | line :: rest =>
      if contains "Script" line
      then Some (strip (last_item (split_on ":" line)))
      else scan_osd rest
  end.

Definition detect_script (X : External) (image : bitmap) : M string :=
  try_except
    (osd <- call (ev_image_to_osd image) (image_to_osd X image) ;;
     match scan_osd (splitlines osd) with
     | Some script => ret script
     | None => ret "Latin"
     end)
    (fun _ => ret "Latin").

(** *** Language resolution (the first half of [ocr_image]) *)

Definition requested_langs (lang : string) : list string := split_on "+" lang.

Definition valid_langs (lang : string) (available_languages : list string)
  : list string :=
  filter (fun l => mem l available_languages) (requested_langs lang).

(** [None] is the early [return None]. *)
Definition final_lang (valid_langs available_languages : list string)
  : option string :=
  match valid_langs with
  | [] =>
      if mem "eng" available_languages then Some "eng"
      else match available_languages with
           | first :: _ => Some first
           | [] => None
           end
  | _ :: _ => Some (join "+" valid_langs)
  end.

Definition use_hybrid (valid_langs : list string) : bool :=
  mem "mni" valid_langs && mem "eng" valid_langs.

(** *** Line classification *)

Definition normalized_tokens (line_text_eng : string) : list string :=
  let tokens := map (fun t => lower (sub_non_letters t)) (split line_text_eng) in
  filter (fun t => negb (is_empty t)) tokens.

Definition match_count (tokens : list string) : nat :=
  length (filter (fun t => mem t COMMON_ENG_WORDS) tokens).

(** [match_count / len(tokens)] for a list that is not empty; the
    quotient is the exact one (the quotient of the code is the double
    nearest to it, and [0.2] the double nearest to one fifth, so the
    comparison below agrees with the code's for every line of fewer than
    2^53 tokens). *)
Definition score (tokens : list string) : Q :=
  Z.of_nat (match_count tokens) # Pos.of_nat (length tokens).

Definition is_eng (line_text_eng : string) : bool :=
  let tokens := normalized_tokens line_text_eng in
  match tokens with
  | [] => false
  | _ :: _ => Qle_bool 0.2 (score tokens)
  end.

(** *** Grouping the words of the layout pass by line *)

Module Line.
Record t : Type := mk {
    text : list string;
    left : list Z;
    top : list Z;
    width : list Z;
    height : list Z
  }.
End Line.

Definition key : Type := (Z * Z * Z)%type.

Definition key_of (w : word) : key := (w_block_num w, w_par_num w, w_line_num w).

Definition key_eqb (a b : key) : bool :=
  let '(a1, a2, a3) := a in
  let '(b1, b2, b3) := b in
  (a1 =? b1) && (a2 =? b2) && (a3 =? b3).

(** Order of Python tuples. *)
Definition key_leb (a b : key) : bool :=
  let '(a1, a2, a3) := a in
  let '(b1, b2, b3) := b in
  (a1 <? b1) || ((a1 =? b1) && ((a2 <? b2) || ((a2 =? b2) && (a3 <=? b3)))).

(** The dictionary [lines], in insertion order. *)
Definition lines_dict : Type := list (key * Line.t).

Fixpoint lines_get (lines : lines_dict) (k : key) : option Line.t :=
  match lines with
  | [] => None
  | (k', l) :: rest => if key_eqb k k' then Some l else lines_get rest k
  end.

Definition line_append (l : Line.t) (w : word) : Line.t :=
  Line.mk (Line.text l ++ [w_text w]) (Line.left l ++ [w_left w])
          (Line.top l ++ [w_top w]) (Line.width l ++ [w_width w])
          (Line.height l ++ [w_height w]).

Definition empty_line : Line.t := Line.mk [] [] [] [] [].

(** The entry of [k] is created when absent, then the word is appended to
    its five lists. *)
Fixpoint lines_append (lines : lines_dict) (k : key) (w : word) : lines_dict :=
  match lines with
  | [] => [(k, line_append empty_line w)]
  | (k', l) :: rest =>
      if key_eqb k k' then (k', line_append l w) :: rest
      else (k', l) :: lines_append rest k w
  end.

Fixpoint group_lines (data : list word) (lines : lines_dict) : lines_dict :=
  match data with
  | [] => lines
  | w :: rest =>
      if w_conf w =? -1 then group_lines rest lines
      else group_lines rest (lines_append lines (key_of w) w)
  end.

Fixpoint insert_key (k : key) (l : list key) : list key :=
  match l with
  | [] => [k]
  | k' :: l' => if key_leb k k' then k :: l else k' :: insert_key k l'
  end.

(** [sorted(lines.keys())] *)
Definition sorted_keys (lines : lines_dict) : list key :=
  fold_right insert_key [] (map fst lines).

(** *** Re-recognition of one line *)

Definition py_min (l : list Z) : M Z :=
  match l with
  | [] => raise "ValueError"
  | x :: l' => ret (fold_left Z.min l' x)
  end.

Definition py_max (l : list Z) : M Z :=
  match l with
  | [] => raise "ValueError"
  | x :: l' => ret (fold_left Z.max l' x)
  end.

(** [[a + b for a, b in zip(l1, l2)]] *)
Definition zip_add (l1 l2 : list Z) : list Z :=
  map (fun p => fst p + snd p) (combine l1 l2).

Definition crop_box (image : bitmap) (l_data : Line.t) : M box :=
  x_min <- py_min (Line.left l_data) ;;
  y_min <- py_min (Line.top l_data) ;;
  x_max <- py_max (zip_add (Line.left l_data) (Line.width l_data)) ;;
  y_max <- py_max (zip_add (Line.top l_data) (Line.height l_data)) ;;
  let padding := 5 in
  ret (Z.max 0 (x_min - padding), Z.max 0 (y_min - padding),
       Z.min (width image) (x_max + padding),
       Z.min (height image) (y_max + padding)).

Definition line_text (l_data : Line.t) : string :=
  strip (join " " (Line.text l_data)).

(** [image.crop(box)]: Pillow refuses, with a [ValueError], a box whose
    right edge lies left of its left edge or whose lower edge lies above
    its upper edge; any other box is cut out, also where it is empty. *)
Definition image_crop (X : External) (image : bitmap) (b : box) : result bitmap :=
  let '(cropLeft, cropTop, cropRight, cropBottom) := b in
  if cropRight <? cropLeft then Raise "Coordinate 'right' is less than 'left'"
  else if cropBottom <? cropTop
  then Raise "Coordinate 'lower' is less than 'upper'"
  else Ok (crop X image b).

(** The loop over [sorted_keys]; [final_text] is the text so far. *)
Fixpoint hybrid_lines (X : External) (image : bitmap) (lines : lines_dict)
    (keys : list key) (final_text : string) : M string :=
  match keys with
  | [] => ret final_text
  | k :: rest =>
      match lines_get lines k with
      | None => raise "KeyError"
      | Some l_data =>
          let line_text_eng := line_text l_data in
          if is_empty line_text_eng then hybrid_lines X image lines rest final_text
          else if is_eng line_text_eng
          then hybrid_lines X image lines rest (final_text ++ line_text_eng ++ newline)
          else
            b <- crop_box image l_data ;;
            cropped <- call (ev_crop image b) (image_crop X image b) ;;
            mni_text <- call (ev_image_to_string cropped "mni")
                             (image_to_string X cropped "mni") ;;
            hybrid_lines X image lines rest (final_text ++ strip mni_text ++ newline)
      end
  end.

(** [ocr_image], the block [if lang == "auto"]: the language asked of the
    resolver. *)
Definition resolve_auto (X : External) (image : bitmap) (lang : string)
  : M string :=
  if String.eqb lang "auto"
  then script <- detect_script X image ;;
       ret (dict_get SCRIPT_LANG_MAP script "eng")
  else ret lang.

(** [ocr_image] from the filter of the requested languages to the end of
    the [try]. *)
Definition recognize (X : External) (image : bitmap)
    (available_languages : list string) (lang : string) : M (option string) :=
  let valid := valid_langs lang available_languages in
  match final_lang valid available_languages with
  | None => ret None
  | Some final =>
      if use_hybrid valid then
        data <- call (ev_image_to_data image "eng") (image_to_data X image "eng") ;;
        match data with
        | None =>
            text <- call (ev_image_to_string image final)
                         (image_to_string X image final) ;;
            ret (Some text)
        | Some data =>
            let lines := group_lines data [] in
            final_text <- hybrid_lines X image lines (sorted_keys lines) "" ;;
            ret (Some final_text)
        end
      else
        text <- call (ev_image_to_string image final)
                     (image_to_string X image final) ;;
        ret (Some text)
  end.

(** The body of the [try] of [ocr_image]. *)
Definition ocr_image_body (X : External) (image : bitmap) (lang : string)
  : M (option string) :=
  available_languages <- call ev_get_languages (get_languages X) ;;
  lang <- resolve_auto X image lang ;;
  recognize X image available_languages lang.

Definition ocr_image (X : External) (image : bitmap) (lang : string)
  : M (option string) :=
  try_except (ocr_image_body X image lang) (fun _ => ret None).

(** ** Documents *)

Module Page.
Record t : Type := mk {
    page_number : Z;
    text : string;
    status : string
  }.
End Page.

Module Doc.
Record t : Type := mk {
    id : string;
    source_file : string;
    language : string;
    page_count : Z;
    pages : list Page.t
  }.
End Doc.

Definition pdf_to_images (X : External) (pdf_path : string) : M (list raster) :=
  try_except
    (call (ev_convert_from_path pdf_path) (convert_from_path X pdf_path))
    (fun e => raise ("Failed to convert PDF: " ++ e)).

(** Truth value of [text], which is [None] or a string. *)
Definition truthy (text : option string) : bool :=
  match text with
  | Some s => negb (is_empty s)
  | None => false
  end.

Definition page_entry (page_number : Z) (text : option string) : Page.t :=
  Page.mk page_number
          (if truthy text then match text with Some s => s | None => "" end else "")
          (if truthy text then "success" else "ocr_failed").

(** [language or "auto"] *)
Definition or_auto (language : string) : string :=
  if is_empty language then "auto" else language.

(** The loop over [enumerate(images)], from index [i], with the pages
    appended so far. *)
Fixpoint process_pages (X : External) (language : string) (images : list raster)
    (i : Z) (pages : list Page.t) : M (list Page.t) :=
  match images with
  | [] => ret pages
  | image :: rest =>
      let page_number := i + 1 in
      let processed := preprocess_image X image in
      text <- ocr_image X processed (or_auto language) ;;
      process_pages X language rest (i + 1) (pages ++ [page_entry page_number text])
  end.

Definition extract_text_from_pdf (X : External)
    (pdf_path language doc_id original_filename : string) : M (option Doc.t) :=
  images <- pdf_to_images X pdf_path ;;
  match images with
  | [] => ret None
  | _ :: _ =>
      pages <- process_pages X language images 0 [] ;;
      ret (Some (Doc.mk doc_id original_filename language
                        (Z.of_nat (length images)) pages))
  end.

(** ** The document store and the page edit

    The TinyDB table is the list of its records in insertion order. *)

Definition database : Type := list Doc.t.

(** [db.get(Query().id == doc_id)] *)
Definition db_get (db : database) (doc_id : string) : option Doc.t :=
  find (fun d => String.eqb (Doc.id d) doc_id) db.

(** [db.insert(result)] *)
Definition db_insert (db : database) (d : Doc.t) : database := (db ++ [d])%list.

(** [db.update(document, Query().id == doc_id)]: every record of that id
    takes the fields of [document]. *)
Definition db_update (db : database) (document : Doc.t) (doc_id : string)
  : database :=
  map (fun d => if String.eqb (Doc.id d) doc_id then document else d) db.

(** [db.remove(Query().id == doc_id)] *)
Definition db_remove (db : database) (doc_id : string) : database :=
  filter (fun d => negb (String.eqb (Doc.id d) doc_id)) db.

Inductive HTTPException : Type :=
| mkHTTPException (status_code : Z) (detail : string).

Definition DocumentNotFound : HTTPException :=
  mkHTTPException 404 "Document not found".
Definition PageNotFound : HTTPException :=
  mkHTTPException 404 "Page not found in document".

Definition set_page (page : Page.t) (new_text : string) : Page.t :=
  Page.mk (Page.page_number page) new_text "edited".

(** The loop of [edit_page_text] over [document["pages"]]: the pages after
    the loop, and [updated]. *)
Fixpoint edit_pages (pages : list Page.t) (page_number : Z) (new_text : string)
  : list Page.t * bool :=
  match pages with
  | [] => ([], false)
  | page :: rest =>
      if Page.page_number page =? page_number
      then (set_page page new_text :: rest, true)
      else let (rest', updated) := edit_pages rest page_number new_text in
           (page :: rest', updated)
  end.

Definition set_pages (document : Doc.t) (pages : list Page.t) : Doc.t :=
  Doc.mk (Doc.id document) (Doc.source_file document) (Doc.language document)
         (Doc.page_count document) pages.

(** The answer of the route, and the store after the request. *)
Definition edit_page_text (db : database) (doc_id : string) (page_number : Z)
    (new_text : string)
  : (HTTPException + (string * string * Z)) * database :=
  match db_get db doc_id with
  | None => (inl DocumentNotFound, db)
  | Some document =>
      let (pages, updated) := edit_pages (Doc.pages document) page_number new_text in
      if negb updated then (inl PageNotFound, db)
      else (inr ("Text updated", doc_id, page_number),
            db_update db (set_pages document pages) doc_id)
  end.

(** The stores the service can be in: documents enter through the upload
    routes only, as results of [extract_text_from_pdf]. *)
Inductive reachable : database -> Prop :=
| reach_empty : reachable []
| reach_upload : forall db X pdf_path lang doc_id filename document,
    reachable db ->
    outcome (extract_text_from_pdf X pdf_path lang doc_id filename)
      = Ok (Some document) ->
    reachable (db_insert db document)
| reach_edit : forall db doc_id page_number new_text,
    reachable db ->
    reachable (snd (edit_page_text db doc_id page_number new_text))
| reach_delete : forall db doc_id,
    reachable db -> reachable (db_remove db doc_id).

(** ** Vocabulary of the statements *)

(** Calls that run recognition on an image. *)
Definition is_recognition (e : event) : bool :=
  match e with
  | ev_image_to_string _ _ | ev_image_to_data _ _ => true
  | _ => false
  end.

Definition recognition_calls (t : list event) : list event :=
  filter is_recognition t.

Definition is_hybrid_call (e : event) : bool :=
  match e with
  | ev_image_to_data _ _ | ev_crop _ _ => true
  | _ => false
  end.

Definition box_within (image : bitmap) (b : box) : Prop :=
  let '(cropLeft, cropTop, cropRight, cropBottom) := b in
  0 <= cropLeft /\ 0 <= cropTop
  /\ cropRight <= width image /\ cropBottom <= height image.

(** Every crop asked of the imaging library lies within its image. *)
Definition crop_within (e : event) : Prop :=
  match e with
  | ev_crop im b => box_within im b
  | _ => True
  end.

(** A line of the grouping holds at least one word, and as many entries in
    each of its lists. *)
Definition filled (l : Line.t) : Prop :=
  (0 < length (Line.left l))%nat
  /\ length (Line.top l) = length (Line.left l)
  /\ length (Line.width l) = length (Line.left l)
  /\ length (Line.height l) = length (Line.left l).

(** [kept P l l']: [l'] keeps exactly the items of [l] that satisfy [P],
    in the order of [l]. *)
Inductive kept {A : Type} (P : A -> Prop) : list A -> list A -> Prop :=
| kept_nil : kept P [] []
| kept_take : forall x l l', P x -> kept P l l' -> kept P (x :: l) (x :: l')
| kept_drop : forall x l l', ~ P x -> kept P l l' -> kept P (x :: l) l'.

Fixpoint all_chars (p : ascii -> bool) (s : string) : bool :=
  match s with
  | EmptyString => true
  | String c s' => p c && all_chars p s'
  end.

(** The string holds no character [sep]. *)
Definition free_of (sep : ascii) (w : string) : bool :=
  all_chars (fun c => negb (Ascii.eqb c sep)) w.

Definition is_lower_letter (c : ascii) : bool :=
  ((97 <=? code c) && (code c <=? 122))%N.

(** The number of tokens that are words of the reference vocabulary,
    counted token by token with the membership of lists: the count of the
    specification, not the one that the code computes. *)
Fixpoint vocabulary_count (tokens : list string) : nat :=
  match tokens with
  | [] => 0
  | t :: rest =>
      if in_dec string_dec t COMMON_ENG_WORDS
      then S (vocabulary_count rest)
      else vocabulary_count rest
  end.

(** The match ratio in the words of the specification: the number of
    normalized tokens found in the vocabulary over the number of
    normalized tokens. *)
Definition matchRatio (tokens : list string) : Q :=
  inject_Z (Z.of_nat (vocabulary_count tokens))
  / inject_Z (Z.of_nat (length tokens)).

(** The call hands the language [lang] to the engine. *)
Definition passes_lang (e : event) (lang : string) : Prop :=
  match e with
  | ev_image_to_string _ l | ev_image_to_data _ l => l = lang
  | _ => False
  end.

(** The reading under which the [+]-join of the kept codes is the code
    passed to the engine: some call of the page hands it over. *)
Definition joined_code_passed (X : External) (image : bitmap) (lang : string)
  : Prop :=
  forall available,
    get_languages X = Ok available ->
    valid_langs lang available <> [] ->
    exists e,
      In e (trace (ocr_image X image lang))
      /\ passes_lang e (join "+" (valid_langs lang available)).

(** Pages [1..n], none of them recognized. *)
Definition failed_pages (n : nat) : list Page.t :=
  map (fun i => Page.mk (Z.of_nat i + 1) "" "ocr_failed") (seq 0 n).

(** A re-recognition of a cropped line was asked for and failed. *)
Definition rerecognition_fails (X : External) (image : bitmap) (lang : string)
  : Prop :=
  exists b msg,
    In (ev_crop image b) (trace (ocr_image X image lang))
    /\ image_to_string X (crop X image b) "mni" = Raise msg.

(** The reading under which a failed re-recognition is isolated: the page
    is still returned with a text. *)
Definition line_failure_isolated (X : External) (image : bitmap) (lang : string)
  : Prop :=
  rerecognition_fails X image lang ->
  exists text, outcome (ocr_image X image lang) = Ok (Some text).

(** The reading under which an engine without languages is fatal for the
    extraction: no document comes out. *)
Definition no_language_is_fatal (X : External)
    (pdf_path language doc_id original_filename : string) : Prop :=
  get_languages X = Ok [] ->
  forall document,
    outcome (extract_text_from_pdf X pdf_path language doc_id original_filename)
      <> Ok (Some document).

(** The value of the field [Script] of a report line of the shape
    [Script: value]. *)
Definition script_field (line : string) : option string :=
  match split_on ":" line with
  | k :: v :: rest =>
      if String.eqb (strip k) "Script" then Some (strip (join ":" (v :: rest)))
      else None
  | _ => None
  end.

Fixpoint first_script_field (lines : list string) : option string :=
  match lines with
  | [] => None
  | line :: rest =>
      match script_field line with
      | Some v => Some v
      | None => first_script_field rest
      end
  end.

(** Script detection in the words of the specification: the value of the
    [Script] field of the report, and [Latin] when the engine fails or the
    report has no such field or a malformed one. *)
Definition detect_script_spec (report : result string) : string :=
  match report with
  | Raise _ => "Latin"
  | Ok osd =>
      match first_script_field (splitlines osd) with
      | Some v => v
      | None => "Latin"
      end
  end.

(** The reading under which script detection does what the specification
    says of it. *)
Definition script_detection_as_specified (X : External) (image : bitmap)
  : Prop :=
  outcome (detect_script X image) = Ok (detect_script_spec (image_to_osd X image)).

(** The reading under which an [auto] request always runs one recognition
    pass, on the whole image. *)
Definition auto_single_pass (X : External) (image : bitmap) : Prop :=
  exists final,
    recognition_calls (trace (ocr_image X image "auto"))
      = [ev_image_to_string image final].

(** The stored document after a successful edit of page [n]: the page at
    index [i] of [after] is the page of [before], except at the index of
    page [n], which holds the new text and the status [edited]. *)
Definition edited_at (before after : Doc.t) (n : Z) (new_text : string) : Prop :=
  Doc.id after = Doc.id before
  /\ Doc.source_file after = Doc.source_file before
  /\ Doc.language after = Doc.language before
  /\ Doc.page_count after = Doc.page_count before
  /\ length (Doc.pages after) = length (Doc.pages before)
  /\ forall i : nat,
       (Z.of_nat i + 1 = n ->
        nth_error (Doc.pages after) i = Some (Page.mk n new_text "edited"))
       /\ (Z.of_nat i + 1 <> n ->
           nth_error (Doc.pages after) i = nth_error (Doc.pages before) i).

(** What [ocr_image] hands back for a page image of the document. *)
Definition ocr_text (X : External) (language : string) (image : raster)
  : option string :=
  match outcome (ocr_image X (preprocess_image X image) (or_auto language)) with
  | Ok text => text
  | Raise _ => None
  end.

(** The entries of the images, numbered from [i + 1]. *)
Fixpoint entries (X : External) (language : string) (images : list raster)
    (i : Z) : list Page.t :=
  match images with
  | [] => []
  | image :: rest =>
      page_entry (i + 1) (ocr_text X language image)
      :: entries X language rest (i + 1)
  end.

(** Pages numbered [k + 1, k + 2, ...] in list order. *)
Definition numbered_from (k : Z) (pages : list Page.t) : Prop :=
  forall (i : nat) (p : Page.t),
    nth_error pages i = Some p -> Page.page_number p = k + Z.of_nat i + 1.

(** The invariant of documents: [page_count] pages, numbered from 1. *)
Definition numbered (d : Doc.t) : Prop :=
  Doc.page_count d = Z.of_nat (length (Doc.pages d))
  /\ numbered_from 0 (Doc.pages d).

(** The reading under which every rasterization that does not fail gives a
    document with one entry per image. *)
Definition one_page_per_image (X : External)
    (pdf_path language doc_id original_filename : string) : Prop :=
  forall images,
    convert_from_path X pdf_path = Ok images ->
    exists document,
      outcome (extract_text_from_pdf X pdf_path language doc_id original_filename)
        = Ok (Some document)
      /\ length (Doc.pages document) = length images
      /\ numbered document.

(** ** The other routes

    What the routes call outside the repository besides the engine, as the
    request finds it: the file system, the PDF reader of the previews,
    base64, and the string of an exception. *)
Record Host : Type := mkHost {
  (** [os.path.join] *)
  path_join : string -> string -> string;
  (** [os.path.exists] *)
  path_exists : string -> bool;
  (** [os.remove] *)
  os_remove : string -> result unit;
  (** [open(path, "wb")] and [write] of the content *)
  write_file : string -> string -> result unit;
  (** [base64.b64decode] *)
  b64decode : string -> result string;
  (** [fitz.open(path).page_count] *)
  fitz_page_count : string -> result Z;
  (** [fitz.open(path).load_page(i).get_pixmap().pil_tobytes(format="PNG")],
      encoded in base64 *)
  page_png_base64 : string -> Z -> result string;
  (** [str(e)] for an [HTTPException] *)
  str_HTTPException : HTTPException -> string
}.

Definition UPLOAD_DIR : string := "uploads".

Definition status_code (e : HTTPException) : Z :=
  match e with mkHTTPException code _ => code end.

(** [s.endswith(suffix)] *)
Definition endswith (s suffix : string) : bool :=
  (String.length suffix <=? String.length s)%nat
  && String.eqb (substring (String.length s - String.length suffix)
                           (String.length suffix) s) suffix.

(** The end of both upload routes, from the call of
    [extract_text_from_pdf]: the answer, with the calls made, and the
    store after the request; [doc_id] is the identifier drawn by
    [uuid.uuid4]. *)
Definition store_result (X : External) (db : database)
    (pdf_path lang doc_id filename : string)
  : M (HTTPException + (string * string * Z)) * database :=
  let m := extract_text_from_pdf X pdf_path lang doc_id filename in
  match outcome m with
  | Ok (Some result) =>
      ((trace m, Ok (inr ("OCR completed", doc_id, Doc.page_count result))),
       db_insert db result)
  | Ok None => ((trace m, Ok (inl (mkHTTPException 500 "OCR failed"))), db)
  | Raise msg => ((trace m, Raise msg), db)
  end.

Definition upload_pdf (X : External) (H : Host) (db : database)
    (filename content lang doc_id : string)
  : M (HTTPException + (string * string * Z)) * database :=
  if negb (endswith filename ".pdf")
  then (ret (inl (mkHTTPException 400 "File must be a PDF")), db)
  else
    let pdf_path := path_join H UPLOAD_DIR filename in
    match write_file H pdf_path content with
    | Raise msg => (raise msg, db)
    | Ok _ => store_result X db pdf_path lang doc_id filename
    end.

Definition upload_base64_pdf (X : External) (H : Host) (db : database)
    (b64_string filename lang doc_id : string)
  : M (HTTPException + (string * string * Z)) * database :=
  match b64decode H b64_string with
  | Raise _ => (ret (inl (mkHTTPException 400 "Invalid base64 string")), db)
  | Ok pdf_data =>
      let pdf_path := path_join H UPLOAD_DIR filename in
      match write_file H pdf_path pdf_data with
      | Raise msg => (raise msg, db)
      | Ok _ => store_result X db pdf_path lang doc_id filename
      end
  end.

(** *** Search *)

Record Match : Type := mkMatch {
  m_page_number : Z;
  m_text : string;
  m_page_image_base64 : option string;
  m_image_format : string
}.

Record Found : Type := mkFound {
  f_id : string;
  f_source_file : string;
  f_page_count : Z;
  f_matches : list Match
}.

(** [query.lower() in page["text"].lower()] *)
Definition page_matches (query : string) (page : Page.t) : bool :=
  contains (lower query) (lower (Page.text page)).

(** The [try] of [search_text]: the preview of the page, [None] when it
    cannot be made. *)
Definition encoded_image (H : Host) (record : Doc.t) (page : Page.t)
  : option string :=
  match page_png_base64 H (path_join H UPLOAD_DIR (Doc.source_file record))
                        (Page.page_number page - 1) with
  | Ok image => Some image
  | Raise _ => None
  end.

(** The loop over [record["pages"]]. *)
Fixpoint matched_pages (H : Host) (query : string) (record : Doc.t)
    (pages : list Page.t) : list Match :=
  match pages with
  | [] => []
  | page :: rest =>
      if page_matches query page
      then mkMatch (Page.page_number page) (Page.text page)
                   (encoded_image H record page) "image/png"
           :: matched_pages H query record rest
      else matched_pages H query record rest
  end.

(** The loop over the records of the store. *)
Fixpoint search_text (H : Host) (db : database) (query : string) : list Found :=
  match db with
  | [] => []
  | record :: rest =>
      match matched_pages H query record (Doc.pages record) with
      | [] => search_text H rest query
      | matches =>
          mkFound (Doc.id record) (Doc.source_file record)
                  (Doc.page_count record) matches
          :: search_text H rest query
      end
  end.

(** *** Preview of a page *)

Definition get_document_page_image (H : Host) (db : database) (doc_id : string)
    (page_number : Z) : HTTPException + (string * string) :=
  match db_get db doc_id with
  | None => inl (mkHTTPException 404 "Document not found")
  | Some record =>
      let pdf_path := path_join H UPLOAD_DIR (Doc.source_file record) in
      if negb (path_exists H pdf_path)
      then inl (mkHTTPException 404 "PDF file not found")
      else
        (* the [try]: every exception, the one of the range check included,
           is answered by the handler *)
        match fitz_page_count H pdf_path with
        | Raise e =>
            inl (mkHTTPException 500 ("Error processing PDF page: " ++ e))
        | Ok page_count =>
            if negb ((0 <? page_number) && (page_number <=? page_count))
            then inl (mkHTTPException 500
                        ("Error processing PDF page: "
                         ++ str_HTTPException H
                              (mkHTTPException 400 "Page number out of range")))
            else
              match page_png_base64 H pdf_path (page_number - 1) with
              | Raise e =>
                  inl (mkHTTPException 500 ("Error processing PDF page: " ++ e))
              | Ok encoded => inr (encoded, "image/png")
              end
        end
  end.

(** *** Deletion *)

(** [db.search(Query().id == doc_id)] *)
Definition db_search (db : database) (doc_id : string) : list Doc.t :=
  filter (fun d => String.eqb (Doc.id d) doc_id) db.

Definition delete_document (H : Host) (db : database) (doc_id : string)
  : (HTTPException + (string * string)) * database :=
  (* the whole body is a [try] whose handler answers 500 *)
  match db_search db doc_id with
  | [] =>
      (inl (mkHTTPException 500
              ("Error deleting document: "
               ++ str_HTTPException H (mkHTTPException 404 "Document not found"))),
       db)
  | document :: _ =>
      let pdf_path := path_join H UPLOAD_DIR (Doc.source_file document) in
      match (if path_exists H pdf_path then os_remove H pdf_path else Ok tt) with
      | Raise e => (inl (mkHTTPException 500 ("Error deleting document: " ++ e)), db)
      | Ok _ => (inr ("Document deleted successfully", doc_id), db_remove db doc_id)
      end
  end.

(** *** Export of the text as a document

    What [get_edited_docx] asks of python-docx for the pages of a record:
    the paragraphs added to the document, in order, each with the runs
    added to it, a run being given by the call that adds it.  What the
    library writes into the file for a run is its own matter: of the text
    given to [add_run] it makes tabs and breaks where the text holds a tab,
    a line feed or a carriage return, and it refuses, with a [ValueError],
    a text that XML cannot hold (a form feed, for one). *)

Inductive run : Type :=
| run_text (line : string)  (* [paragraph.add_run(line)] *)
| run_break.                (* [paragraph.add_run().add_break()] *)

Definition paragraph : Type := list run.

(** python-docx as the request finds it. *)
Record Docx : Type := mkDocx {
  (** [paragraph.add_run(text)]: done, or the exception of a text that
      the library refuses *)
  add_run : string -> result unit
}.

(** [s.replace(old, new)] for [old] not empty; [skip] characters of a
    match are still to be passed over. *)
Fixpoint replace_from (old new s : string) (skip : nat) : string :=
  match s with
  | EmptyString => EmptyString
  | String c s' =>
      match skip with
      | S k => replace_from old new s' k
      | O =>
          if String.prefix old s
          then new ++ replace_from old new s' (String.length old - 1)
          else String c (replace_from old new s' 0)
      end
  end.

Definition replace (old new s : string) : string := replace_from old new s 0.

(** [s.split(sep)] for a separator of any length but 0. *)
Fixpoint split_str_from (sep s : string) (skip : nat) : list string :=
  match s with
  | EmptyString => [EmptyString]
  | String c s' =>
      match skip with
      | S k => split_str_from sep s' k
      | O =>
          if String.prefix sep s
          then EmptyString :: split_str_from sep s' (String.length sep - 1)
          else match split_str_from sep s' 0 with
               | w :: ws => String c w :: ws
               | [] => [String c EmptyString]
               end
      end
  end.

Definition split_str (sep s : string) : list string := split_str_from sep s 0.

Definition crlf : string := String "013"%char newline.

(** The loop over [enumerate(lines)]: a run for each line, and a run
    with a break after each line but the last; the first text that the
    library refuses ends the loop, and the request, with its exception. *)
Fixpoint add_runs (D : Docx) (lines : list string) : result paragraph :=
  match lines with
  | [] => Ok []
  | line :: rest =>
      match add_run D line with
      | Raise e => Raise e
      | Ok _ =>
          match rest with
          | [] => Ok [run_text line]
          | _ :: _ =>
              match add_runs D rest with
              | Raise e => Raise e
              | Ok runs => Ok (run_text line :: run_break :: runs)
              end
          end
      end
  end.

(** The loop over [paragraphs]. *)
Fixpoint add_paragraphs (D : Docx) (paragraphs : list string)
  : result (list paragraph) :=
  match paragraphs with
  | [] => Ok []
  | para :: rest =>
      match add_runs D (split_on "010" para) with
      | Raise e => Raise e
      | Ok p =>
          match add_paragraphs D rest with
          | Raise e => Raise e
          | Ok ps => Ok (p :: ps)
          end
      end
  end.

(** The paragraphs of one page. *)
Definition page_paragraphs (D : Docx) (text : string) : result (list paragraph) :=
  let text := replace crlf newline text in
  let paragraphs := split_str (newline ++ newline) text in
  add_paragraphs D paragraphs.

(** The loop over [record["pages"]]. *)
Fixpoint docx_paragraphs (D : Docx) (pages : list Page.t)
  : result (list paragraph) :=
  match pages with
  | [] => Ok []
  | page_data :: rest =>
      match page_paragraphs D (Page.text page_data) with
      | Raise e => Raise e
      | Ok ps =>
          match docx_paragraphs D rest with
          | Raise e => Raise e
          | Ok qs => Ok (ps ++ qs)%list
          end
      end
  end.

(** **** Vocabulary of the statements on the export *)

(** The library takes the text. *)
Definition accepted (D : Docx) (line : string) : Prop := add_run D line = Ok tt.

(** The texts that the export of a page gives to [add_run], in order. *)
Definition page_lines (text : string) : list string :=
  flat_map (split_on "010")
           (split_str (newline ++ newline) (replace crlf newline text)).

(** The runs asked for the lines of a paragraph. *)
Fixpoint runs_of_lines (lines : list string) : paragraph :=
  match lines with
  | [] => []
  | line :: rest =>
      match rest with
      | [] => [run_text line]
      | _ :: _ => run_text line :: run_break :: runs_of_lines rest
      end
  end.

(** What was given for a paragraph: the texts given to [add_run], in
    order, with a newline for each call of [add_break]. *)
Fixpoint given_text (p : paragraph) : string :=
  match p with
  | [] => ""
  | run_text line :: rest => line ++ given_text rest
  | run_break :: rest => newline ++ given_text rest
  end.

(** The string without its first [n] characters. *)
Fixpoint drop (n : nat) (s : string) : string :=
  match n, s with
  | O, _ => s
  | S _, EmptyString => EmptyString
  | S k, String _ s' => drop k s'
  end.

Definition is_break (r : run) : bool :=
  match r with
  | run_break => true
  | run_text _ => false
  end.

(** *** Accounts *)

Module User.
Record t : Type := mk {
  username : string;
  password : string;
  refresh_token : option string
}.
End User.

Definition user_database : Type := list User.t.

(** What the account routes call outside the repository: the SHA-256
    digest in hexadecimal, the tokens that [jwt.encode] makes for a user at
    the time of the request, and [jwt.decode] followed by
    [payload.get("sub")] (a raise is a [JWTError]). *)
Record Tokens : Type := mkTokens {
  sha256_hexdigest : string -> string;
  access_token_for : string -> string;
  refresh_token_for : string -> string;
  decoded_sub : string -> result (option string)
}.

Definition hash_password (T : Tokens) (password : string) : string :=
  sha256_hexdigest T password.

Definition credentials_exception : HTTPException :=
  mkHTTPException 401 "Could not validate credentials".

(** The user name of a token, or the exception to raise. *)
Definition verify_token (T : Tokens) (token : string) (exc : HTTPException)
  : HTTPException + string :=
  match decoded_sub T token with
  | Ok (Some username) => inr username
  | Ok None => inl exc
  | Raise _ => inl exc
  end.

(** [user_db.get(User.username == username)] *)
Definition user_get (udb : user_database) (username : string) : option User.t :=
  find (fun u => String.eqb (User.username u) username) udb.

Definition register (T : Tokens) (udb : user_database)
    (username password : string)
  : (HTTPException + (string * string)) * user_database :=
  match user_get udb username with
  | Some _ => (inl (mkHTTPException 400 "Username already exists"), udb)
  | None =>
      (inr ("User registered", username),
       (udb ++ [User.mk username (hash_password T password) None])%list)
  end.

(** [user_db.update({"refresh_token": t}, User.username == username)] *)
Definition set_refresh_token (udb : user_database) (username t : string)
  : user_database :=
  map (fun u => if String.eqb (User.username u) username
                then User.mk (User.username u) (User.password u) (Some t)
                else u) udb.

(** The answer: access token, refresh token, token type. *)
Definition login (T : Tokens) (udb : user_database) (username password : string)
  : (HTTPException + (string * string * string)) * user_database :=
  let hashed_password := hash_password T password in
  match find (fun u => String.eqb (User.username u) username
                       && String.eqb (User.password u) hashed_password) udb with
  | None => (inl (mkHTTPException 401 "Invalid username or password"), udb)
  | Some _ =>
      let access_token := access_token_for T username in
      let refresh_token := refresh_token_for T username in
      (inr (access_token, refresh_token, "bearer"),
       set_refresh_token udb username refresh_token)
  end.

Definition refresh_token (T : Tokens) (udb : user_database) (token : string)
  : HTTPException + (string * string) :=
  match verify_token T token credentials_exception with
  | inl exc => inl exc
  | inr refreshed_username =>
      match user_get udb refreshed_username with
      | None => inl (mkHTTPException 401 "Invalid refresh token")
      | Some user =>
          match User.refresh_token user with
          | Some stored =>
              if String.eqb stored token
              then inr (access_token_for T refreshed_username, "bearer")
              else inl (mkHTTPException 401 "Invalid refresh token")
          | None => inl (mkHTTPException 401 "Invalid refresh token")
          end
      end
  end.

(** The user stores the service can be in; each request finds its own
    time, hence its own tokens. *)
Inductive users_reachable : user_database -> Prop :=
| users_empty : users_reachable []
| users_register : forall T udb username password,
    users_reachable udb ->
    users_reachable (snd (register T udb username password))
| users_login : forall T udb username password,
    users_reachable udb ->
    users_reachable (snd (login T udb username password)).

(** ** Vocabulary of the statements on the layout pass *)

(** Order of Python tuples, as a relation. *)
Definition key_le (a b : key) : Prop := key_leb a b = true.

(** The words that the grouping puts under [k]: those of [data] with a
    confidence other than -1 and with that key, in the order of [data]. *)
Definition words_of_line (data : list word) (k : key) : list word :=
  filter (fun w => negb (w_conf w =? -1) && key_eqb k (key_of w)) data.

Definition line_of_words (ws : list word) : Line.t :=
  Line.mk (map w_text ws) (map w_left ws) (map w_top ws) (map w_width ws)
          (map w_height ws).

(** What one line adds to the text of the page on the hybrid path: nothing
    for a blank line, its text for a primary line, the stripped answer of
    the recognition of its crop in [mni] for the others; each followed by
    a newline. *)
Definition line_entry (X : External) (image : bitmap) (l_data : Line.t)
  : result string :=
  if is_empty (line_text l_data) then Ok ""
  else if is_eng (line_text l_data) then Ok (line_text l_data ++ newline)
  else match outcome (crop_box image l_data) with
       | Raise msg => Raise msg
       | Ok b =>
           match image_crop X image b with
           | Raise msg => Raise msg
           | Ok cropped =>
               match image_to_string X cropped "mni" with
               | Ok mni_text => Ok (strip mni_text ++ newline)
               | Raise msg => Raise msg
               end
           end
       end.

(** The entry of every line of the dictionary is there: no crop rectangle
    is undefined, none is refused by the imaging library, and no
    recognition in [mni] fails. *)
Definition entries_defined (X : External) (image : bitmap) (lines : lines_dict)
  : Prop :=
  forall k l_data,
    lines_get lines k = Some l_data ->
    exists e, line_entry X image l_data = Ok e.

Fixpoint entries_text (X : External) (image : bitmap) (lines : lines_dict)
    (keys : list key) : string :=
  match keys with
  | [] => ""
  | k :: rest =>
      match lines_get lines k with
      | Some l_data =>
          match line_entry X image l_data with
          | Ok e => e ++ entries_text X image lines rest
          | Raise _ => entries_text X image lines rest
          end
      | None => entries_text X image lines rest
      end
  end.

Definition is_get_languages (e : event) : bool :=
  match e with
  | ev_get_languages => true
  | _ => false
  end.

Definition is_crop (e : event) : bool :=
  match e with
  | ev_crop _ _ => true
  | _ => false
  end.

(** A call of the hybrid path after the capability query: the layout pass
    in [eng], a crop of the page, or the recognition of a crop in [mni]. *)
Definition hybrid_event (X : External) (image : bitmap) (e : event) : Prop :=
  e = ev_image_to_data image "eng"
  \/ (exists b, e = ev_crop image b)
  \/ (exists b, e = ev_image_to_string (crop X image b) "mni").

(** The status of a page says how its text came about. *)
Definition page_status_ok (p : Page.t) : Prop :=
  (Page.status p = "success" /\ Page.text p <> "")
  \/ (Page.status p = "ocr_failed" /\ Page.text p = "")
  \/ Page.status p = "edited".

(** ** Sample inputs *)

Definition sample_crop (im : bitmap) (b : box) : bitmap :=
  let '(l, t, r, bt) := b in mkImage (r - l) (bt - t) [].

Definition sample_luminance (p : rgb) : Z :=
  let '(r, g, b) := p in (r * 299 + g * 587 + b * 114) / 1000.

Definition sample_page : raster :=
  mkImage 2 2 [(255, 255, 255); (0, 0, 0); (200, 10, 10); (128, 128, 128)].

Definition sample_bitmap : bitmap := mkImage 200 100 [].

Definition sample_words : list word :=
  [ mkWord "" (-1) 1 0 0 0 0 200 100;
    mkWord "the" 96 1 1 1 3 10 30 12;
    mkWord "court" 95 1 1 1 40 10 45 12;
    mkWord "of" 96 1 1 1 90 10 20 12;
    mkWord "imphal" 91 1 1 1 115 10 60 12;
    mkWord "xyzabc" 40 1 1 2 2 30 60 14;
    mkWord "qqrrss" 35 1 1 2 70 30 128 14 ].

(** An engine with the given language list, orientation report and answer
    to a recognition in [mni]; two pages per document. *)
Definition sample_engine (langs : result (list string)) (osd : result string)
    (mni : result string) : External :=
  mkExternal langs (fun _ => osd)
    (fun _ lang => if String.eqb lang "mni" then mni else Ok "page text")
    (fun _ _ => Ok (Some sample_words))
    sample_crop sample_luminance
    (fun _ => Ok [sample_page; sample_page]).

Definition osd_report : string :=
  "Page number: 0" ++ newline ++ "Orientation in degrees: 0" ++ newline
  ++ "Rotate: 0" ++ newline ++ "Orientation confidence: 2.27" ++ newline
  ++ "Script: Bengali" ++ newline ++ "Script confidence: 1.11" ++ newline.

Definition hybrid_engine : External :=
  sample_engine (Ok ["eng"; "mni"]) (Ok osd_report) (Ok " line two ").

(** A white page of 200 by 100 pixels. *)
Definition sample_sheet : raster :=
  mkImage 200 100 (repeat (255, 255, 255) (200 * 100)).

(** The recognition in [mni] fails; two pages of 200 by 100 per document. *)
Definition failing_line_engine : External :=
  mkExternal (Ok ["eng"; "mni"]) (fun _ => Ok osd_report)
    (fun _ lang => if String.eqb lang "mni" then Raise "TesseractError"
                   else Ok "page text")
    (fun _ _ => Ok (Some sample_words))
    sample_crop sample_luminance
    (fun _ => Ok [sample_sheet; sample_sheet]).

Definition no_language_engine : External :=
  sample_engine (Ok []) (Ok osd_report) (Ok "").

Definition malformed_report_engine : External :=
  sample_engine (Ok ["eng"]) (Ok ("Rotate: 0" ++ newline ++ "Script Latin"))
                (Ok "").

(** The renderer found no page in the file. *)
Definition empty_pdf_engine : External :=
  mkExternal (Ok ["eng"]) (fun _ => Ok osd_report) (fun _ _ => Ok "page text")
    (fun _ _ => Ok None) sample_crop sample_luminance (fun _ => Ok []).

(** The layout pass reports a word to the right of the page. *)
Definition outside_word_engine : External :=
  mkExternal (Ok ["eng"; "mni"]) (fun _ => Ok osd_report)
    (fun _ _ => Ok "MNI")
    (fun _ _ => Ok (Some [mkWord "xyzabc" 40 1 1 1 300 30 60 14]))
    sample_crop sample_luminance (fun _ => Ok [sample_page]).

(** The layout pass finds one word, of whitespace only. *)
Definition blank_layout_engine : External :=
  mkExternal (Ok ["eng"; "mni"]) (fun _ => Ok osd_report)
    (fun _ _ => Ok "page text")
    (fun _ _ => Ok (Some [mkWord "" (-1) 1 0 0 0 0 200 100;
                          mkWord "  " 95 1 1 1 5 5 10 10]))
    sample_crop sample_luminance (fun _ => Ok [sample_page]).

Definition sample_host : Host :=
  mkHost (fun a b => a ++ "/" ++ b) (fun _ => true) (fun _ => Ok tt)
         (fun _ _ => Ok tt) (fun s => Ok s) (fun _ => Ok 5)
         (fun _ i => if i <? 5 then Ok "iVBORw0KGgo=" else Raise "page not in document")
         (fun e => match e with mkHTTPException code detail => detail end).

(** The characters that XML can hold, among those below 256. *)
Definition xml_char (c : ascii) : bool :=
  let n := code c in
  ((n =? 9) || (n =? 10) || (n =? 13) || (32 <=? n))%N.

(** A library that takes the texts that XML can hold. *)
Definition sample_docx : Docx :=
  mkDocx (fun text => if all_chars xml_char text then Ok tt
                      else Raise "All strings must be XML compatible").

(** The layout pass answers without a column [text]. *)
Definition no_text_column_engine : External :=
  mkExternal (Ok ["eng"; "mni"]) (fun _ => Ok osd_report)
    (fun _ _ => Ok "page text") (fun _ _ => Ok None)
    sample_crop sample_luminance (fun _ => Ok [sample_page]).

(** Tokens that spell out what they are for. *)
Definition sample_tokens : Tokens :=
  mkTokens (fun password => "sha256:" ++ password)
           (fun username => "access:" ++ username)
           (fun username => "refresh:" ++ username)
           (fun token => if String.prefix "refresh:" token
                         then Ok (Some (drop 8 token))
                         else Raise "JWTError").

Definition five_page_engine : External :=
  mkExternal (Ok ["eng"]) (fun _ => Ok osd_report)
    (fun im _ => if width im =? 2 then Ok "page text" else Ok "")
    (fun _ _ => Ok None) sample_crop sample_luminance
    (fun _ => Ok [sample_page; sample_page;
                  mkImage 1 1 [(0, 0, 0)]; sample_page; sample_page]).

Definition five_pages : Doc.t :=
  Doc.mk "d1" "a.pdf" "eng" 5
    [ Page.mk 1 "page text" "success"; Page.mk 2 "page text" "success";
      Page.mk 3 "" "ocr_failed"; Page.mk 4 "page text" "success";
      Page.mk 5 "page text" "success" ].

(** * Properties *)

(** ** The monad *)

Section Monad_facts.
Context {A B : Type}.

Lemma bind_Ok (m : M A) (f : A -> M B) (a : A) :
    outcome m = Ok a ->
    bind m f = ((trace m ++ trace (f a))%list, outcome (f a)).
  Proof. destruct m as [t r]; simpl; intros ->; reflexivity. Qed.

Lemma bind_Raise (m : M A) (f : A -> M B) (msg : string) :
    outcome m = Raise msg -> bind m f = (trace m, Raise msg).
  Proof. destruct m as [t r]; simpl; intros ->; reflexivity. Qed.

Lemma bind_cases (m : M A) (f : A -> M B) :
    (exists a, outcome m = Ok a
               /\ bind m f = ((trace m ++ trace (f a))%list, outcome (f a)))
    \/ (exists msg, outcome m = Raise msg /\ bind m f = (trace m, Raise msg)).
  Proof.
    destruct (outcome m) as [a | msg] eqn:E.
    - left; exists a; split; [reflexivity | apply bind_Ok; assumption].
    - right; exists msg; split; [reflexivity | apply bind_Raise; assumption].
  Qed.

  (** A property of all calls of the parts holds of all calls of the
      whole. *)
Lemma bind_Forall (P : event -> Prop) (m : M A) (f : A -> M B) :
    Forall P (trace m) ->
    (forall a, outcome m = Ok a -> Forall P (trace (f a))) ->
    Forall P (trace (bind m f)).
  Proof.
    intros Hm Hf.
    destruct (bind_cases m f) as [(a & E & ->) | (msg & E & ->)]; simpl.
    - apply Forall_app; split; [assumption | apply Hf; assumption].
    - assumption.
  Qed.
End Monad_facts.

Lemma try_except_ret_outcome {A : Type} (m : M A) (a : A) :
  exists r, outcome (try_except m (fun _ => ret a)) = Ok r.
Proof. destruct m as [t [x | msg]]; simpl; eauto. Qed.

Lemma try_except_ret_trace {A : Type} (m : M A) (a : A) :
  trace (try_except m (fun _ => ret a)) = trace m.
Proof. destruct m as [t [x | msg]]; simpl; [reflexivity | apply app_nil_r]. Qed.

Lemma try_except_ret_Raise {A : Type} (m : M A) (a : A) (msg : string) :
  outcome m = Raise msg -> outcome (try_except m (fun _ => ret a)) = Ok a.
Proof. destruct m as [t r]; simpl; intros ->; reflexivity. Qed.

Lemma try_except_ret_Ok {A : Type} (m : M A) (a x : A) :
  outcome m = Ok x -> outcome (try_except m (fun _ => ret a)) = Ok x.
Proof. destruct m as [t r]; simpl; intros ->; reflexivity. Qed.

(** ** Strings *)

Lemma mem_In (x : string) (l : list string) : mem x l = true <-> In x l.
Proof.
  unfold mem. rewrite existsb_exists. split.
  - intros (y & Hy & E). apply String.eqb_eq in E. subst. assumption.
  - intros H. exists x. split; [assumption | apply String.eqb_refl].
Qed.

Lemma mem_false (x : string) (l : list string) : mem x l = false <-> ~ In x l.
Proof.
  rewrite <- mem_In. destruct (mem x l); split; congruence.
Qed.

Lemma lower_letter (c : ascii) :
  is_ascii_letter c = true -> is_lower_letter (lower_char c) = true.
Proof.
  destruct c as [[] [] [] [] [] [] [] []]; vm_compute; congruence.
Qed.

Lemma lower_sub_non_letters (t : string) :
  all_chars is_lower_letter (lower (sub_non_letters t)) = true.
Proof.
  induction t as [| c t IH]; simpl; [reflexivity |].
  destruct (is_ascii_letter c) eqn:E; simpl; [| assumption].
  rewrite (lower_letter c E), IH. reflexivity.
Qed.

Lemma is_empty_false (s : string) : is_empty s = false <-> s <> "".
Proof. destruct s; simpl; split; congruence. Qed.

(** ** Preprocessing *)

(** C7: the preprocessor takes the luminance of every pixel (conversion
    to one grayscale channel) and then maps a luminance below 128 to black
    (0) and every other one to white (255), keeping the size of the image;
    it is a function of its input, so equal inputs give equal outputs. *)
Theorem preprocess_image_binarizes (X : External) (image : raster) :
  preprocess_image X image
    = point (fun x => if x <? 128 then 0 else 255) (convert_L X image)
  /\ width (preprocess_image X image) = width image
  /\ height (preprocess_image X image) = height image
  /\ length (pixels (preprocess_image X image)) = length (pixels image)
  /\ (forall (i : nat) (p : rgb),
        nth_error (pixels image) i = Some p ->
        nth_error (pixels (convert_L X image)) i = Some (luminance X p)
        /\ nth_error (pixels (preprocess_image X image)) i
           = Some (if luminance X p <? 128 then 0 else 255))
  /\ Forall (fun v => v = 0 \/ v = 255) (pixels (preprocess_image X image))
  /\ (forall image' : raster,
        image' = image -> preprocess_image X image' = preprocess_image X image).
Proof.
  unfold preprocess_image, point, convert_L; simpl.
  repeat split.
  - rewrite !length_map. reflexivity.
  - rewrite nth_error_map, H. reflexivity.
  - rewrite !nth_error_map, H. reflexivity.
  - rewrite Forall_forall. intros v Hv.
    apply in_map_iff in Hv. destruct Hv as (x & <- & _).
    destruct (x <? 128); auto.
  - intros image' ->. reflexivity.
Qed.

Lemma preprocess_image_binarizes_witness :
  nth_error (pixels sample_page) 2 = Some (200, 10, 10)
  /\ nth_error (pixels (convert_L hybrid_engine sample_page)) 2 = Some 66
  /\ nth_error (pixels (preprocess_image hybrid_engine sample_page)) 2 = Some 0
  /\ pixels (preprocess_image hybrid_engine sample_page) = [255; 0; 0; 255].
Proof.
  destruct (preprocess_image_binarizes hybrid_engine sample_page)
    as (_ & _ & _ & _ & H & _).
  destruct (H 2%nat (200, 10, 10) eq_refl) as [H1 H2].
  exact (conj eq_refl (conj H1 (conj H2 eq_refl))).
Defined.

(** ** Line classification *)

Lemma normalized_tokens_shape (line : string) :
  Forall (fun t => t <> "" /\ all_chars is_lower_letter t = true)
         (normalized_tokens line).
Proof.
  unfold normalized_tokens. rewrite Forall_forall. intros t Ht.
  apply filter_In in Ht. destruct Ht as [Hin Hne].
  apply in_map_iff in Hin. destruct Hin as (w & <- & _).
  split.
  - apply is_empty_false. apply negb_true_iff. assumption.
  - apply lower_sub_non_letters.
Qed.

(** The count of the code is the number of tokens that are words of the
    vocabulary. *)
Lemma match_count_vocabulary (tokens : list string) :
  match_count tokens = vocabulary_count tokens.
Proof.
  unfold match_count. induction tokens as [| t ts IH]; [reflexivity |].
  cbn [filter vocabulary_count].
  destruct (in_dec string_dec t COMMON_ENG_WORDS) as [Hin | Hout].
  - apply mem_In in Hin. rewrite Hin. cbn [length]. rewrite IH. reflexivity.
  - apply mem_false in Hout. rewrite Hout. exact IH.
Qed.

Lemma score_matchRatio (tokens : list string) :
  tokens <> [] -> (score tokens == matchRatio tokens)%Q.
Proof.
  intros Hne. unfold score, matchRatio. rewrite match_count_vocabulary.
  rewrite Qmake_Qdiv.
  destruct tokens as [| t ts]; [congruence |].
  replace (Z.pos (Pos.of_nat (length (t :: ts))))
    with (Z.of_nat (length (t :: ts))); [reflexivity |].
  simpl length. rewrite <- Pos.of_nat_succ, Zpos_P_of_succ_nat.
  rewrite Nat2Z.inj_succ. reflexivity.
Qed.

Lemma vocabulary_count_all (tokens : list string) :
  Forall (fun t => In t COMMON_ENG_WORDS) tokens ->
  vocabulary_count tokens = length tokens.
Proof.
  induction 1 as [| t ts Ht _ IH]; [reflexivity |].
  cbn [vocabulary_count length].
  destruct (in_dec string_dec t COMMON_ENG_WORDS); [| contradiction].
  rewrite IH. reflexivity.
Qed.

Lemma matchRatio_all (tokens : list string) :
  tokens <> [] ->
  Forall (fun t => In t COMMON_ENG_WORDS) tokens ->
  (matchRatio tokens == 1)%Q.
Proof.
  intros Hne Hall. unfold matchRatio. rewrite (vocabulary_count_all _ Hall).
  apply Qmult_inv_r. destruct tokens; [congruence |].
  simpl length. rewrite Nat2Z.inj_succ. unfold Qeq; simpl. lia.
Qed.

(** The ratio against the threshold, in whole numbers. *)
Lemma matchRatio_threshold (tokens : list string) :
  tokens <> [] ->
  (0.2 <= matchRatio tokens)%Q
  <-> (length tokens <= 5 * vocabulary_count tokens)%nat.
Proof.
  intros Hne. rewrite <- score_matchRatio by exact Hne.
  unfold score. rewrite match_count_vocabulary. unfold Qle. cbn [Qnum Qden].
  destruct tokens as [| t ts]; [congruence |].
  generalize (vocabulary_count (t :: ts)). intros m.
  cbn [length]. rewrite <- Pos.of_nat_succ, Zpos_P_of_succ_nat. lia.
Qed.

(** C3: the normalized tokens of a line are not empty and made of
    lower-case letters only; the line is classified primary exactly when
    it has a normalized token and the ratio of its normalized tokens that
    are words of the reference vocabulary, over all of them, is at least
    0.2 (that is, at least one normalized token in five is such a word); a
    line whose normalized tokens are all in the vocabulary has ratio 1 and
    is primary; a line without normalized token is not primary. *)
Theorem is_eng_threshold (line_text_eng : string) :
  Forall (fun t => t <> "" /\ all_chars is_lower_letter t = true)
         (normalized_tokens line_text_eng)
  /\ (is_eng line_text_eng = true
      <-> normalized_tokens line_text_eng <> []
          /\ (0.2 <= matchRatio (normalized_tokens line_text_eng))%Q)
  /\ (is_eng line_text_eng = true
      <-> normalized_tokens line_text_eng <> []
          /\ (length (normalized_tokens line_text_eng)
              <= 5 * vocabulary_count (normalized_tokens line_text_eng))%nat)
  /\ (normalized_tokens line_text_eng <> [] ->
      Forall (fun t => In t COMMON_ENG_WORDS) (normalized_tokens line_text_eng) ->
      (matchRatio (normalized_tokens line_text_eng) == 1)%Q
      /\ is_eng line_text_eng = true)
  /\ (normalized_tokens line_text_eng = [] -> is_eng line_text_eng = false).
Proof.
  assert (Hiff : is_eng line_text_eng = true
                 <-> normalized_tokens line_text_eng <> []
                     /\ (0.2 <= matchRatio (normalized_tokens line_text_eng))%Q).
  { unfold is_eng. destruct (normalized_tokens line_text_eng) as [| t ts] eqn:E.
    - split; [discriminate | intros [H _]; congruence].
    - rewrite Qle_bool_iff, score_matchRatio by discriminate.
      split; [intros H; split; [discriminate | assumption] | intros [_ H]; assumption]. }
  split; [apply normalized_tokens_shape |].
  split; [exact Hiff |].
  split.
  { rewrite Hiff. split; intros [Hne H]; (split; [exact Hne |]);
      apply (matchRatio_threshold _ Hne); exact H. }
  split.
  - intros Hne Hall. pose proof (matchRatio_all _ Hne Hall) as H1.
    split; [assumption |]. apply Hiff. split; [assumption |].
    rewrite H1. unfold Qle; simpl. lia.
  - intros E. unfold is_eng. rewrite E. reflexivity.
Qed.

(** Whether a line is primary, read off the statement on its ratio. *)
Lemma primary_by_ratio (line : string) (primary : bool) :
  (is_eng line = true
   <-> normalized_tokens line <> []
       /\ (0.2 <= matchRatio (normalized_tokens line))%Q) ->
  (if primary
   then normalized_tokens line <> []
        /\ (0.2 <= matchRatio (normalized_tokens line))%Q
   else ~ (0.2 <= matchRatio (normalized_tokens line))%Q) ->
  is_eng line = primary.
Proof.
  intros Hiff H. destruct primary.
  - apply Hiff. exact H.
  - destruct (is_eng line); [| reflexivity].
    exfalso. apply H. apply Hiff. reflexivity.
Qed.

Lemma is_eng_threshold_witness :
  (* every token in the vocabulary: ratio 1 *)
  (normalized_tokens "The Court, of 12 Imphal!" = ["the"; "court"; "of"; "imphal"]
   /\ is_eng "The Court, of 12 Imphal!" = true)
  (* no token at all *)
  /\ (normalized_tokens "2024 - 15/3" = [] /\ is_eng "2024 - 15/3" = false)
  (* one token in five, the threshold itself *)
  /\ ((matchRatio (normalized_tokens "the zzz yyy xxx www") == 1 # 5)%Q
      /\ is_eng "the zzz yyy xxx www" = true)
  (* one token in six, below the threshold *)
  /\ ((matchRatio (normalized_tokens "the zzz yyy xxx www vvv") == 1 # 6)%Q
      /\ is_eng "the zzz yyy xxx www vvv" = false)
  (* no token in the vocabulary *)
  /\ ((matchRatio (normalized_tokens "xyzabc qqrrss") == 0)%Q
      /\ is_eng "xyzabc qqrrss" = false)
  (* four tokens in five *)
  /\ ((matchRatio (normalized_tokens "zz the the the the") == 4 # 5)%Q
      /\ is_eng "zz the the the the" = true).
Proof.
  assert (Hall : Forall (fun t => In t COMMON_ENG_WORDS)
                        (normalized_tokens "The Court, of 12 Imphal!")).
  { rewrite Forall_forall. intros t Ht. apply mem_In.
    vm_compute in Ht.
    repeat (destruct Ht as [<- | Ht]; [vm_compute; reflexivity |]).
    destruct Ht. }
  destruct (is_eng_threshold "The Court, of 12 Imphal!") as (_ & _ & _ & H1 & _).
  destruct (is_eng_threshold "2024 - 15/3") as (_ & _ & _ & _ & H2).
  destruct (is_eng_threshold "the zzz yyy xxx www") as (_ & H3 & _).
  destruct (is_eng_threshold "the zzz yyy xxx www vvv") as (_ & H4 & _).
  destruct (is_eng_threshold "xyzabc qqrrss") as (_ & H5 & _).
  destruct (is_eng_threshold "zz the the the the") as (_ & H6 & _).
  split; [split; [reflexivity |];
          exact (proj2 (H1 ltac:(vm_compute; discriminate) Hall)) |].
  split; [split; [reflexivity | exact (H2 eq_refl)] |].
  split; [split; [vm_compute; reflexivity |];
          apply (primary_by_ratio _ true H3);
          split; [vm_compute; discriminate | vm_compute; discriminate] |].
  split; [split; [vm_compute; reflexivity |];
          apply (primary_by_ratio _ false H4);
          intros H; vm_compute in H; apply H; reflexivity |].
  split; [split; [vm_compute; reflexivity |];
          apply (primary_by_ratio _ false H5);
          intros H; vm_compute in H; apply H; reflexivity |].
  split; [vm_compute; reflexivity |].
  apply (primary_by_ratio _ true H6).
  split; [vm_compute; discriminate | vm_compute; discriminate].
Defined.

(** ** Re-recognition of lines *)

Lemma crop_box_cases (image : bitmap) (l : Line.t) :
  (exists b, crop_box image l = ([], Ok b) /\ box_within image b)
  \/ (exists msg, crop_box image l = ([], Raise msg)).
Proof.
  destruct l as [tx lf tp wd ht]. unfold crop_box, py_min, py_max, zip_add.
  cbn [Line.left Line.top Line.width Line.height].
  destruct lf as [| x lf]; [right; eexists; reflexivity |].
  destruct tp as [| y tp]; [right; eexists; reflexivity |].
  destruct wd as [| w wd]; [right; eexists; reflexivity |].
  destruct ht as [| h ht]; [right; eexists; reflexivity |].
  left. eexists. split; [reflexivity |].
  unfold box_within. lia.
Qed.

Lemma hybrid_lines_missing X image lines k rest text :
  lines_get lines k = None ->
  hybrid_lines X image lines (k :: rest) text = ([], Raise "KeyError").
Proof. intros H. cbn [hybrid_lines]. rewrite H. reflexivity. Qed.

Lemma hybrid_lines_skip X image lines k rest text l :
  lines_get lines k = Some l ->
  is_empty (line_text l) = true ->
  hybrid_lines X image lines (k :: rest) text
    = hybrid_lines X image lines rest text.
Proof. intros H H0. cbn [hybrid_lines]. rewrite H, H0. reflexivity. Qed.

Lemma hybrid_lines_keep X image lines k rest text l :
  lines_get lines k = Some l ->
  is_empty (line_text l) = false ->
  is_eng (line_text l) = true ->
  hybrid_lines X image lines (k :: rest) text
    = hybrid_lines X image lines rest (text ++ line_text l ++ newline).
Proof. intros H H0 H1. cbn [hybrid_lines]. rewrite H, H0, H1. reflexivity. Qed.

Lemma hybrid_lines_no_box X image lines k rest text l msg :
  lines_get lines k = Some l ->
  is_empty (line_text l) = false ->
  is_eng (line_text l) = false ->
  crop_box image l = ([], Raise msg) ->
  hybrid_lines X image lines (k :: rest) text = ([], Raise msg).
Proof. intros H H0 H1 H2. cbn [hybrid_lines]. rewrite H, H0, H1, H2. reflexivity. Qed.

(** A line that is not primary: one crop, one recognition in [mni], and
    the loop goes on only if that recognition answers. *)
Lemma image_crop_cases (X : External) (image : bitmap) (b : box) :
  image_crop X image b = Ok (crop X image b)
  \/ exists msg, image_crop X image b = Raise msg.
Proof.
  destruct b as [[[x0 y0] x1] y1]. unfold image_crop.
  destruct (x1 <? x0); [right; eexists; reflexivity |].
  destruct (y1 <? y0); [right; eexists; reflexivity |].
  left; reflexivity.
Qed.

(** A line that is not primary whose crop is refused: the loop ends with
    that exception, before any recognition of the line. *)
Lemma hybrid_lines_no_crop X image lines k rest text l b msg :
  lines_get lines k = Some l ->
  is_empty (line_text l) = false ->
  is_eng (line_text l) = false ->
  crop_box image l = ([], Ok b) ->
  image_crop X image b = Raise msg ->
  hybrid_lines X image lines (k :: rest) text = ([ev_crop image b], Raise msg).
Proof.
  intros H H0 H1 H2 H3. cbn [hybrid_lines]. rewrite H, H0, H1, H2.
  unfold bind, call. cbn [fst snd app]. rewrite H3. reflexivity.
Qed.

Lemma hybrid_lines_reocr X image lines k rest text l b :
  lines_get lines k = Some l ->
  is_empty (line_text l) = false ->
  is_eng (line_text l) = false ->
  crop_box image l = ([], Ok b) ->
  image_crop X image b = Ok (crop X image b) ->
  hybrid_lines X image lines (k :: rest) text
    = match image_to_string X (crop X image b) "mni" with
      | Ok mni_text =>
          (ev_crop image b :: ev_image_to_string (crop X image b) "mni"
             :: trace (hybrid_lines X image lines rest
                         (text ++ strip mni_text ++ newline)),
           outcome (hybrid_lines X image lines rest
                      (text ++ strip mni_text ++ newline)))
      | Raise msg =>
          ([ev_crop image b; ev_image_to_string (crop X image b) "mni"],
           Raise msg)
      end.
Proof.
  intros H H0 H1 H2 H3. cbn [hybrid_lines]. rewrite H, H0, H1, H2.
  unfold bind, call. cbn [fst snd app]. rewrite H3. cbn [fst snd app].
  destruct (image_to_string X (crop X image b) "mni"); reflexivity.
Qed.

(** Case analysis on one turn of the loop over the lines. *)
Ltac hybrid_turn X image lines k rest text :=
  let l := fresh "l_data" in
  let Eg := fresh "Eget" in
  let Ee := fresh "Eempty" in
  let Ei := fresh "Eeng" in
  let b := fresh "b" in
  let Eb := fresh "Ebox" in
  let Hb := fresh "Hbox" in
  let Ec := fresh "Ecrop" in
  let m := fresh "msg" in
  destruct (lines_get lines k) as [l |] eqn:Eg;
  [ destruct (is_empty (line_text l)) eqn:Ee;
    [ rewrite (hybrid_lines_skip X image lines k rest text l Eg Ee)
    | destruct (is_eng (line_text l)) eqn:Ei;
      [ rewrite (hybrid_lines_keep X image lines k rest text l Eg Ee Ei)
      | destruct (crop_box_cases image l) as [(b & Eb & Hb) | (m & Eb)];
        [ destruct (image_crop_cases X image b) as [Ec | (m & Ec)];
          [ rewrite (hybrid_lines_reocr X image lines k rest text l b
                       Eg Ee Ei Eb Ec)
          | rewrite (hybrid_lines_no_crop X image lines k rest text l b m
                       Eg Ee Ei Eb Ec) ]
        | rewrite (hybrid_lines_no_box X image lines k rest text l m Eg Ee Ei Eb) ] ] ]
  | rewrite (hybrid_lines_missing X image lines k rest text Eg) ].

Lemma hybrid_lines_crops X image lines keys text :
  Forall crop_within (trace (hybrid_lines X image lines keys text)).
Proof.
  revert text. induction keys as [| k rest IH]; intros text.
  - constructor.
  - hybrid_turn X image lines k rest text; try apply IH;
      try (constructor; fail).
    + destruct (image_to_string X (crop X image b) "mni") as [t | msg];
        cbn [trace fst].
      * constructor; [exact Hbox |]. constructor; [exact I | apply IH].
      * constructor; [exact Hbox |]. constructor; [exact I | constructor].
    + cbn [trace fst]. constructor; [exact Hbox | constructor].
Qed.

(** Whenever the recognition of a cropped line failed, the loop ended with
    that exception. *)
Lemma hybrid_lines_failure X image lines keys text b msg :
  In (ev_crop image b) (trace (hybrid_lines X image lines keys text)) ->
  image_to_string X (crop X image b) "mni" = Raise msg ->
  exists msg', outcome (hybrid_lines X image lines keys text) = Raise msg'.
Proof.
  revert text. induction keys as [| k rest IH]; intros text Hin Hfail.
  - destruct Hin.
  - revert Hin.
    hybrid_turn X image lines k rest text; intros Hin;
      try (apply IH; assumption); try (destruct Hin; fail).
    + destruct (image_to_string X (crop X image b0) "mni") as [t | msg0] eqn:Es;
        cbn [trace outcome fst snd] in *.
      * destruct Hin as [E | [E | Hin]]; try discriminate.
        -- injection E as <-. congruence.
        -- apply IH; assumption.
      * eexists; reflexivity.
    + eexists; reflexivity.
Qed.

(** ** Failure of a call inside a computation *)

Section Failure_facts.
Context {A B : Type}.
Variable P : event -> Prop.

Lemma bind_In (m : M A) (f : A -> M B) (e : event) :
    In e (trace (bind m f)) ->
    In e (trace m) \/ exists a, outcome m = Ok a /\ In e (trace (f a)).
  Proof.
    destruct (bind_cases m f) as [(a & E & ->) | (msg & E & ->)];
      cbn [trace fst]; intros Hin.
    - apply in_app_or in Hin. destruct Hin; [left | right]; eauto.
    - left; assumption.
  Qed.

  (** The first part makes no call of the kind [P]; the second part
      raises whenever it made one. *)
Lemma bind_failure_right (m : M A) (f : A -> M B) :
    (forall e, In e (trace m) -> ~ P e) ->
    (forall a e, outcome m = Ok a -> In e (trace (f a)) -> P e ->
                 exists msg, outcome (f a) = Raise msg) ->
    forall e, In e (trace (bind m f)) -> P e ->
              exists msg, outcome (bind m f) = Raise msg.
  Proof.
    intros Hm Hf e Hin HP.
    apply bind_In in Hin. destruct Hin as [Hin | (a & E & Hin)].
    - exfalso. exact (Hm e Hin HP).
    - rewrite (bind_Ok m f a E). cbn [outcome snd]. eauto.
  Qed.

  (** The first part raises whenever it made a call of the kind [P]; the
      second part makes none. *)
Lemma bind_failure_left (m : M A) (f : A -> M B) :
    (forall e, In e (trace m) -> P e -> exists msg, outcome m = Raise msg) ->
    (forall a e, In e (trace (f a)) -> ~ P e) ->
    forall e, In e (trace (bind m f)) -> P e ->
              exists msg, outcome (bind m f) = Raise msg.
  Proof.
    intros Hm Hf e Hin HP.
    apply bind_In in Hin. destruct Hin as [Hin | (a & E & Hin)].
    - destruct (Hm e Hin HP) as [msg Hmsg].
      rewrite (bind_Raise m f msg Hmsg). eexists; reflexivity.
    - exfalso. exact (Hf a e Hin HP).
  Qed.
End Failure_facts.

(** ** Script detection *)

Lemma detect_script_total (X : External) (image : bitmap) :
  exists script, detect_script X image = ([ev_image_to_osd image], Ok script).
Proof.
  unfold detect_script, call, bind, try_except.
  destruct (image_to_osd X image) as [osd | msg]; cbn [fst snd app ret].
  - destruct (scan_osd (splitlines osd)); eexists; reflexivity.
  - eexists; reflexivity.
Qed.

Lemma resolve_auto_total (X : External) (image : bitmap) (lang : string) :
  exists t lang',
    resolve_auto X image lang = (t, Ok lang')
    /\ (forall e, In e t -> e = ev_image_to_osd image).
Proof.
  unfold resolve_auto. destruct (String.eqb lang "auto").
  - destruct (detect_script_total X image) as [script ->].
    unfold bind, ret; cbn [fst snd app].
    do 2 eexists. split; [reflexivity |].
    intros e [<- | []]. reflexivity.
  - do 2 eexists. split; [reflexivity |]. intros e [].
Qed.

(** ** [ocr_image] *)

Lemma ocr_image_trace (X : External) (image : bitmap) (lang : string) :
  trace (ocr_image X image lang) = trace (ocr_image_body X image lang).
Proof. apply try_except_ret_trace. Qed.

(** [ocr_image] never raises: every exception of its body is turned into
    [None]. *)
Lemma ocr_image_never_raises (X : External) (image : bitmap) (lang : string) :
  exists text, outcome (ocr_image X image lang) = Ok text.
Proof. apply try_except_ret_outcome. Qed.

Lemma recognize_crops X image available lang :
  Forall crop_within (trace (recognize X image available lang)).
Proof.
  unfold recognize.
  destruct (final_lang (valid_langs lang available) available) as [final |];
    [| constructor].
  destruct (use_hybrid (valid_langs lang available)).
  - apply bind_Forall; [unfold call; cbn [trace fst]; repeat constructor |].
    intros [data |] _.
    + apply bind_Forall; [apply hybrid_lines_crops | intros; constructor].
    + apply bind_Forall; [unfold call; cbn [trace fst]; repeat constructor | intros; constructor].
  - apply bind_Forall; [unfold call; cbn [trace fst]; repeat constructor | intros; constructor].
Qed.

Lemma ocr_image_crops X image lang :
  Forall crop_within (trace (ocr_image X image lang)).
Proof.
  rewrite ocr_image_trace. unfold ocr_image_body.
  apply bind_Forall; [unfold call; cbn [trace fst]; repeat constructor |].
  intros available _.
  destruct (resolve_auto_total X image lang) as (t & lang' & E & Ht).
  apply bind_Forall.
  - rewrite E. cbn [trace fst]. rewrite Forall_forall.
    intros e He. rewrite (Ht e He). exact I.
  - intros a _. apply recognize_crops.
Qed.

Lemma recognize_failure X image available lang b msg :
  image_to_string X (crop X image b) "mni" = Raise msg ->
  forall e, In e (trace (recognize X image available lang)) ->
            e = ev_crop image b ->
            exists msg', outcome (recognize X image available lang) = Raise msg'.
Proof.
  intros Hfail. unfold recognize.
  destruct (final_lang (valid_langs lang available) available) as [final |];
    [| intros e []].
  destruct (use_hybrid (valid_langs lang available)).
  - apply (bind_failure_right (fun e => e = ev_crop image b)).
    + intros e [<- | []]. discriminate.
    + intros [data |] e _.
      * revert e. apply (bind_failure_left (fun e => e = ev_crop image b)).
        -- intros e Hin ->.
           eapply hybrid_lines_failure; eassumption.
        -- intros a e [].
      * revert e. apply (bind_failure_right (fun e => e = ev_crop image b)).
        -- intros e [<- | []]. discriminate.
        -- intros a e _ [].
  - apply (bind_failure_right (fun e => e = ev_crop image b)).
    + intros e [<- | []]. discriminate.
    + intros a e _ [].
Qed.

Lemma ocr_image_body_failure X image lang b msg :
  In (ev_crop image b) (trace (ocr_image_body X image lang)) ->
  image_to_string X (crop X image b) "mni" = Raise msg ->
  exists msg', outcome (ocr_image_body X image lang) = Raise msg'.
Proof.
  intros Hin Hfail.
  cut (forall e, In e (trace (ocr_image_body X image lang)) ->
                 e = ev_crop image b ->
                 exists msg', outcome (ocr_image_body X image lang) = Raise msg').
  { intros H. exact (H _ Hin eq_refl). }
  unfold ocr_image_body.
  apply (bind_failure_right (fun e => e = ev_crop image b)).
  - intros e [<- | []]. discriminate.
  - intros available e _. revert e.
    destruct (resolve_auto_total X image lang) as (t & lang' & E & Ht).
    apply (bind_failure_right (fun e => e = ev_crop image b)).
    + rewrite E. cbn [trace fst]. intros e He. rewrite (Ht e He).
      discriminate.
    + intros a e _. apply (recognize_failure X image available a b msg Hfail).
Qed.

Lemma line_append_filled (l : Line.t) (w : word) :
  l = empty_line \/ filled l -> filled (line_append l w).
Proof.
  unfold filled, line_append. cbn [Line.left Line.top Line.width Line.height].
  rewrite !length_app. cbn [length].
  intros [-> | (H0 & H1 & H2 & H3)]; cbn [empty_line length Line.left Line.top Line.width Line.height]; lia.
Qed.

Lemma lines_append_filled (lines : lines_dict) (k : key) (w : word) :
  Forall (fun kl => filled (snd kl)) lines ->
  Forall (fun kl => filled (snd kl)) (lines_append lines k w).
Proof.
  induction 1 as [| [k' l] rest Hl Hrest IH]; cbn [lines_append].
  - constructor; [| constructor]. apply line_append_filled. left; reflexivity.
  - destruct (key_eqb k k').
    + constructor; [| assumption]. apply line_append_filled. right; exact Hl.
    + constructor; assumption.
Qed.

Lemma group_lines_filled (data : list word) (lines : lines_dict) :
  Forall (fun kl => filled (snd kl)) lines ->
  Forall (fun kl => filled (snd kl)) (group_lines data lines).
Proof.
  revert lines. induction data as [| w rest IH]; intros lines H; cbn [group_lines].
  - exact H.
  - destruct (w_conf w =? -1); apply IH; [exact H |].
    apply lines_append_filled. exact H.
Qed.

Lemma lines_get_In (lines : lines_dict) (k : key) (l : Line.t) :
  lines_get lines k = Some l -> exists k', In (k', l) lines.
Proof.
  induction lines as [| [k' l'] rest IH]; cbn [lines_get]; [discriminate |].
  destruct (key_eqb k k').
  - intros E. injection E as ->. exists k'. left; reflexivity.
  - intros E. destruct (IH E) as [k'' H]. exists k''. right; exact H.
Qed.

Lemma filled_crop_box (image : bitmap) (l : Line.t) :
  filled l -> exists b, crop_box image l = ([], Ok b) /\ box_within image b.
Proof.
  intros (H0 & H1 & H2 & H3).
  destruct (crop_box_cases image l) as [H | (msg & E)]; [exact H |].
  exfalso. revert E. destruct l as [tx lf tp wd ht].
  unfold crop_box, py_min, py_max, zip_add.
  cbn [Line.left Line.top Line.width Line.height] in *.
  destruct lf as [| x lf]; [cbn [length] in H0; lia |].
  destruct tp as [| y tp]; [discriminate |].
  destruct wd as [| w wd]; [discriminate |].
  destruct ht as [| h ht]; [discriminate |].
  discriminate.
Qed.

(** C5: every crop that [ocr_image] asks for lies within the image (left
    and top at least 0, right at most the width, bottom at most the
    height); the rectangle of a line, when it has one, lies within the
    image; and every line of the grouping has one. *)
Theorem crop_box_clamped (X : External) (image : bitmap) :
  (forall lang b,
      In (ev_crop image b) (trace (ocr_image X image lang)) ->
      box_within image b)
  /\ (forall l_data b,
         outcome (crop_box image l_data) = Ok b -> box_within image b)
  /\ (forall data k l_data,
         lines_get (group_lines data []) k = Some l_data ->
         exists b, crop_box image l_data = ([], Ok b) /\ box_within image b).
Proof.
  split; [| split].
  - intros lang b Hin.
    pose proof (ocr_image_crops X image lang) as H.
    rewrite Forall_forall in H. exact (H _ Hin).
  - intros l b E.
    destruct (crop_box_cases image l) as [(b' & E' & Hb) | (msg & E')];
      rewrite E' in E; cbn [outcome snd] in E; [| discriminate].
    injection E as <-. exact Hb.
  - intros data k l E. apply filled_crop_box.
    destruct (lines_get_In _ _ _ E) as [k' Hin].
    pose proof (group_lines_filled data [] (Forall_nil _)) as H.
    rewrite Forall_forall in H. exact (H _ Hin).
Qed.

Lemma crop_box_clamped_witness :
  In (ev_crop sample_bitmap (0, 25, 200, 49))
     (trace (ocr_image hybrid_engine sample_bitmap "mni+eng"))
  /\ box_within sample_bitmap (0, 25, 200, 49).
Proof.
  assert (Hin : In (ev_crop sample_bitmap (0, 25, 200, 49))
                   (trace (ocr_image hybrid_engine sample_bitmap "mni+eng")))
    by (vm_compute; auto).
  split; [exact Hin |].
  exact (proj1 (crop_box_clamped hybrid_engine sample_bitmap) "mni+eng" _ Hin).
Defined.

(** ** Requests with language [auto] *)

Lemma valid_langs_nil (lang : string) : valid_langs lang [] = [].
Proof.
  unfold valid_langs. induction (requested_langs lang) as [| c l IH];
    [reflexivity | exact IH].
Qed.

Lemma SCRIPT_LANG_MAP_codes (script : string) :
  dict_get SCRIPT_LANG_MAP script "eng" = "eng"
  \/ dict_get SCRIPT_LANG_MAP script "eng" = "mni"
  \/ dict_get SCRIPT_LANG_MAP script "eng" = "hin"
  \/ dict_get SCRIPT_LANG_MAP script "eng" = "ben".
Proof.
  unfold SCRIPT_LANG_MAP. cbn [dict_get].
  destruct (String.eqb "Latin" script); [auto |].
  destruct (String.eqb "Meetei_Mayek" script); [auto |].
  destruct (String.eqb "Devanagari" script); [auto |].
  destruct (String.eqb "Bengali" script); auto.
Qed.

(** One code of the table never meets the condition of the hybrid path. *)
Lemma table_code_not_hybrid (code : string) (available : list string) :
  code = "eng" \/ code = "mni" \/ code = "hin" \/ code = "ben" ->
  requested_langs code = [code]
  /\ valid_langs code available = (if mem code available then [code] else [])
  /\ use_hybrid (valid_langs code available) = false.
Proof.
  unfold valid_langs.
  intros [-> | [-> | [-> | ->]]];
    (split; [reflexivity |]);
    match goal with
    | |- context [requested_langs ?c] => change (requested_langs c) with [c]
    end;
    cbn [filter];
    match goal with
    | |- context [mem ?c available] => destruct (mem c available)
    end; split; reflexivity.
Qed.

Lemma recognize_single (X : External) (image : bitmap)
    (available : list string) (lang : string) :
  use_hybrid (valid_langs lang available) = false ->
  recognize X image available lang
    = match final_lang (valid_langs lang available) available with
      | None => ([], Ok None)
      | Some final =>
          ([ev_image_to_string image final],
           match image_to_string X image final with
           | Ok text => Ok (Some text)
           | Raise msg => Raise msg
           end)
      end.
Proof.
  intros H. unfold recognize. rewrite H.
  destruct (final_lang (valid_langs lang available) available) as [final |];
    [| reflexivity].
  unfold bind, call. cbn [fst snd app].
  destruct (image_to_string X image final); reflexivity.
Qed.

Lemma ocr_image_body_auto (X : External) (image : bitmap) :
  exists script,
    ocr_image_body X image "auto"
    = match get_languages X with
      | Ok available =>
          (ev_get_languages :: ev_image_to_osd image
             :: trace (recognize X image available
                         (dict_get SCRIPT_LANG_MAP script "eng")),
           outcome (recognize X image available
                      (dict_get SCRIPT_LANG_MAP script "eng")))
      | Raise msg => ([ev_get_languages], Raise msg)
      end.
Proof.
  destruct (detect_script_total X image) as [script E]. exists script.
  unfold ocr_image_body, resolve_auto. cbn [String.eqb Ascii.eqb Bool.eqb].
  rewrite E. unfold bind, call, ret. cbn [fst snd app].
  destruct (get_languages X); reflexivity.
Qed.

Lemma ocr_image_body_explicit (X : External) (image : bitmap) (lang : string) :
  lang <> "auto" ->
  ocr_image_body X image lang
  = match get_languages X with
    | Ok available =>
        (ev_get_languages :: trace (recognize X image available lang),
         outcome (recognize X image available lang))
    | Raise msg => ([ev_get_languages], Raise msg)
    end.
Proof.
  intros Hne. unfold ocr_image_body, resolve_auto.
  apply String.eqb_neq in Hne. rewrite Hne.
  unfold bind, call, ret. cbn [fst snd app].
  destruct (get_languages X); reflexivity.
Qed.

Lemma final_lang_of_code (code : string) (available : list string) :
  available <> [] ->
  exists final,
    final_lang (if mem code available then [code] else []) available = Some final
    /\ In final available.
Proof.
  intros Hne. destruct (mem code available) eqn:E.
  - exists code. split; [reflexivity | apply mem_In; exact E].
  - cbn [final_lang]. destruct (mem "eng" available) eqn:E'.
    + exists "eng". split; [reflexivity | apply mem_In; exact E'].
    + destruct available as [| first rest]; [congruence |].
      exists first. split; [reflexivity | left; reflexivity].
Qed.

(** C10 (as amended): with the request [auto] the hybrid path is never
    taken: the table gives one code, the list of requested codes has that
    one item, and the condition of the hybrid path is false for every
    capability set; [ocr_image] then asks for no layout pass and no crop,
    and, whenever the engine lists at least one language, its calls are
    the capability query, the script detection and one recognition of the
    whole image in an installed language; when the engine lists no
    language, no recognition is asked for and no text comes back. *)
Theorem auto_never_hybrid (X : External) (image : bitmap) :
  (forall script available,
      requested_langs (dict_get SCRIPT_LANG_MAP script "eng")
        = [dict_get SCRIPT_LANG_MAP script "eng"]
      /\ use_hybrid (valid_langs (dict_get SCRIPT_LANG_MAP script "eng") available)
         = false)
  /\ (forall e, In e (trace (ocr_image X image "auto")) -> is_hybrid_call e = false)
  /\ (forall available,
         get_languages X = Ok available ->
         available <> [] ->
         exists final,
           In final available
           /\ trace (ocr_image X image "auto")
              = [ev_get_languages; ev_image_to_osd image;
                 ev_image_to_string image final]
           /\ recognition_calls (trace (ocr_image X image "auto"))
              = [ev_image_to_string image final])
  /\ (get_languages X = Ok [] ->
      ocr_image X image "auto"
      = ([ev_get_languages; ev_image_to_osd image], Ok None)).
Proof.
  assert (H1 : forall script available,
             requested_langs (dict_get SCRIPT_LANG_MAP script "eng")
               = [dict_get SCRIPT_LANG_MAP script "eng"]
             /\ use_hybrid (valid_langs (dict_get SCRIPT_LANG_MAP script "eng")
                                        available) = false).
  { intros script available.
    destruct (table_code_not_hybrid _ available (SCRIPT_LANG_MAP_codes script))
      as (Ha & _ & Hb).
    split; assumption. }
  split; [exact H1 |].
  unfold ocr_image at 4. rewrite ocr_image_trace.
  destruct (ocr_image_body_auto X image) as [script ->].
  split; [| split].
  - intros e. destruct (get_languages X) as [available | msg]; cbn [trace fst].
    + rewrite (recognize_single X image available _ (proj2 (H1 script available))).
      destruct (final_lang _ available); cbn [trace fst];
        intros [<- | [<- | Hin]]; try reflexivity;
        [destruct Hin as [<- | []]; reflexivity | destruct Hin].
    + intros [<- | []]. reflexivity.
  - intros available -> Hne.
    rewrite (recognize_single X image available _ (proj2 (H1 script available))).
    destruct (table_code_not_hybrid _ available (SCRIPT_LANG_MAP_codes script))
      as (_ & -> & _).
    destruct (final_lang_of_code (dict_get SCRIPT_LANG_MAP script "eng")
                                 available Hne) as (final & -> & Hin).
    exists final. cbn [trace fst]. repeat split; assumption.
  - intros ->. unfold recognize. rewrite valid_langs_nil. reflexivity.
Qed.

Lemma auto_never_hybrid_witness :
  In (ev_image_to_string sample_bitmap "eng")
     (trace (ocr_image hybrid_engine sample_bitmap "auto"))
  /\ is_hybrid_call (ev_image_to_string sample_bitmap "eng") = false
  /\ exists final,
       In final ["eng"; "mni"]
       /\ trace (ocr_image hybrid_engine sample_bitmap "auto")
          = [ev_get_languages; ev_image_to_osd sample_bitmap;
             ev_image_to_string sample_bitmap final]
       /\ recognition_calls (trace (ocr_image hybrid_engine sample_bitmap "auto"))
          = [ev_image_to_string sample_bitmap final].
Proof.
  assert (Hin : In (ev_image_to_string sample_bitmap "eng")
                   (trace (ocr_image hybrid_engine sample_bitmap "auto")))
    by (vm_compute; auto).
  destruct (auto_never_hybrid hybrid_engine sample_bitmap) as (_ & H2 & H3 & _).
  split; [exact Hin |].
  split; [exact (H2 _ Hin) |].
  apply H3; [reflexivity | discriminate].
Defined.

(** C10 (as stated) does not hold: with an engine that lists no language,
    an [auto] request runs no recognition pass at all. *)
Lemma auto_without_language_no_pass :
  ~ auto_single_pass no_language_engine sample_bitmap.
Proof.
  intros [final H]. vm_compute in H. discriminate.
Qed.

(** ** Language resolution *)

Lemma split_on_nonempty (sep : ascii) (s : string) : split_on sep s <> [].
Proof.
  induction s as [| c s IH]; cbn [split_on]; [discriminate |].
  destruct (Ascii.eqb c sep); [discriminate |].
  destruct (split_on sep s); [congruence | discriminate].
Qed.

Lemma split_on_free (sep : ascii) (s : string) :
  Forall (fun w => free_of sep w = true) (split_on sep s).
Proof.
  induction s as [| c s IH]; cbn [split_on].
  - repeat constructor.
  - destruct (Ascii.eqb c sep) eqn:E.
    + constructor; [reflexivity | exact IH].
    + destruct (split_on sep s) as [| w ws]; [repeat constructor |].
      * unfold free_of. cbn [all_chars]. rewrite E. reflexivity.
      * inversion IH as [| ? ? Hw Hws]; subst.
        constructor; [| exact Hws].
        unfold free_of in *. cbn [all_chars]. rewrite E, Hw. reflexivity.
Qed.

Lemma split_on_single (sep : ascii) (w : string) :
  free_of sep w = true -> split_on sep w = [w].
Proof.
  unfold free_of. induction w as [| c w IH]; cbn [all_chars split_on];
    [reflexivity |].
  intros H. apply andb_true_iff in H. destruct H as [Hc Hw].
  apply negb_true_iff in Hc. rewrite Hc, (IH Hw). reflexivity.
Qed.

Lemma split_on_app (sep : ascii) (k v : string) :
  split_on sep (k ++ String sep v) = (split_on sep k ++ split_on sep v)%list.
Proof.
  induction k as [| c k IH].
  - cbn [append split_on app]. rewrite Ascii.eqb_refl. reflexivity.
  - cbn [append split_on]. destruct (Ascii.eqb c sep).
    + rewrite IH. reflexivity.
    + rewrite IH. pose proof (split_on_nonempty sep k) as Hne.
      destruct (split_on sep k) as [| w ws]; [congruence | reflexivity].
Qed.

(** Splitting the joined codes gives the codes back. *)
Lemma split_on_join (sep : ascii) (l : list string) :
  l <> [] ->
  Forall (fun w => free_of sep w = true) l ->
  split_on sep (join (String sep EmptyString) l) = l.
Proof.
  intros Hne Hall. induction Hall as [| x l Hx Hl IH]; [congruence |].
  destruct l as [| y l'].
  - cbn [join String.concat]. apply split_on_single. exact Hx.
  - change (join (String sep EmptyString) (x :: y :: l'))
      with (x ++ String sep (join (String sep EmptyString) (y :: l'))).
    rewrite split_on_app, (split_on_single sep x Hx), IH by discriminate.
    reflexivity.
Qed.

Lemma kept_filter (available l : list string) :
  kept (fun c => In c available) l (filter (fun c => mem c available) l).
Proof.
  induction l as [| c l IH]; cbn [filter]; [constructor |].
  destruct (mem c available) eqn:E.
  - apply kept_take; [apply mem_In; exact E | exact IH].
  - apply kept_drop; [apply mem_false; exact E | exact IH].
Qed.

Lemma valid_langs_free (lang : string) (available : list string) :
  Forall (fun w => free_of "+" w = true) (valid_langs lang available).
Proof.
  unfold valid_langs, requested_langs. rewrite Forall_forall. intros w Hw.
  apply filter_In in Hw. destruct Hw as [Hw _].
  pose proof (split_on_free "+" lang) as H.
  rewrite Forall_forall in H. exact (H w Hw).
Qed.

Lemma use_hybrid_final (lang : string) (available : list string) :
  use_hybrid (valid_langs lang available) = true ->
  final_lang (valid_langs lang available) available
  = Some (join "+" (valid_langs lang available)).
Proof.
  unfold use_hybrid. intros H. apply andb_true_iff in H. destruct H as [H _].
  destruct (valid_langs lang available); [discriminate | reflexivity].
Qed.

Lemma hybrid_lines_events X image lines keys text :
  Forall (hybrid_event X image) (trace (hybrid_lines X image lines keys text)).
Proof.
  revert text. induction keys as [| k rest IH]; intros text.
  - constructor.
  - hybrid_turn X image lines k rest text; try apply IH;
      try (constructor; fail).
    + destruct (image_to_string X (crop X image b) "mni") as [t | msg];
        cbn [trace fst].
      * constructor; [right; left; eauto |].
        constructor; [right; right; eauto | apply IH].
      * constructor; [right; left; eauto |].
        constructor; [right; right; eauto | constructor].
    + cbn [trace fst]. constructor; [right; left; eauto | constructor].
Qed.

(** The hybrid path with an answer of the layout pass. *)
Lemma recognize_hybrid (X : External) (image : bitmap)
    (available : list string) (lang : string) (data : list word) :
  use_hybrid (valid_langs lang available) = true ->
  image_to_data X image "eng" = Ok (Some data) ->
  recognize X image available lang
  = (ev_image_to_data image "eng"
       :: trace (hybrid_lines X image (group_lines data [])
                              (sorted_keys (group_lines data [])) ""),
     match outcome (hybrid_lines X image (group_lines data [])
                                 (sorted_keys (group_lines data [])) "") with
     | Ok final_text => Ok (Some final_text)
     | Raise msg => Raise msg
     end).
Proof.
  intros Hh Hd. unfold recognize. rewrite (use_hybrid_final _ _ Hh), Hh, Hd.
  unfold bind at 1. unfold call. cbn [fst snd app].
  destruct (hybrid_lines X image (group_lines data [])
                         (sorted_keys (group_lines data [])) "")
    as [t [final_text | msg]]; cbn [bind fst snd ret trace outcome];
    [rewrite app_nil_r |]; reflexivity.
Qed.

Lemma ocr_image_hybrid (X : External) (image : bitmap)
    (available : list string) (lang : string) (data : list word) :
  lang <> "auto" ->
  get_languages X = Ok available ->
  use_hybrid (valid_langs lang available) = true ->
  image_to_data X image "eng" = Ok (Some data) ->
  ocr_image X image lang
  = (ev_get_languages :: ev_image_to_data image "eng"
       :: trace (hybrid_lines X image (group_lines data [])
                              (sorted_keys (group_lines data [])) ""),
     match outcome (hybrid_lines X image (group_lines data [])
                                 (sorted_keys (group_lines data [])) "") with
     | Ok final_text => Ok (Some final_text)
     | Raise _ => Ok None
     end).
Proof.
  intros Hauto Hlangs Hh Hd. unfold ocr_image.
  rewrite (ocr_image_body_explicit X image lang Hauto), Hlangs.
  rewrite (recognize_hybrid X image available lang data Hh Hd).
  cbn [trace outcome fst snd].
  destruct (outcome (hybrid_lines X image (group_lines data [])
                                  (sorted_keys (group_lines data [])) ""));
    cbn [try_except fst snd ret]; [| rewrite app_nil_r]; reflexivity.
Qed.

(** On the hybrid path the joined language is no single code. *)
Lemma hybrid_final_not_single (lang : string) (available : list string)
    (c : string) :
  use_hybrid (valid_langs lang available) = true ->
  free_of "+" c = true ->
  join "+" (valid_langs lang available) <> c.
Proof.
  intros Hh Hc E.
  assert (Hne : valid_langs lang available <> []).
  { intros E0. rewrite E0 in Hh. discriminate. }
  pose proof (split_on_join "+" _ Hne (valid_langs_free lang available)) as Hs.
  change (String "+" EmptyString) with "+" in Hs.
  rewrite E, (split_on_single "+" c Hc) in Hs.
  rewrite <- Hs in Hh. unfold use_hybrid, mem in Hh. cbn [existsb] in Hh.
  rewrite !orb_false_r in Hh. apply andb_true_iff in Hh.
  destruct Hh as [H1 H2].
  apply String.eqb_eq in H1, H2. subst c. discriminate.
Qed.

(** The hybrid path when the answer of the layout pass has no column
    [text]: one recognition of the whole image. *)
Lemma recognize_hybrid_no_data (X : External) (image : bitmap)
    (available : list string) (lang : string) :
  use_hybrid (valid_langs lang available) = true ->
  image_to_data X image "eng" = Ok None ->
  recognize X image available lang
  = ([ev_image_to_data image "eng";
      ev_image_to_string image (join "+" (valid_langs lang available))],
     match image_to_string X image (join "+" (valid_langs lang available)) with
     | Ok text => Ok (Some text)
     | Raise msg => Raise msg
     end).
Proof.
  intros Hh Hd. unfold recognize. rewrite (use_hybrid_final _ _ Hh), Hh, Hd.
  unfold bind, call. cbn [fst snd app].
  destruct (image_to_string X image (join "+" (valid_langs lang available)));
    reflexivity.
Qed.

(** C6 (as amended): for an explicit request the resolver keeps exactly
    the requested codes (the pieces of the request between [+]) found in
    the capability set, in the order of the request; when some are kept,
    the resolved language is their [+]-join, which splits back into them;
    when none is kept, it is [eng] if installed, else an installed code if
    there is one; with an empty capability set no language is resolved and
    the page comes back without text and without any recognition.  The
    resolved language is the one of the single recognition call made on
    the image, except when [mni] and [eng] are both kept: then the layout
    pass is asked in [eng], and the resolved language is handed to the
    engine only if the answer of the layout pass has no column [text];
    with such a column, no call hands it over. *)
Theorem resolver_keeps_installed (lang : string) (available : list string) :
  lang <> "auto" ->
  kept (fun c => In c available) (split_on "+" lang) (valid_langs lang available)
  /\ (valid_langs lang available <> [] ->
      final_lang (valid_langs lang available) available
        = Some (join "+" (valid_langs lang available))
      /\ split_on "+" (join "+" (valid_langs lang available))
         = valid_langs lang available)
  /\ (valid_langs lang available = [] ->
      In "eng" available ->
      final_lang (valid_langs lang available) available = Some "eng")
  /\ (valid_langs lang available = [] ->
      ~ In "eng" available ->
      available <> [] ->
      exists c, In c available
                /\ final_lang (valid_langs lang available) available = Some c)
  /\ (available = [] ->
      final_lang (valid_langs lang available) available = None
      /\ forall X image,
           get_languages X = Ok available ->
           ocr_image X image lang = ([ev_get_languages], Ok None))
  /\ (forall X image final,
         get_languages X = Ok available ->
         final_lang (valid_langs lang available) available = Some final ->
         use_hybrid (valid_langs lang available) = false ->
         ocr_image X image lang
         = ([ev_get_languages; ev_image_to_string image final],
            match image_to_string X image final with
            | Ok text => Ok (Some text)
            | Raise _ => Ok None
            end))
  /\ (forall X image final,
         get_languages X = Ok available ->
         final_lang (valid_langs lang available) available = Some final ->
         use_hybrid (valid_langs lang available) = true ->
         final = join "+" (valid_langs lang available)
         /\ (image_to_data X image "eng" = Ok None ->
             ocr_image X image lang
             = ([ev_get_languages; ev_image_to_data image "eng";
                 ev_image_to_string image final],
                match image_to_string X image final with
                | Ok text => Ok (Some text)
                | Raise _ => Ok None
                end))
         /\ (forall data,
                image_to_data X image "eng" = Ok (Some data) ->
                forall e, In e (trace (ocr_image X image lang)) ->
                          ~ passes_lang e final)).
Proof.
  intros Hauto. split; [apply kept_filter |].
  split.
  { intros Hne. split.
    - destruct (valid_langs lang available); [congruence | reflexivity].
    - apply (split_on_join "+"); [exact Hne | apply valid_langs_free]. }
  split.
  { intros -> Heng. cbn [final_lang].
    apply mem_In in Heng. rewrite Heng. reflexivity. }
  split.
  { intros -> Heng Hne. cbn [final_lang].
    apply mem_false in Heng. rewrite Heng.
    destruct available as [| first rest]; [congruence |].
    exists first. split; [left; reflexivity | reflexivity]. }
  split.
  { intros ->. rewrite valid_langs_nil. split; [reflexivity |].
    intros X image Hlangs. unfold ocr_image.
    rewrite (ocr_image_body_explicit X image lang Hauto), Hlangs.
    rewrite (recognize_single X image [] lang)
      by (rewrite valid_langs_nil; reflexivity).
    rewrite valid_langs_nil. reflexivity. }
  split.
  { intros X image final Hlangs Hfinal Hhybrid.
    unfold ocr_image. rewrite (ocr_image_body_explicit X image lang Hauto), Hlangs.
    rewrite (recognize_single X image available lang Hhybrid), Hfinal.
    cbn [trace outcome fst snd].
    destruct (image_to_string X image final); reflexivity. }
  intros X image final Hlangs Hfinal Hhybrid.
  rewrite (use_hybrid_final _ _ Hhybrid) in Hfinal. injection Hfinal as <-.
  split; [reflexivity |]. split.
  - intros Hd. unfold ocr_image.
    rewrite (ocr_image_body_explicit X image lang Hauto), Hlangs.
    rewrite (recognize_hybrid_no_data X image available lang Hhybrid Hd).
    cbn [trace outcome fst snd].
    destruct (image_to_string X image (join "+" (valid_langs lang available)));
      reflexivity.
  - intros data Hd e.
    rewrite (ocr_image_hybrid X image available lang data Hauto Hlangs Hhybrid Hd).
    cbn [trace fst].
    pose proof (hybrid_lines_events X image (group_lines data [])
                  (sorted_keys (group_lines data [])) "") as Hev.
    rewrite Forall_forall in Hev.
    intros [<- | [<- | He]]; cbn [passes_lang].
    + intros [].
    + intros E. symmetry in E. revert E.
      apply hybrid_final_not_single; [exact Hhybrid | reflexivity].
    + destruct (Hev e He) as [-> | [[b ->] | [b ->]]]; cbn [passes_lang].
      * intros E. symmetry in E. revert E.
        apply hybrid_final_not_single; [exact Hhybrid | reflexivity].
      * intros [].
      * intros E. symmetry in E. revert E.
        apply hybrid_final_not_single; [exact Hhybrid | reflexivity].
Qed.

Lemma resolver_keeps_installed_witness :
  "hin+xx+eng" <> "auto"
  /\ valid_langs "hin+xx+eng" ["eng"; "hin"] = ["hin"; "eng"]
  /\ final_lang (valid_langs "hin+xx+eng" ["eng"; "hin"]) ["eng"; "hin"]
     = Some "hin+eng"
  /\ final_lang (valid_langs "xyz" ["eng"]) ["eng"] = Some "eng"
  /\ ocr_image hybrid_engine sample_bitmap "xyz"
     = ([ev_get_languages; ev_image_to_string sample_bitmap "eng"],
        Ok (Some "page text"))
  /\ ocr_image no_language_engine sample_bitmap "mni+eng"
     = ([ev_get_languages], Ok None)
  /\ ocr_image no_text_column_engine sample_bitmap "mni+eng"
     = ([ev_get_languages; ev_image_to_data sample_bitmap "eng";
         ev_image_to_string sample_bitmap "mni+eng"],
        Ok (Some "page text"))
  /\ (forall e, In e (trace (ocr_image hybrid_engine sample_bitmap "mni+eng")) ->
                ~ passes_lang e "mni+eng").
Proof.
  assert (Hne : "hin+xx+eng" <> "auto") by discriminate.
  assert (Hne' : "xyz" <> "auto") by discriminate.
  assert (Hne2 : "mni+eng" <> "auto") by discriminate.
  destruct (resolver_keeps_installed "hin+xx+eng" ["eng"; "hin"] Hne)
    as (_ & H2 & _).
  destruct (resolver_keeps_installed "xyz" ["eng"] Hne') as (_ & _ & H3 & _).
  destruct (resolver_keeps_installed "xyz" ["eng"; "mni"] Hne')
    as (_ & _ & _ & _ & _ & H5 & _).
  destruct (resolver_keeps_installed "mni+eng" [] Hne2)
    as (_ & _ & _ & _ & H6 & _).
  destruct (resolver_keeps_installed "mni+eng" ["eng"; "mni"] Hne2)
    as (_ & _ & _ & _ & _ & _ & H8).
  split; [exact Hne |].
  split; [reflexivity |].
  split; [exact (proj1 (H2 ltac:(discriminate))) |].
  split; [apply H3; [reflexivity | left; reflexivity] |].
  split; [exact (H5 hybrid_engine sample_bitmap "eng" eq_refl eq_refl eq_refl) |].
  split; [exact (proj2 (H6 eq_refl) no_language_engine sample_bitmap eq_refl) |].
  split; [exact (proj1 (proj2 (H8 no_text_column_engine sample_bitmap "mni+eng"
                                 eq_refl eq_refl eq_refl)) eq_refl) |].
  exact (proj2 (proj2 (H8 hybrid_engine sample_bitmap "mni+eng"
                          eq_refl eq_refl eq_refl))
               sample_words eq_refl).
Defined.

(** C6 (as stated) does not hold: with [mni] and [eng] both requested and
    installed and a layout pass that finds words, the [+]-join of the kept
    codes is handed to the engine by no call of the page. *)
Lemma joined_code_not_passed :
  ~ joined_code_passed hybrid_engine sample_bitmap "mni+eng".
Proof.
  intros H.
  destruct (H ["eng"; "mni"] eq_refl ltac:(discriminate)) as (e & Hin & Hp).
  vm_compute in Hin.
  destruct Hin as [<- | [<- | [<- | [<- | []]]]]; vm_compute in Hp;
    try contradiction; discriminate.
Qed.

(** ** Script detection, continued *)

Lemma scan_osd_none (lines : list string) :
  (forall line, In line lines -> contains "Script" line = false) ->
  scan_osd lines = None.
Proof.
  induction lines as [| line rest IH]; intros H; cbn [scan_osd]; [reflexivity |].
  rewrite (H line) by (left; reflexivity).
  apply IH. intros l Hl. apply H. right; exact Hl.
Qed.

Lemma scan_osd_first (pre : list string) (line : string) (post : list string) :
  (forall l, In l pre -> contains "Script" l = false) ->
  contains "Script" line = true ->
  scan_osd (pre ++ line :: post) = Some (strip (last_item (split_on ":" line))).
Proof.
  intros Hpre Hline. induction pre as [| l pre IH]; cbn [app scan_osd].
  - rewrite Hline. reflexivity.
  - rewrite (Hpre l) by (left; reflexivity).
    apply IH. intros l' Hl'. apply Hpre. right; exact Hl'.
Qed.

(** The last piece of a line is what follows its last colon. *)
Lemma last_item_after_colon (k v : string) :
  free_of ":" v = true -> last_item (split_on ":" (k ++ String ":" v)) = v.
Proof.
  intros Hv. unfold last_item.
  rewrite split_on_app, (split_on_single ":" v Hv).
  apply last_last.
Qed.

Lemma detect_script_outcome (X : External) (image : bitmap) :
  outcome (detect_script X image)
  = match image_to_osd X image with
    | Ok osd =>
        match scan_osd (splitlines osd) with
        | Some script => Ok script
        | None => Ok "Latin"
        end
    | Raise _ => Ok "Latin"
    end.
Proof.
  unfold detect_script, call, bind, try_except.
  destruct (image_to_osd X image) as [osd | msg]; cbn [fst snd app ret outcome].
  - destruct (scan_osd (splitlines osd)); reflexivity.
  - reflexivity.
Qed.

(** C8 (as amended): script detection never raises; it answers [Latin]
    when the engine fails and when no line of the report contains the
    word [Script]; otherwise it answers, stripped of surrounding
    whitespace, what follows the last colon of the first line that
    contains the word [Script] (the whole line when it has no colon), which
    for a line [Script: value] is the value. *)
Theorem detect_script_default (X : External) (image : bitmap) :
  (exists script, outcome (detect_script X image) = Ok script)
  /\ (forall msg,
         image_to_osd X image = Raise msg ->
         outcome (detect_script X image) = Ok "Latin")
  /\ (forall osd,
         image_to_osd X image = Ok osd ->
         (forall line, In line (splitlines osd) -> contains "Script" line = false) ->
         outcome (detect_script X image) = Ok "Latin")
  /\ (forall osd pre line post,
         image_to_osd X image = Ok osd ->
         splitlines osd = (pre ++ line :: post)%list ->
         (forall l, In l pre -> contains "Script" l = false) ->
         contains "Script" line = true ->
         outcome (detect_script X image)
           = Ok (strip (last_item (split_on ":" line)))
         /\ (free_of ":" line = true ->
             outcome (detect_script X image) = Ok (strip line))
         /\ (forall k v,
                line = k ++ String ":" v ->
                free_of ":" v = true ->
                outcome (detect_script X image) = Ok (strip v))).
Proof.
  split.
  { destruct (detect_script_total X image) as [script ->]. eexists; reflexivity. }
  rewrite detect_script_outcome.
  split; [intros msg ->; reflexivity |].
  split.
  { intros osd -> H. rewrite (scan_osd_none _ H). reflexivity. }
  intros osd pre line post -> -> Hpre Hline.
  rewrite (scan_osd_first pre line post Hpre Hline).
  split; [reflexivity |]. split.
  - intros Hfree. rewrite (split_on_single ":" line Hfree). reflexivity.
  - intros k v -> Hv. rewrite (last_item_after_colon k v Hv). reflexivity.
Qed.

Lemma detect_script_default_witness :
  outcome (detect_script hybrid_engine sample_bitmap) = Ok "Bengali"
  /\ outcome (detect_script
                (sample_engine (Ok ["eng"]) (Raise "TesseractError") (Ok ""))
                sample_bitmap) = Ok "Latin".
Proof.
  destruct (detect_script_default hybrid_engine sample_bitmap) as (_ & _ & _ & H4).
  destruct (detect_script_default
              (sample_engine (Ok ["eng"]) (Raise "TesseractError") (Ok ""))
              sample_bitmap) as (_ & H2 & _).
  split.
  - refine (proj2 (proj2 (H4 osd_report
              ["Page number: 0"; "Orientation in degrees: 0"; "Rotate: 0";
               "Orientation confidence: 2.27"]
              "Script: Bengali" ["Script confidence: 1.11"] eq_refl eq_refl _ eq_refl))
            "Script" " Bengali" eq_refl eq_refl).
    intros l Hl.
    repeat (destruct Hl as [<- | Hl]; [reflexivity |]). destruct Hl.
  - exact (H2 "TesseractError" eq_refl).
Defined.

(** C8 (as stated) does not hold: for a report whose [Script] line lacks
    the colon, the answer is that line and not the default label. *)
Lemma malformed_script_line_returned :
  outcome (detect_script malformed_report_engine sample_bitmap) = Ok "Script Latin"
  /\ detect_script_spec (image_to_osd malformed_report_engine sample_bitmap)
     = "Latin"
  /\ ~ script_detection_as_specified malformed_report_engine sample_bitmap.
Proof.
  split; [reflexivity |]. split; [reflexivity |].
  unfold script_detection_as_specified. vm_compute. discriminate.
Qed.

(** ** Documents *)

Lemma process_pages_outcome (X : External) (language : string)
    (images : list raster) (i : Z) (pages : list Page.t) :
  outcome (process_pages X language images i pages)
  = Ok (pages ++ entries X language images i)%list.
Proof.
  revert i pages. induction images as [| image rest IH]; intros i pages.
  - cbn [process_pages entries]. rewrite app_nil_r. reflexivity.
  - cbn [process_pages entries].
    destruct (ocr_image_never_raises X (preprocess_image X image) (or_auto language))
      as [text E].
    rewrite (bind_Ok _ _ text E). cbn [outcome snd].
    change (snd ?m) with (outcome m). rewrite IH.
    unfold ocr_text. rewrite E. rewrite <- app_assoc. reflexivity.
Qed.

Lemma pdf_to_images_outcome (X : External) (pdf_path : string) :
  outcome (pdf_to_images X pdf_path)
  = match convert_from_path X pdf_path with
    | Ok images => Ok images
    | Raise e => Raise ("Failed to convert PDF: " ++ e)
    end.
Proof.
  unfold pdf_to_images, call, try_except.
  destruct (convert_from_path X pdf_path); reflexivity.
Qed.

Lemma extract_outcome (X : External)
    (pdf_path language doc_id original_filename : string) :
  outcome (extract_text_from_pdf X pdf_path language doc_id original_filename)
  = match convert_from_path X pdf_path with
    | Ok [] => Ok None
    | Ok (image :: rest) =>
        Ok (Some (Doc.mk doc_id original_filename language
                         (Z.of_nat (length (image :: rest)))
                         (entries X language (image :: rest) 0)))
    | Raise e => Raise ("Failed to convert PDF: " ++ e)
    end.
Proof.
  unfold extract_text_from_pdf.
  pose proof (pdf_to_images_outcome X pdf_path) as H.
  destruct (convert_from_path X pdf_path) as [images | e].
  - rewrite (bind_Ok _ _ images H). cbn [outcome snd].
    destruct images as [| image rest]; [reflexivity |].
    rewrite (bind_Ok _ _ _ (process_pages_outcome X language (image :: rest) 0 [])).
    reflexivity.
  - rewrite (bind_Raise _ _ _ H). reflexivity.
Qed.

Lemma entries_length (X : External) (language : string) (images : list raster)
    (i : Z) :
  length (entries X language images i) = length images.
Proof.
  revert i. induction images as [| image rest IH]; intros i; cbn [entries length];
    [reflexivity | rewrite IH; reflexivity].
Qed.

Lemma entries_nth (X : External) (language : string) (images : list raster)
    (i : Z) (j : nat) (image : raster) :
  nth_error images j = Some image ->
  nth_error (entries X language images i) j
  = Some (page_entry (i + Z.of_nat j + 1) (ocr_text X language image)).
Proof.
  revert i j. induction images as [| image' rest IH]; intros i j.
  - destruct j; discriminate.
  - destruct j as [| j]; cbn [nth_error entries].
    + intros E. injection E as ->. do 3 f_equal. cbn [Z.of_nat]. lia.
    + intros E. rewrite (IH (i + 1) j E). do 3 f_equal. lia.
Qed.

Lemma numbered_from_cons (k : Z) (p : Page.t) (pages : list Page.t) :
  numbered_from k (p :: pages)
  <-> Page.page_number p = k + 1 /\ numbered_from (k + 1) pages.
Proof.
  unfold numbered_from. split.
  - intros H. split.
    + rewrite (H 0%nat p eq_refl). cbn [Z.of_nat]. lia.
    + intros i q Hq. rewrite (H (S i) q Hq). lia.
  - intros [Hp H] [| i] q; cbn [nth_error].
    + intros E. injection E as <-. cbn [Z.of_nat]. lia.
    + intros E. rewrite (H i q E). lia.
Qed.

Lemma entries_numbered (X : External) (language : string) (images : list raster)
    (i : Z) :
  numbered_from i (entries X language images i).
Proof.
  revert i. induction images as [| image rest IH]; intros i; cbn [entries].
  - intros [| j] p; discriminate.
  - apply numbered_from_cons. split; [reflexivity | apply IH].
Qed.

(** Every document that comes out of the extraction has [page_count]
    pages, numbered from 1. *)
Lemma extract_numbered (X : External)
    (pdf_path language doc_id original_filename : string) (document : Doc.t) :
  outcome (extract_text_from_pdf X pdf_path language doc_id original_filename)
    = Ok (Some document) ->
  numbered document.
Proof.
  rewrite extract_outcome.
  destruct (convert_from_path X pdf_path) as [[| image rest] | e];
    try discriminate.
  intros E. injection E as <-. unfold numbered. cbn [Doc.page_count Doc.pages].
  split.
  - cbn [length Z.of_nat]. rewrite entries_length. reflexivity.
  - apply (entries_numbered X language (image :: rest) 0).
Qed.

(** C4 (as amended): when the rasterization gives at least one image, the
    extraction gives a document with one entry per image, in the order of
    the images: entry [i] has page number [i + 1] and holds what
    [ocr_image] gave for image [i]; [page_count] is the number of entries;
    a page whose recognition gave nothing still has its entry, with an
    empty text and the status [ocr_failed].  When the rasterization gives
    no image, no document comes out. *)
Theorem one_entry_per_image (X : External)
    (pdf_path language doc_id original_filename : string) (images : list raster) :
  convert_from_path X pdf_path = Ok images ->
  (images <> [] ->
   exists document,
     outcome (extract_text_from_pdf X pdf_path language doc_id original_filename)
       = Ok (Some document)
     /\ Doc.page_count document = Z.of_nat (length (Doc.pages document))
     /\ length (Doc.pages document) = length images
     /\ (forall i p, nth_error (Doc.pages document) i = Some p ->
                     Page.page_number p = Z.of_nat i + 1)
     /\ (forall i image,
            nth_error images i = Some image ->
            nth_error (Doc.pages document) i
              = Some (page_entry (Z.of_nat i + 1) (ocr_text X language image))
            /\ (ocr_text X language image = None ->
                nth_error (Doc.pages document) i
                  = Some (Page.mk (Z.of_nat i + 1) "" "ocr_failed"))))
  /\ (images = [] ->
      outcome (extract_text_from_pdf X pdf_path language doc_id original_filename)
        = Ok None).
Proof.
  intros Hraster.
  pose proof (extract_outcome X pdf_path language doc_id original_filename) as E.
  rewrite Hraster in E.
  split; [| intros ->; exact E].
  intros Hne.
  destruct images as [| image rest]; [congruence |].
  eexists. split; [exact E |].
  cbn [Doc.page_count Doc.pages].
  split; [rewrite entries_length; reflexivity |].
  split; [apply entries_length |].
  split.
  - intros i p Hp.
    rewrite (entries_numbered X language (image :: rest) 0 i p Hp). lia.
  - intros i img Hi.
    assert (Hnth : nth_error (entries X language (image :: rest) 0) i
                   = Some (page_entry (Z.of_nat i + 1) (ocr_text X language img))).
    { rewrite (entries_nth X language (image :: rest) 0 i img Hi).
      do 3 f_equal. }
    split; [exact Hnth |].
    intros Hnone. rewrite Hnth, Hnone. reflexivity.
Qed.

Lemma one_entry_per_image_witness :
  exists document,
    outcome (extract_text_from_pdf five_page_engine "a.pdf" "eng" "d1" "a.pdf")
      = Ok (Some document)
    /\ Doc.page_count document = 5
    /\ nth_error (Doc.pages document) 2 = Some (Page.mk 3 "" "ocr_failed").
Proof.
  destruct (proj1 (one_entry_per_image five_page_engine "a.pdf" "eng" "d1" "a.pdf"
                     [sample_page; sample_page; mkImage 1 1 [(0, 0, 0)];
                      sample_page; sample_page] eq_refl) ltac:(discriminate))
    as (document & E & Hcount & Hlen & _ & Hnth).
  exists document. split; [exact E |].
  split; [rewrite Hcount, Hlen; reflexivity |].
  exact (proj1 (Hnth 2%nat (mkImage 1 1 [(0, 0, 0)]) eq_refl)).
Defined.

(** C4 (as stated) does not hold: when the rasterization succeeds with no
    image, no document comes out. *)
Lemma empty_rasterization_no_document :
  ~ one_page_per_image empty_pdf_engine "a.pdf" "eng" "d1" "a.pdf".
Proof.
  intros H. destruct (H [] eq_refl) as (document & E & _).
  vm_compute in E. discriminate.
Qed.

(** ** Failure of the re-recognition of one line *)

(** C1 (as amended): when the re-recognition of a cropped line fails, the
    exception is caught by the handler of the whole page: [ocr_image]
    hands back no text, and the page is recorded with an empty text and
    the status [ocr_failed]; the document is produced all the same, with
    one entry per image. *)
Theorem line_failure_fails_page (X : External) :
  (forall image lang,
      rerecognition_fails X image lang ->
      outcome (ocr_image X image lang) = Ok None)
  /\ (forall pdf_path language doc_id original_filename images i page,
         convert_from_path X pdf_path = Ok images ->
         nth_error images i = Some page ->
         rerecognition_fails X (preprocess_image X page) (or_auto language) ->
         exists document,
           outcome (extract_text_from_pdf X pdf_path language doc_id
                                          original_filename)
             = Ok (Some document)
           /\ length (Doc.pages document) = length images
           /\ nth_error (Doc.pages document) i
              = Some (Page.mk (Z.of_nat i + 1) "" "ocr_failed")).
Proof.
  assert (H : forall image lang,
             rerecognition_fails X image lang ->
             outcome (ocr_image X image lang) = Ok None).
  { intros image lang (b & msg & Hin & Hfail).
    rewrite ocr_image_trace in Hin.
    destruct (ocr_image_body_failure X image lang b msg Hin Hfail) as [msg' E].
    unfold ocr_image. apply (try_except_ret_Raise _ _ msg'). exact E. }
  split; [exact H |].
  intros pdf_path language doc_id original_filename images i page
         Hraster Hi Hfail.
  pose proof (extract_outcome X pdf_path language doc_id original_filename) as E.
  rewrite Hraster in E.
  destruct images as [| image rest]; [destruct i; discriminate |].
  eexists. split; [exact E |]. cbn [Doc.pages].
  split; [apply entries_length |].
  rewrite (entries_nth X language (image :: rest) 0 i page Hi).
  unfold ocr_text. rewrite (H _ _ Hfail). reflexivity.
Qed.

Lemma sample_rerecognition_fails :
  rerecognition_fails failing_line_engine sample_bitmap "mni+eng".
Proof.
  exists (0, 25, 200, 49), "TesseractError".
  split; [vm_compute; auto | reflexivity].
Defined.

Lemma sample_page_rerecognition_fails :
  rerecognition_fails failing_line_engine
    (preprocess_image failing_line_engine sample_sheet) (or_auto "mni+eng").
Proof.
  exists (0, 25, 200, 49), "TesseractError".
  split; [| reflexivity].
  rewrite ocr_image_trace. unfold ocr_image_body.
  cbn [get_languages failing_line_engine call bind fst snd app trace].
  right. unfold resolve_auto, or_auto.
  cbn [truthy String.eqb Ascii.eqb Bool.eqb bind ret fst snd app].
  unfold recognize.
  change (valid_langs "mni+eng" ["eng"; "mni"]) with ["mni"; "eng"].
  cbn [final_lang use_hybrid mem existsb String.eqb Ascii.eqb Bool.eqb orb andb
       image_to_data call bind fst snd app].
  right.
  change (group_lines sample_words [])
    with [ ((1, 1, 1),
            Line.mk ["the"; "court"; "of"; "imphal"] [3; 40; 90; 115]
                    [10; 10; 10; 10] [30; 45; 20; 60] [12; 12; 12; 12]);
           ((1, 1, 2),
            Line.mk ["xyzabc"; "qqrrss"] [2; 70] [30; 30] [60; 128] [14; 14]) ].
  change (sorted_keys _) with [(1, 1, 1); (1, 1, 2)].
  cbn [hybrid_lines lines_get key_eqb Z.eqb Pos.eqb andb].
  left. reflexivity.
Defined.

Lemma line_failure_fails_page_witness :
  outcome (ocr_image failing_line_engine sample_bitmap "mni+eng") = Ok None
  /\ exists document,
       outcome (extract_text_from_pdf failing_line_engine "a.pdf" "mni+eng"
                                      "d1" "a.pdf")
         = Ok (Some document)
       /\ length (Doc.pages document) = 2%nat
       /\ nth_error (Doc.pages document) 1 = Some (Page.mk 2 "" "ocr_failed").
Proof.
  split.
  - exact (proj1 (line_failure_fails_page failing_line_engine)
                 sample_bitmap "mni+eng" sample_rerecognition_fails).
  - exact (proj2 (line_failure_fails_page failing_line_engine)
                 "a.pdf" "mni+eng" "d1" "a.pdf" [sample_sheet; sample_sheet]
                 1%nat sample_sheet eq_refl eq_refl
                 sample_page_rerecognition_fails).
Defined.

(** C1 (as stated) does not hold: with a line that is not primary and an
    engine whose recognition in [mni] fails, no text comes back for the
    page. *)
Lemma line_failure_not_isolated :
  ~ line_failure_isolated failing_line_engine sample_bitmap "mni+eng".
Proof.
  intros H. destruct (H sample_rerecognition_fails) as [text Htext].
  vm_compute in Htext. discriminate.
Qed.

(** ** An engine without languages *)

Lemma ocr_image_no_language (X : External) (image : bitmap) (lang : string) :
  get_languages X = Ok [] -> outcome (ocr_image X image lang) = Ok None.
Proof.
  intros Hlangs. unfold ocr_image.
  apply (try_except_ret_Ok _ None None).
  unfold ocr_image_body. rewrite Hlangs.
  rewrite (bind_Ok (call ev_get_languages (Ok [])) _ [] eq_refl). cbn [outcome snd].
  destruct (resolve_auto_total X image lang) as (t & lang' & E & _).
  rewrite (bind_Ok _ _ lang' (f_equal snd E)). cbn [snd].
  unfold recognize. rewrite valid_langs_nil. reflexivity.
Qed.

Lemma entries_no_language (X : External) (language : string)
    (images : list raster) (i : Z) :
  get_languages X = Ok [] ->
  entries X language images i
  = map (fun j => Page.mk (i + Z.of_nat j + 1) "" "ocr_failed")
        (seq 0 (length images)).
Proof.
  intros Hlangs. revert i.
  induction images as [| image rest IH]; intros i; [reflexivity |].
  cbn [entries length seq map].
  unfold ocr_text at 1. rewrite (ocr_image_no_language X _ _ Hlangs).
  rewrite (IH (i + 1)), <- seq_shift, map_map.
  f_equal.
  - unfold page_entry. cbn [truthy Z.of_nat]. f_equal. lia.
  - apply map_ext. intros j. f_equal. lia.
Qed.

(** C2 (as amended): when the engine lists no language, the recognition of
    every page gives nothing, and the extraction of a document with at
    least one page image still gives a document: one entry per image,
    each with an empty text and the status [ocr_failed]. *)
Theorem no_language_fails_every_page (X : External)
    (pdf_path language doc_id original_filename : string) (images : list raster) :
  get_languages X = Ok [] ->
  convert_from_path X pdf_path = Ok images ->
  images <> [] ->
  (forall image lang, outcome (ocr_image X image lang) = Ok None)
  /\ outcome (extract_text_from_pdf X pdf_path language doc_id original_filename)
     = Ok (Some (Doc.mk doc_id original_filename language
                        (Z.of_nat (length images))
                        (failed_pages (length images)))).
Proof.
  intros Hlangs Hraster Hne.
  split; [intros image lang; apply ocr_image_no_language; exact Hlangs |].
  rewrite extract_outcome, Hraster.
  destruct images as [| image rest]; [congruence |].
  rewrite (entries_no_language X language (image :: rest) 0 Hlangs).
  reflexivity.
Qed.

Lemma no_language_fails_every_page_witness :
  outcome (extract_text_from_pdf no_language_engine "a.pdf" "eng" "d1" "a.pdf")
  = Ok (Some (Doc.mk "d1" "a.pdf" "eng" 2
                     [Page.mk 1 "" "ocr_failed"; Page.mk 2 "" "ocr_failed"])).
Proof.
  exact (proj2 (no_language_fails_every_page no_language_engine
                  "a.pdf" "eng" "d1" "a.pdf" [sample_page; sample_page]
                  eq_refl eq_refl ltac:(discriminate))).
Defined.

(** C2 (as stated) does not hold: with an engine that lists no language
    the extraction gives a document, with a status for each page. *)
Lemma no_language_not_fatal :
  ~ no_language_is_fatal no_language_engine "a.pdf" "eng" "d1" "a.pdf".
Proof.
  intros H.
  apply (H eq_refl
           (Doc.mk "d1" "a.pdf" "eng" 2
                   [Page.mk 1 "" "ocr_failed"; Page.mk 2 "" "ocr_failed"])).
  vm_compute. reflexivity.
Qed.

(** ** The page edit *)

Lemma edit_pages_out (k : Z) (pages : list Page.t) (n : Z) (new_text : string) :
  numbered_from k pages ->
  ~ (k + 1 <= n <= k + Z.of_nat (length pages)) ->
  edit_pages pages n new_text = (pages, false).
Proof.
  revert k. induction pages as [| p rest IH]; intros k Hnum Hout;
    [reflexivity |].
  apply numbered_from_cons in Hnum. destruct Hnum as [Hp Hrest].
  cbn [edit_pages length] in *. rewrite Nat2Z.inj_succ in Hout.
  destruct (Page.page_number p =? n) eqn:E; [apply Z.eqb_eq in E; lia |].
  rewrite (IH (k + 1) Hrest) by lia. reflexivity.
Qed.

Lemma edit_pages_in (k : Z) (pages : list Page.t) (n : Z) (new_text : string) :
  numbered_from k pages ->
  k + 1 <= n <= k + Z.of_nat (length pages) ->
  exists pages',
    edit_pages pages n new_text = (pages', true)
    /\ length pages' = length pages
    /\ forall i : nat,
         (k + Z.of_nat i + 1 = n ->
          nth_error pages' i = Some (Page.mk n new_text "edited"))
         /\ (k + Z.of_nat i + 1 <> n ->
             nth_error pages' i = nth_error pages i).
Proof.
  revert k. induction pages as [| p rest IH]; intros k Hnum Hin.
  - cbn [length Z.of_nat] in Hin. lia.
  - apply numbered_from_cons in Hnum. destruct Hnum as [Hp Hrest].
    cbn [edit_pages length] in *. rewrite Nat2Z.inj_succ in Hin.
    destruct (Page.page_number p =? n) eqn:E.
    + apply Z.eqb_eq in E. exists (set_page p new_text :: rest).
      split; [reflexivity |]. split; [reflexivity |].
      intros [| i]; cbn [nth_error]; split; intros H; try lia.
      * unfold set_page. rewrite E. reflexivity.
      * reflexivity.
    + apply Z.eqb_neq in E.
      destruct (IH (k + 1) Hrest) as (rest' & -> & Hlen & Hnth); [lia |].
      exists (p :: rest'). split; [reflexivity |].
      split; [cbn [length]; rewrite Hlen; reflexivity |].
      intros [| i]; cbn [nth_error]; split; intros H; try lia.
      * reflexivity.
      * apply (Hnth i). lia.
      * apply (Hnth i). lia.
Qed.

Lemma edit_pages_numbered (k : Z) (pages : list Page.t) (n : Z)
    (new_text : string) :
  numbered_from k pages ->
  numbered_from k (fst (edit_pages pages n new_text))
  /\ length (fst (edit_pages pages n new_text)) = length pages.
Proof.
  revert k. induction pages as [| p rest IH]; intros k Hnum.
  - split; [exact Hnum | reflexivity].
  - apply numbered_from_cons in Hnum. destruct Hnum as [Hp Hrest].
    cbn [edit_pages]. destruct (Page.page_number p =? n).
    + cbn [fst]. split; [| reflexivity].
      apply numbered_from_cons. split; assumption.
    + destruct (IH (k + 1) Hrest) as [Hnum' Hlen].
      destruct (edit_pages rest n new_text) as [rest' updated]. cbn [fst] in *.
      split; [| cbn [length]; rewrite Hlen; reflexivity].
      apply numbered_from_cons. split; assumption.
Qed.

Lemma db_get_In (db : database) (doc_id : string) (document : Doc.t) :
  db_get db doc_id = Some document ->
  In document db /\ Doc.id document = doc_id.
Proof.
  intros H. apply find_some in H. destruct H as [Hin E].
  split; [exact Hin | apply String.eqb_eq; exact E].
Qed.

Lemma db_get_update_same (db : database) (doc_id : string)
    (document after : Doc.t) :
  db_get db doc_id = Some document ->
  Doc.id after = doc_id ->
  db_get (db_update db after doc_id) doc_id = Some after.
Proof.
  unfold db_get, db_update. intros H Hid.
  induction db as [| d db IH]; [discriminate |].
  cbn [map find] in *. destruct (String.eqb (Doc.id d) doc_id) eqn:E.
  - rewrite Hid, String.eqb_refl. reflexivity.
  - rewrite E. apply IH. exact H.
Qed.

Lemma db_get_update_other (db : database) (doc_id other : string)
    (after : Doc.t) :
  Doc.id after = doc_id ->
  other <> doc_id ->
  db_get (db_update db after doc_id) other = db_get db other.
Proof.
  unfold db_get, db_update. intros Hid Hne.
  induction db as [| d db IH]; [reflexivity |].
  cbn [map find]. destruct (String.eqb (Doc.id d) doc_id) eqn:E.
  - apply String.eqb_eq in E.
    assert (E1 : String.eqb (Doc.id after) other = false)
      by (apply String.eqb_neq; congruence).
    assert (E2 : String.eqb (Doc.id d) other = false)
      by (apply String.eqb_neq; congruence).
    rewrite E1, E2. exact IH.
  - destruct (String.eqb (Doc.id d) other); [reflexivity | exact IH].
Qed.

(** Every stored document has [page_count] pages, numbered from 1. *)
Lemma reachable_numbered (db : database) :
  reachable db -> Forall numbered db.
Proof.
  induction 1 as [| db X pdf_path lang doc_id filename document _ IH E
                  | db doc_id n new_text _ IH
                  | db doc_id _ IH].
  - constructor.
  - unfold db_insert. apply Forall_app. split; [exact IH |].
    constructor; [| constructor]. exact (extract_numbered _ _ _ _ _ _ E).
  - unfold edit_page_text.
    destruct (db_get db doc_id) as [document |] eqn:Hget; [| exact IH].
    destruct (db_get_In _ _ _ Hget) as [Hin _].
    rewrite Forall_forall in IH. pose proof (IH _ Hin) as [Hcount Hnum].
    destruct (edit_pages_numbered 0 (Doc.pages document) n new_text Hnum)
      as [Hnum' Hlen].
    destruct (edit_pages (Doc.pages document) n new_text) as [pages updated].
    cbn [fst] in *.
    destruct updated; cbn [negb snd]; [| rewrite Forall_forall; exact IH].
    unfold db_update. rewrite Forall_forall. intros d Hd.
    apply in_map_iff in Hd. destruct Hd as (d0 & <- & Hd0).
    destruct (String.eqb (Doc.id d0) doc_id); [| exact (IH _ Hd0)].
    unfold numbered, set_pages. cbn [Doc.page_count Doc.pages].
    split; [rewrite Hlen; exact Hcount | exact Hnum'].
  - unfold db_remove. rewrite Forall_forall in *. intros d Hd.
    apply filter_In in Hd. apply IH. exact (proj1 Hd).
Qed.

(** C9: for a stored document, the edit of page [n] with [1 <= n <=
    page_count] answers that the text is updated and stores the document
    with the new text and the status [edited] at page [n], every other
    page and every other field as before, and the documents of other
    identifiers as before; for every other [n] it answers [PageNotFound]
    and the store is as before. *)
Theorem edit_page_text_frame (db : database) (doc_id : string)
    (document : Doc.t) (n : Z) (new_text : string) :
  reachable db ->
  db_get db doc_id = Some document ->
  (1 <= n <= Doc.page_count document ->
   exists after,
     edit_page_text db doc_id n new_text
       = (inr ("Text updated", doc_id, n), db_update db after doc_id)
     /\ db_get (db_update db after doc_id) doc_id = Some after
     /\ edited_at document after n new_text
     /\ (forall other, other <> doc_id ->
                       db_get (db_update db after doc_id) other = db_get db other))
  /\ (~ (1 <= n <= Doc.page_count document) ->
      edit_page_text db doc_id n new_text = (inl PageNotFound, db)).
Proof.
  intros Hreach Hget.
  destruct (db_get_In _ _ _ Hget) as [Hin Hid].
  pose proof (reachable_numbered db Hreach) as Hall.
  rewrite Forall_forall in Hall. destruct (Hall _ Hin) as [Hcount Hnum].
  unfold edit_page_text. rewrite Hget. split.
  - intros Hrange.
    destruct (edit_pages_in 0 (Doc.pages document) n new_text Hnum)
      as (pages' & -> & Hlen & Hnth); [lia |].
    cbn [negb]. exists (set_pages document pages').
    split; [reflexivity |].
    split; [apply (db_get_update_same db doc_id document); [exact Hget | exact Hid] |].
    split.
    + unfold edited_at, set_pages.
      cbn [Doc.id Doc.source_file Doc.language Doc.page_count Doc.pages].
      repeat (split; [reflexivity |]). split; [exact Hlen |].
      intros i. destruct (Hnth i) as [H1 H2].
      split; intros H; [apply H1 | apply H2]; lia.
    + intros other Hne. apply db_get_update_other; [exact Hid | exact Hne].
  - intros Hout.
    rewrite (edit_pages_out 0 (Doc.pages document) n new_text Hnum) by lia.
    reflexivity.
Qed.

Lemma five_pages_stored : reachable [five_pages].
Proof.
  exact (reach_upload [] five_page_engine "a.pdf" "eng" "d1" "a.pdf" five_pages
                      reach_empty eq_refl).
Defined.

Lemma edit_page_text_frame_witness :
  (exists after,
      edit_page_text [five_pages] "d1" 3 "new"
        = (inr ("Text updated", "d1", 3), db_update [five_pages] after "d1")
      /\ db_get (db_update [five_pages] after "d1") "d1" = Some after
      /\ edited_at five_pages after 3 "new"
      /\ (forall other, other <> "d1" ->
                        db_get (db_update [five_pages] after "d1") other
                        = db_get [five_pages] other))
  /\ edit_page_text [five_pages] "d1" 6 "new" = (inl PageNotFound, [five_pages]).
Proof.
  split.
  - apply (proj1 (edit_page_text_frame [five_pages] "d1" five_pages 3 "new"
                    five_pages_stored eq_refl)).
    cbn [Doc.page_count five_pages]. lia.
  - apply (proj2 (edit_page_text_frame [five_pages] "d1" five_pages 6 "new"
                    five_pages_stored eq_refl)).
    cbn [Doc.page_count five_pages]. lia.
Defined.

(** * Further properties of the code *)

(** ** Keys of lines *)

Lemma key_eqb_eq (a b : key) : key_eqb a b = true <-> a = b.
Proof.
  destruct a as [[a1 a2] a3], b as [[b1 b2] b3]. unfold key_eqb.
  rewrite !andb_true_iff, !Z.eqb_eq. split.
  - intros [[-> ->] ->]. reflexivity.
  - intros E. injection E as -> -> ->. auto.
Qed.

Lemma key_eqb_refl (a : key) : key_eqb a a = true.
Proof. apply key_eqb_eq. reflexivity. Qed.

Lemma key_eqb_neq (a b : key) : key_eqb a b = false <-> a <> b.
Proof.
  rewrite <- key_eqb_eq. destruct (key_eqb a b); split; congruence.
Qed.

Lemma key_leb_le (a b : key) :
  key_leb a b = true
  <-> (fst (fst a) < fst (fst b)
       \/ (fst (fst a) = fst (fst b)
           /\ (snd (fst a) < snd (fst b)
               \/ (snd (fst a) = snd (fst b) /\ snd a <= snd b)))).
Proof.
  destruct a as [[a1 a2] a3], b as [[b1 b2] b3]. unfold key_leb. cbn [fst snd].
  rewrite !orb_true_iff, !andb_true_iff, !orb_true_iff, !andb_true_iff.
  rewrite !Z.ltb_lt, !Z.eqb_eq, Z.leb_le. reflexivity.
Qed.

Lemma key_leb_total (a b : key) : key_leb a b = false -> key_le b a.
Proof.
  intros H. unfold key_le. apply key_leb_le.
  assert (Hn : ~ (key_leb a b = true)) by congruence.
  rewrite key_leb_le in Hn. lia.
Qed.

Lemma key_le_trans (a b c : key) : key_le a b -> key_le b c -> key_le a c.
Proof. unfold key_le. rewrite !key_leb_le. lia. Qed.

Lemma key_le_antisym (a b : key) : key_le a b -> key_le b a -> a = b.
Proof.
  unfold key_le. rewrite !key_leb_le.
  destruct a as [[a1 a2] a3], b as [[b1 b2] b3]. cbn [fst snd].
  intros H1 H2. repeat f_equal; lia.
Qed.

Lemma insert_key_perm (k : key) (l : list key) :
  Permutation (k :: l) (insert_key k l).
Proof.
  induction l as [| k' l IH]; cbn [insert_key]; [reflexivity |].
  destruct (key_leb k k'); [reflexivity |].
  rewrite perm_swap. apply perm_skip. exact IH.
Qed.

Lemma insert_key_sorted (k : key) (l : list key) :
  Sorted key_le l -> Sorted key_le (insert_key k l).
Proof.
  induction 1 as [| k' l Hl IH Hhd]; cbn [insert_key].
  - repeat constructor.
  - destruct (key_leb k k') eqn:E.
    + constructor; [constructor; assumption | constructor; exact E].
    + constructor; [exact IH |].
      apply key_leb_total in E.
      destruct l as [| k'' l]; cbn [insert_key].
      * constructor; exact E.
      * inversion Hhd; subst.
        destruct (key_leb k k''); constructor; assumption.
Qed.

Lemma sorted_keys_perm (lines : lines_dict) :
  Permutation (map fst lines) (sorted_keys lines).
Proof.
  unfold sorted_keys. induction (map fst lines) as [| k l IH]; [reflexivity |].
  cbn [fold_right]. rewrite <- insert_key_perm. apply perm_skip. exact IH.
Qed.

Lemma sorted_keys_sorted (lines : lines_dict) :
  Sorted key_le (sorted_keys lines).
Proof.
  unfold sorted_keys. induction (map fst lines) as [| k l IH]; [constructor |].
  cbn [fold_right]. apply insert_key_sorted. exact IH.
Qed.

(** ** The grouping of words by line *)

Lemma lines_get_append (lines : lines_dict) (k' : key) (w : word) (k : key) :
  lines_get (lines_append lines k' w) k
  = if key_eqb k k'
    then Some (line_append (match lines_get lines k' with
                            | Some l => l
                            | None => empty_line
                            end) w)
    else lines_get lines k.
Proof.
  induction lines as [| [k0 l0] rest IH]; cbn [lines_append lines_get].
  - reflexivity.
  - destruct (key_eqb k' k0) eqn:E0; cbn [lines_get].
    + apply key_eqb_eq in E0. subst k0.
      destruct (key_eqb k k'); reflexivity.
    + rewrite IH. destruct (key_eqb k k') eqn:E.
      * apply key_eqb_eq in E. subst k'. rewrite E0. reflexivity.
      * reflexivity.
Qed.

Lemma lines_append_keys (lines : lines_dict) (k : key) (w : word) :
  map fst (lines_append lines k w)
  = if existsb (key_eqb k) (map fst lines) then map fst lines
    else (map fst lines ++ [k])%list.
Proof.
  induction lines as [| [k0 l0] rest IH]; cbn [lines_append map existsb fst app].
  - reflexivity.
  - destruct (key_eqb k k0); cbn [orb map fst]; [reflexivity |].
    rewrite IH. destruct (existsb (key_eqb k) (map fst rest)); reflexivity.
Qed.

Lemma lines_append_NoDup (lines : lines_dict) (k : key) (w : word) :
  NoDup (map fst lines) -> NoDup (map fst (lines_append lines k w)).
Proof.
  intros H. rewrite lines_append_keys.
  destruct (existsb (key_eqb k) (map fst lines)) eqn:E; [exact H |].
  apply NoDup_app; [exact H | repeat constructor; intros [] |].
  intros x Hx [Ex | []]. subst x.
  assert (Et : existsb (key_eqb k) (map fst lines) = true).
  { apply existsb_exists. exists k. split; [exact Hx | apply key_eqb_refl]. }
  congruence.
Qed.

Lemma group_lines_NoDup (data : list word) (lines : lines_dict) :
  NoDup (map fst lines) -> NoDup (map fst (group_lines data lines)).
Proof.
  revert lines. induction data as [| w rest IH]; intros lines H;
    cbn [group_lines]; [exact H |].
  destruct (w_conf w =? -1); apply IH; [exact H |].
  apply lines_append_NoDup. exact H.
Qed.

Lemma fold_line_append (ws : list word) (l : Line.t) :
  fold_left line_append ws l
  = Line.mk (Line.text l ++ map w_text ws) (Line.left l ++ map w_left ws)
            (Line.top l ++ map w_top ws) (Line.width l ++ map w_width ws)
            (Line.height l ++ map w_height ws).
Proof.
  revert l. induction ws as [| w ws IH]; intros l; cbn [fold_left map].
  - rewrite !app_nil_r. destruct l; reflexivity.
  - rewrite IH. unfold line_append.
    cbn [Line.text Line.left Line.top Line.width Line.height].
    rewrite <- !app_assoc. reflexivity.
Qed.

Lemma group_lines_get (data : list word) (lines : lines_dict) (k : key) :
  lines_get (group_lines data lines) k
  = match words_of_line data k with
    | [] => lines_get lines k
    | ws => Some (fold_left line_append ws
                            (match lines_get lines k with
                             | Some l => l
                             | None => empty_line
                             end))
    end.
Proof.
  revert lines. induction data as [| w rest IH]; intros lines;
    cbn [group_lines]; [reflexivity |].
  unfold words_of_line. cbn [filter]. fold (words_of_line rest k).
  destruct (w_conf w =? -1); cbn [negb andb]; [apply IH |].
  rewrite IH, lines_get_append.
  destruct (key_eqb k (key_of w)) eqn:E.
  - apply key_eqb_eq in E. subst k.
    destruct (words_of_line rest (key_of w)); reflexivity.
  - reflexivity.
Qed.

Lemma group_lines_line (data : list word) (k : key) :
  lines_get (group_lines data []) k
  = match words_of_line data k with
    | [] => None
    | ws => Some (line_of_words ws)
    end.
Proof.
  rewrite group_lines_get. cbn [lines_get].
  destruct (words_of_line data k) as [| w ws]; [reflexivity |].
  rewrite fold_line_append. reflexivity.
Qed.

Lemma lines_get_key (lines : lines_dict) (k : key) :
  In k (map fst lines) <-> lines_get lines k <> None.
Proof.
  induction lines as [| [k0 l0] rest IH]; cbn [map fst In lines_get].
  - split; [intros [] | congruence].
  - destruct (key_eqb k k0) eqn:E.
    + apply key_eqb_eq in E. split; [discriminate | auto].
    + apply key_eqb_neq in E. rewrite <- IH.
      split; [intros [H | H]; [congruence | exact H] | auto].
Qed.

Lemma words_of_line_nonempty (data : list word) (k : key) :
  words_of_line data k <> []
  <-> exists w, In w data /\ w_conf w <> -1 /\ key_of w = k.
Proof.
  split.
  - intros H. destruct (words_of_line data k) as [| w ws] eqn:E; [congruence |].
    assert (Hw : In w (words_of_line data k)) by (rewrite E; left; reflexivity).
    apply filter_In in Hw. destruct Hw as [Hw Hc].
    apply andb_true_iff in Hc. destruct Hc as [Hc Hk].
    exists w. split; [exact Hw |]. split.
    + apply negb_true_iff, Z.eqb_neq in Hc. exact Hc.
    + apply key_eqb_eq in Hk. congruence.
  - intros (w & Hw & Hc & Hk).
    assert (Hf : In w (words_of_line data k)).
    { apply filter_In. split; [exact Hw |].
      apply andb_true_iff. split.
      - apply negb_true_iff, Z.eqb_neq. exact Hc.
      - apply key_eqb_eq. congruence. }
    destruct (words_of_line data k); [destruct Hf | discriminate].
Qed.

Lemma group_lines_key (data : list word) (k : key) :
  In k (map fst (group_lines data []))
  <-> exists w, In w data /\ w_conf w <> -1 /\ key_of w = k.
Proof.
  rewrite lines_get_key, group_lines_line, <- words_of_line_nonempty.
  destruct (words_of_line data k); split; congruence.
Qed.

(** X1: the grouping of the layout pass puts under each key exactly the
    words of that key whose confidence is not -1, in the order of the
    engine's answer; a key without such a word has no line; no key occurs
    twice. *)
Theorem group_lines_words (data : list word) (k : key) :
  lines_get (group_lines data []) k
  = match words_of_line data k with
    | [] => None
    | ws => Some (line_of_words ws)
    end
  /\ NoDup (map fst (group_lines data []))
  /\ (In k (map fst (group_lines data []))
      <-> exists w, In w data /\ w_conf w <> -1 /\ key_of w = k).
Proof.
  split; [apply group_lines_line |].
  split; [apply group_lines_NoDup; constructor | apply group_lines_key].
Qed.

(** X2: the hybrid path visits the lines in ascending order of (block,
    paragraph, line), each line once: the list of keys it walks is sorted,
    is a rearrangement of the keys of the dictionary, and has no key
    twice. *)
Theorem sorted_keys_ascending (data : list word) :
  StronglySorted key_le (sorted_keys (group_lines data []))
  /\ Permutation (map fst (group_lines data [])) (sorted_keys (group_lines data []))
  /\ NoDup (sorted_keys (group_lines data []))
  /\ (forall k, In k (sorted_keys (group_lines data []))
                <-> exists w, In w data /\ w_conf w <> -1 /\ key_of w = k).
Proof.
  split.
  { apply Sorted_StronglySorted; [| apply sorted_keys_sorted].
    intros a b c. apply key_le_trans. }
  split; [apply sorted_keys_perm |].
  split.
  { apply (Permutation_NoDup (sorted_keys_perm _)).
    apply group_lines_NoDup. constructor. }
  intros k. rewrite <- group_lines_key.
  split; apply Permutation_in; [symmetry |]; apply sorted_keys_perm.
Qed.

(** ** The hybrid path *)

Lemma str_app_assoc (a b c : string) : (a ++ b) ++ c = a ++ (b ++ c).
Proof. induction a as [| x a IH]; cbn [append]; [reflexivity | rewrite IH; reflexivity]. Qed.

Lemma str_app_nil_r (a : string) : a ++ "" = a.
Proof. induction a as [| x a IH]; cbn [append]; [reflexivity | rewrite IH; reflexivity]. Qed.

Lemma use_hybrid_iff (lang : string) (available : list string) :
  use_hybrid (valid_langs lang available) = true
  <-> In "mni" (requested_langs lang) /\ In "eng" (requested_langs lang)
      /\ In "mni" available /\ In "eng" available.
Proof.
  unfold use_hybrid, valid_langs.
  rewrite andb_true_iff, !mem_In, !filter_In, !mem_In. tauto.
Qed.

(** The loop over the lines adds the entries of the lines, as long as
    they are there. *)
Lemma hybrid_lines_entries X image lines keys text :
  (forall k, In k keys ->
             exists l_data e, lines_get lines k = Some l_data
                              /\ line_entry X image l_data = Ok e) ->
  outcome (hybrid_lines X image lines keys text)
  = Ok (text ++ entries_text X image lines keys).
Proof.
  revert text. induction keys as [| k rest IH]; intros text Hall.
  - cbn [hybrid_lines entries_text outcome ret snd]. rewrite str_app_nil_r.
    reflexivity.
  - assert (Hrest : forall k', In k' rest ->
                      exists l_data e, lines_get lines k' = Some l_data
                                       /\ line_entry X image l_data = Ok e)
      by (intros k' Hk'; apply Hall; right; exact Hk').
    destruct (Hall k (or_introl eq_refl)) as (l & e & Hget & He).
    cbn [entries_text]. rewrite Hget, He. revert He. unfold line_entry.
    hybrid_turn X image lines k rest text; try discriminate;
      injection Hget as <-; rewrite ?Eempty, ?Eeng.
    + intros [= <-]. apply IH. exact Hrest.
    + intros [= <-]. rewrite (IH _ Hrest), !str_app_assoc. reflexivity.
    + rewrite Ebox. cbn [outcome snd]. rewrite Ecrop.
      destruct (image_to_string X (crop X image b) "mni") as [t | msg];
        [| discriminate].
      intros [= <-]. cbn [outcome snd].
      rewrite (IH _ Hrest), !str_app_assoc. reflexivity.
    + rewrite Ebox. cbn [outcome snd]. rewrite Ecrop. discriminate.
    + rewrite Ebox. cbn [outcome snd]. discriminate.
Qed.

(** X3: for an explicit request and an engine that answers the capability
    query, the layout pass in [eng] is run exactly when [mni] and [eng] are
    both requested and both installed, whatever their order and whatever
    else is requested; it then follows the capability query at once. *)
Theorem hybrid_condition (X : External) (image : bitmap) (lang : string)
    (available : list string) :
  lang <> "auto" ->
  get_languages X = Ok available ->
  (In (ev_image_to_data image "eng") (trace (ocr_image X image lang))
   <-> In "mni" (requested_langs lang) /\ In "eng" (requested_langs lang)
       /\ In "mni" available /\ In "eng" available)
  /\ (In (ev_image_to_data image "eng") (trace (ocr_image X image lang)) ->
      exists rest,
        trace (ocr_image X image lang)
        = ev_get_languages :: ev_image_to_data image "eng" :: rest).
Proof.
  intros Hauto Hlangs. rewrite <- use_hybrid_iff.
  rewrite ocr_image_trace, (ocr_image_body_explicit X image lang Hauto), Hlangs.
  cbn [trace fst].
  destruct (use_hybrid (valid_langs lang available)) eqn:Hh.
  - assert (Hrest : exists rest,
               trace (recognize X image available lang)
               = ev_image_to_data image "eng" :: rest).
    { unfold recognize. rewrite (use_hybrid_final _ _ Hh), Hh.
      destruct (bind_cases (call (ev_image_to_data image "eng")
                                 (image_to_data X image "eng"))
                  (fun data =>
                     match data with
                     | Some data0 =>
                         bind (hybrid_lines X image (group_lines data0 [])
                                 (sorted_keys (group_lines data0 [])) "")
                              (fun final_text => ret (Some final_text))
                     | None =>
                         bind (call (ev_image_to_string image
                                       (join "+" (valid_langs lang available)))
                                 (image_to_string X image
                                    (join "+" (valid_langs lang available))))
                              (fun text => ret (Some text))
                     end))
        as [(a & _ & ->) | (msg & _ & ->)]; cbn [trace call fst app];
        eexists; reflexivity. }
    destruct Hrest as [rest ->].
    split; [split; [reflexivity | intros _; right; left; reflexivity] |].
    intros _. eexists; reflexivity.
  - rewrite (recognize_single X image available lang Hh).
    assert (Hno : ~ In (ev_image_to_data image "eng")
                       (ev_get_languages
                          :: trace (match final_lang (valid_langs lang available)
                                                     available with
                                    | Some final =>
                                        ([ev_image_to_string image final],
                                         match image_to_string X image final with
                                         | Ok text => Ok (Some text)
                                         | Raise msg => Raise msg
                                         end)
                                    | None => ([], Ok None)
                                    end))).
    { destruct (final_lang (valid_langs lang available) available);
        cbn [trace fst]; intros [H | H]; try discriminate;
        [destruct H as [H | []]; discriminate | destruct H]. }
    split; [split; [intros H; destruct (Hno H) | discriminate] |].
    intros H. destruct (Hno H).
Qed.

Lemma hybrid_condition_witness :
  In (ev_image_to_data sample_bitmap "eng")
     (trace (ocr_image hybrid_engine sample_bitmap "eng+xx+mni"))
  /\ ~ In (ev_image_to_data sample_bitmap "eng")
          (trace (ocr_image hybrid_engine sample_bitmap "mni")).
Proof.
  destruct (hybrid_condition hybrid_engine sample_bitmap "eng+xx+mni"
              ["eng"; "mni"] ltac:(discriminate) eq_refl) as [H1 _].
  destruct (hybrid_condition hybrid_engine sample_bitmap "mni"
              ["eng"; "mni"] ltac:(discriminate) eq_refl) as [H2 _].
  split.
  - apply H1. cbv [requested_langs]. cbn. tauto.
  - intros H. apply H2 in H. destruct H as (_ & [H | []] & _). discriminate.
Defined.

(** The loop over the lines ends with an exception as soon as the entry of
    one of its lines is not there. *)
Lemma hybrid_lines_raises X image lines keys text k l msg :
  In k keys ->
  lines_get lines k = Some l ->
  line_entry X image l = Raise msg ->
  exists msg', outcome (hybrid_lines X image lines keys text) = Raise msg'.
Proof.
  intros Hin Hget Hentry. revert text Hin.
  induction keys as [| k0 rest IH]; intros text Hin; [destruct Hin |].
  assert (Hhead : k0 = k -> lines_get lines k0 = Some l)
    by (intros ->; exact Hget).
  assert (Htail : k0 <> k -> In k rest)
    by (intros Hne; destruct Hin as [E | Hin]; [congruence | exact Hin]).
  clear Hin.
  assert (Hdec : k0 = k \/ k0 <> k).
  { destruct (key_eqb k0 k) eqn:E.
    - left. apply key_eqb_eq. exact E.
    - right. intros ->. rewrite key_eqb_refl in E. discriminate. }
  unfold line_entry in Hentry.
  hybrid_turn X image lines k0 rest text.
  - destruct Hdec as [E | Hne]; [| apply IH; auto].
    specialize (Hhead E). injection Hhead as <-.
    rewrite Eempty in Hentry. discriminate.
  - destruct Hdec as [E | Hne]; [| apply IH; auto].
    specialize (Hhead E). injection Hhead as <-.
    rewrite Eempty, Eeng in Hentry. discriminate.
  - destruct (image_to_string X (crop X image b) "mni") as [t | msg0] eqn:Es;
      cbn [outcome snd]; [| eexists; reflexivity].
    destruct Hdec as [E | Hne]; [| apply IH; auto].
    specialize (Hhead E). injection Hhead as <-.
    rewrite Eempty, Eeng, Ebox in Hentry. cbn [outcome snd] in Hentry.
    rewrite Ecrop, Es in Hentry. discriminate.
  - eexists; reflexivity.
  - eexists; reflexivity.
  - eexists; reflexivity.
Qed.

(** X4: on the hybrid path, when the crop rectangle of every line is
    defined and accepted by the imaging library and every recognition in
    [mni] answers, the text of the page is the concatenation, in ascending
    order of the keys of the lines, of one entry per line: nothing for a
    blank line, the text of the layout pass and a newline for a primary
    line, the stripped answer of the recognition in [mni] and a newline for
    any other line.  When the entry of some line is not there (its crop is
    refused, as for a word reported outside the page, or its recognition
    fails), no text comes back for the page. *)
Theorem hybrid_text (X : External) (image : bitmap) (lang : string)
    (available : list string) (data : list word) :
  lang <> "auto" ->
  get_languages X = Ok available ->
  use_hybrid (valid_langs lang available) = true ->
  image_to_data X image "eng" = Ok (Some data) ->
  (entries_defined X image (group_lines data []) ->
   outcome (ocr_image X image lang)
   = Ok (Some (entries_text X image (group_lines data [])
                            (sorted_keys (group_lines data [])))))
  /\ (forall k l_data msg,
         lines_get (group_lines data []) k = Some l_data ->
         line_entry X image l_data = Raise msg ->
         outcome (ocr_image X image lang) = Ok None).
Proof.
  intros Hauto Hlangs Hh Hd.
  rewrite (ocr_image_hybrid X image available lang data Hauto Hlangs Hh Hd).
  cbn [outcome snd]. split.
  - intros Hdef.
    rewrite (hybrid_lines_entries X image (group_lines data [])
               (sorted_keys (group_lines data [])) "").
    + reflexivity.
    + intros k Hk.
      apply (Permutation_in _ (Permutation_sym (sorted_keys_perm _))) in Hk.
      apply lines_get_key in Hk.
      destruct (lines_get (group_lines data []) k) as [l |] eqn:E; [| congruence].
      destruct (Hdef k l E) as [e He]. eauto.
  - intros k l msg Hget Hentry.
    assert (Hk : In k (sorted_keys (group_lines data []))).
    { apply (Permutation_in _ (sorted_keys_perm _)).
      apply lines_get_key. rewrite Hget. discriminate. }
    destruct (hybrid_lines_raises X image (group_lines data [])
                (sorted_keys (group_lines data [])) "" k l msg Hk Hget Hentry)
      as [msg' ->].
    reflexivity.
Qed.

Lemma sample_lines :
  group_lines sample_words []
  = [ ((1, 1, 1),
       Line.mk ["the"; "court"; "of"; "imphal"] [3; 40; 90; 115] [10; 10; 10; 10]
               [30; 45; 20; 60] [12; 12; 12; 12]);
      ((1, 1, 2),
       Line.mk ["xyzabc"; "qqrrss"] [2; 70] [30; 30] [60; 128] [14; 14]) ].
Proof. reflexivity. Qed.

Lemma sample_entries_defined :
  entries_defined hybrid_engine sample_bitmap (group_lines sample_words []).
Proof.
  intros k l. rewrite sample_lines. cbn [lines_get].
  destruct (key_eqb k (1, 1, 1)); [intros [= <-]; eexists; reflexivity |].
  destruct (key_eqb k (1, 1, 2)); [intros [= <-]; eexists; reflexivity |].
  discriminate.
Defined.

Lemma hybrid_text_witness :
  outcome (ocr_image hybrid_engine sample_bitmap "mni+eng")
  = Ok (Some ("the court of imphal" ++ newline ++ "line two" ++ newline))
  /\ outcome (crop_box sample_bitmap (Line.mk ["xyzabc"] [300] [30] [60] [14]))
     = Ok (295, 25, 200, 49)
  /\ outcome (ocr_image outside_word_engine sample_bitmap "mni+eng") = Ok None.
Proof.
  split; [| split].
  - exact (proj1 (hybrid_text hybrid_engine sample_bitmap "mni+eng"
                    ["eng"; "mni"] sample_words ltac:(discriminate)
                    eq_refl eq_refl eq_refl)
                 sample_entries_defined).
  - reflexivity.
  - exact (proj2 (hybrid_text outside_word_engine sample_bitmap "mni+eng"
                    ["eng"; "mni"] [mkWord "xyzabc" 40 1 1 1 300 30 60 14]
                    ltac:(discriminate) eq_refl eq_refl eq_refl)
                 (1, 1, 1) (Line.mk ["xyzabc"] [300] [30] [60] [14])
                 "Coordinate 'right' is less than 'left'" eq_refl eq_refl).
Defined.

Lemma hybrid_lines_crop_count X image lines keys text :
  (length (filter is_crop (trace (hybrid_lines X image lines keys text)))
   <= length keys)%nat.
Proof.
  revert text. induction keys as [| k rest IH]; intros text.
  - cbn. lia.
  - cbn [length].
    hybrid_turn X image lines k rest text;
      try (specialize (IH text); lia);
      try (cbn; lia).
    + specialize (IH (text ++ line_text l_data ++ newline)). lia.
    + destruct (image_to_string X (crop X image b) "mni") as [t | msg];
        cbn [trace fst filter is_crop length].
      * specialize (IH (text ++ strip t ++ newline)). lia.
      * lia.
Qed.

(** X5: on the hybrid path with an answer of the layout pass, the calls
    after the capability query are the layout pass in [eng], crops of the
    page and recognitions of those crops in [mni] only: no recognition is
    asked in the joined language; and there is at most one crop per line
    of the grouping. *)
Theorem hybrid_calls (X : External) (image : bitmap) (lang : string)
    (available : list string) (data : list word) :
  lang <> "auto" ->
  get_languages X = Ok available ->
  use_hybrid (valid_langs lang available) = true ->
  image_to_data X image "eng" = Ok (Some data) ->
  (forall e, In e (trace (ocr_image X image lang)) ->
             e = ev_get_languages \/ hybrid_event X image e)
  /\ (forall im l, In (ev_image_to_string im l) (trace (ocr_image X image lang)) ->
                   l = "mni" /\ exists b, im = crop X image b)
  /\ (length (filter is_crop (trace (ocr_image X image lang)))
      <= length (group_lines data []))%nat.
Proof.
  intros Hauto Hlangs Hh Hd.
  rewrite (ocr_image_hybrid X image available lang data Hauto Hlangs Hh Hd).
  cbn [trace fst].
  pose proof (hybrid_lines_events X image (group_lines data [])
                (sorted_keys (group_lines data [])) "") as Hev.
  rewrite Forall_forall in Hev.
  assert (H1 : forall e,
             In e (ev_get_languages :: ev_image_to_data image "eng"
                     :: trace (hybrid_lines X image (group_lines data [])
                                 (sorted_keys (group_lines data [])) "")) ->
             e = ev_get_languages \/ hybrid_event X image e).
  { intros e [<- | [<- | He]]; [left; reflexivity | right; left; reflexivity |].
    right. apply Hev. exact He. }
  split; [exact H1 |]. split.
  - intros im l Hin.
    destruct (H1 _ Hin) as [E | [E | [[b E] | [b E]]]]; try discriminate.
    injection E as -> ->. split; [reflexivity | eexists; reflexivity].
  - cbn [filter is_crop].
    pose proof (hybrid_lines_crop_count X image (group_lines data [])
                  (sorted_keys (group_lines data [])) "") as Hc.
    rewrite <- (Permutation_length (sorted_keys_perm (group_lines data []))) in Hc.
    rewrite length_map in Hc. exact Hc.
Qed.

Lemma hybrid_calls_witness :
  trace (ocr_image hybrid_engine sample_bitmap "mni+eng")
  = [ev_get_languages; ev_image_to_data sample_bitmap "eng";
     ev_crop sample_bitmap (0, 25, 200, 49);
     ev_image_to_string (crop hybrid_engine sample_bitmap (0, 25, 200, 49)) "mni"]
  /\ (length (filter is_crop (trace (ocr_image hybrid_engine sample_bitmap
                                       "mni+eng")))
      <= length (group_lines sample_words []))%nat.
Proof.
  split; [reflexivity |].
  exact (proj2 (proj2 (hybrid_calls hybrid_engine sample_bitmap "mni+eng"
                         ["eng"; "mni"] sample_words ltac:(discriminate)
                         eq_refl eq_refl eq_refl))).
Defined.

Lemma hybrid_lines_blank X image lines keys text :
  (forall k l_data, lines_get lines k = Some l_data ->
                    is_empty (line_text l_data) = true) ->
  (forall k, In k keys -> lines_get lines k <> None) ->
  hybrid_lines X image lines keys text = ([], Ok text).
Proof.
  intros Hblank. induction keys as [| k rest IH]; intros Hkeys; [reflexivity |].
  assert (Hrest : forall k', In k' rest -> lines_get lines k' <> None)
    by (intros k' Hk'; apply Hkeys; right; exact Hk').
  pose proof (Hkeys k (or_introl eq_refl)) as Hk.
  destruct (lines_get lines k) as [l |] eqn:E; [| congruence].
  rewrite (hybrid_lines_skip X image lines k rest text l E (Hblank k l E)).
  apply IH. exact Hrest.
Qed.

(** X6: on the hybrid path, when the layout pass finds no line with text
    (every line of the grouping is blank, or there is no line at all),
    [ocr_image] hands back the empty string after the layout pass, without
    any further recognition, and the page is recorded with the status
    [ocr_failed] although no call failed. *)
Theorem blank_layout_page (X : External) (image : bitmap) (lang : string)
    (available : list string) (data : list word) :
  lang <> "auto" ->
  get_languages X = Ok available ->
  use_hybrid (valid_langs lang available) = true ->
  image_to_data X image "eng" = Ok (Some data) ->
  (forall k l_data, lines_get (group_lines data []) k = Some l_data ->
                    is_empty (line_text l_data) = true) ->
  ocr_image X image lang
  = ([ev_get_languages; ev_image_to_data image "eng"], Ok (Some ""))
  /\ forall n, page_entry n (Some "") = Page.mk n "" "ocr_failed".
Proof.
  intros Hauto Hlangs Hh Hd Hblank.
  rewrite (ocr_image_hybrid X image available lang data Hauto Hlangs Hh Hd).
  rewrite (hybrid_lines_blank X image (group_lines data [])
             (sorted_keys (group_lines data [])) "" Hblank).
  - split; reflexivity.
  - intros k Hk. apply lines_get_key.
    exact (Permutation_in _ (Permutation_sym (sorted_keys_perm _)) Hk).
Qed.

Lemma blank_layout_page_witness :
  ocr_image blank_layout_engine sample_bitmap "eng+mni"
  = ([ev_get_languages; ev_image_to_data sample_bitmap "eng"], Ok (Some "")).
Proof.
  refine (proj1 (blank_layout_page blank_layout_engine sample_bitmap "eng+mni"
                   ["eng"; "mni"]
                   [mkWord "" (-1) 1 0 0 0 0 200 100;
                    mkWord "  " 95 1 1 1 5 5 10 10]
                   ltac:(discriminate) eq_refl eq_refl eq_refl _)).
  intros k l.
  change (group_lines [mkWord "" (-1) 1 0 0 0 0 200 100;
                       mkWord "  " 95 1 1 1 5 5 10 10] [])
    with [((1, 1, 1), Line.mk ["  "] [5] [5] [10] [10])].
  cbn [lines_get].
  destruct (key_eqb k (1, 1, 1)); [intros [= <-]; reflexivity | discriminate].
Defined.

(** ** The calls of an extraction *)

Lemma filter_none {A : Type} (f : A -> bool) (l : list A) :
  Forall (fun x => f x = false) l -> filter f l = [].
Proof.
  induction 1 as [| x l Hx _ IH]; cbn [filter]; [reflexivity |].
  rewrite Hx. exact IH.
Qed.

Lemma hybrid_event_not_query X image e :
  hybrid_event X image e -> is_get_languages e = false.
Proof. intros [-> | [[b ->] | [b ->]]]; reflexivity. Qed.

Lemma recognize_no_query X image available lang :
  Forall (fun e => is_get_languages e = false)
         (trace (recognize X image available lang)).
Proof.
  unfold recognize.
  destruct (final_lang (valid_langs lang available) available) as [final |];
    [| constructor].
  destruct (use_hybrid (valid_langs lang available)).
  - apply bind_Forall; [unfold call; cbn [trace fst]; repeat constructor |].
    intros [data |] _.
    + apply bind_Forall; [| intros; constructor].
      eapply Forall_impl; [| apply hybrid_lines_events].
      intros e. apply hybrid_event_not_query.
    + apply bind_Forall;
        [unfold call; cbn [trace fst]; repeat constructor | intros; constructor].
  - apply bind_Forall;
      [unfold call; cbn [trace fst]; repeat constructor | intros; constructor].
Qed.

(** Each call of [ocr_image] starts with one capability query and makes no
    other. *)
Lemma ocr_image_one_query X image lang :
  filter is_get_languages (trace (ocr_image X image lang)) = [ev_get_languages].
Proof.
  rewrite ocr_image_trace. unfold ocr_image_body.
  destruct (bind_cases (call ev_get_languages (get_languages X))
              (fun available =>
                 bind (resolve_auto X image lang)
                      (fun lang0 => recognize X image available lang0)))
    as [(available & _ & ->) | (msg & _ & ->)]; cbn [trace call fst app filter
                                                      is_get_languages];
    [| reflexivity].
  f_equal. apply filter_none.
  destruct (resolve_auto_total X image lang) as (t & lang' & E & Ht).
  apply bind_Forall.
  - rewrite E. cbn [trace fst]. rewrite Forall_forall.
    intros e He. rewrite (Ht e He). reflexivity.
  - intros a _. apply recognize_no_query.
Qed.

Lemma process_pages_trace (X : External) (language : string)
    (images : list raster) (i : Z) (pages : list Page.t) :
  trace (process_pages X language images i pages)
  = concat (map (fun image =>
                   trace (ocr_image X (preprocess_image X image)
                                    (or_auto language)))
                images).
Proof.
  revert i pages. induction images as [| image rest IH]; intros i pages;
    [reflexivity |].
  cbn [process_pages map concat].
  destruct (ocr_image_never_raises X (preprocess_image X image) (or_auto language))
    as [text E].
  rewrite (bind_Ok _ _ text E). cbn [trace fst]. fold (trace (A := list Page.t)).
  change (fst ?m) with (trace m). rewrite IH. reflexivity.
Qed.

(** X7: an extraction whose rasterization answers calls the renderer once
    and then, page after page in the order of the images, makes the calls
    of [ocr_image] for that page and nothing else; in particular the
    capability set of the engine is queried once for each page image. *)
Theorem capability_query_per_page (X : External)
    (pdf_path language doc_id original_filename : string) (images : list raster) :
  convert_from_path X pdf_path = Ok images ->
  trace (extract_text_from_pdf X pdf_path language doc_id original_filename)
  = ev_convert_from_path pdf_path
      :: concat (map (fun image =>
                        trace (ocr_image X (preprocess_image X image)
                                         (or_auto language)))
                     images)
  /\ length (filter is_get_languages
               (trace (extract_text_from_pdf X pdf_path language doc_id
                                             original_filename)))
     = length images.
Proof.
  intros Hraster.
  assert (Htrace :
            trace (extract_text_from_pdf X pdf_path language doc_id
                                         original_filename)
            = ev_convert_from_path pdf_path
                :: concat (map (fun image =>
                                  trace (ocr_image X (preprocess_image X image)
                                                   (or_auto language)))
                               images)).
  { unfold extract_text_from_pdf, pdf_to_images, call. rewrite Hraster.
    cbn [try_except bind fst snd app].
    destruct images as [| image rest]; [reflexivity |].
    pose proof (process_pages_outcome X language (image :: rest) 0 []) as Ho.
    pose proof (process_pages_trace X language (image :: rest) 0 []) as Ht.
    destruct (process_pages X language (image :: rest) 0 []) as [t r].
    cbn [trace outcome fst snd] in *. subst t r.
    cbn [bind ret fst snd trace]. rewrite app_nil_r. reflexivity. }
  split; [exact Htrace |].
  rewrite Htrace. cbn [filter is_get_languages].
  clear Htrace Hraster. induction images as [| image rest IH]; [reflexivity |].
  cbn [map concat length]. rewrite filter_app, length_app, IH.
  rewrite ocr_image_one_query. reflexivity.
Qed.

Lemma capability_query_per_page_witness :
  length (filter is_get_languages
            (trace (extract_text_from_pdf five_page_engine "a.pdf" "eng" "d1"
                                          "a.pdf")))
  = 5%nat.
Proof.
  exact (proj2 (capability_query_per_page five_page_engine "a.pdf" "eng" "d1"
                  "a.pdf"
                  [sample_page; sample_page; mkImage 1 1 [(0, 0, 0)];
                   sample_page; sample_page] eq_refl)).
Defined.

(** ** The status of pages *)

Lemma page_entry_status (n : Z) (text : option string) :
  page_status_ok (page_entry n text)
  /\ Page.status (page_entry n text) <> "edited".
Proof.
  unfold page_status_ok, page_entry.
  destruct text as [[| c s] |]; cbn [truthy is_empty negb Page.status Page.text];
    (split; [| discriminate]).
  - right; left; split; reflexivity.
  - left; split; [reflexivity | discriminate].
  - right; left; split; reflexivity.
Qed.

Lemma entries_status (X : External) (language : string) (images : list raster)
    (i : Z) :
  Forall page_status_ok (entries X language images i).
Proof.
  revert i. induction images as [| image rest IH]; intros i; cbn [entries];
    constructor; [apply page_entry_status | apply IH].
Qed.

Lemma extract_status (X : External)
    (pdf_path language doc_id original_filename : string) (document : Doc.t) :
  outcome (extract_text_from_pdf X pdf_path language doc_id original_filename)
    = Ok (Some document) ->
  Forall page_status_ok (Doc.pages document).
Proof.
  rewrite extract_outcome.
  destruct (convert_from_path X pdf_path) as [[| image rest] | e];
    try discriminate.
  intros E.
  assert (Ed : document
               = Doc.mk doc_id original_filename language
                        (Z.of_nat (length (image :: rest)))
                        (entries X language (image :: rest) 0)) by congruence.
  rewrite Ed. apply entries_status.
Qed.

Lemma edit_pages_status (pages : list Page.t) (n : Z) (new_text : string) :
  Forall page_status_ok pages ->
  Forall page_status_ok (fst (edit_pages pages n new_text)).
Proof.
  induction 1 as [| p rest Hp Hrest IH]; cbn [edit_pages]; [constructor |].
  destruct (Page.page_number p =? n).
  - cbn [fst]. constructor; [| exact Hrest].
    right; right; reflexivity.
  - destruct (edit_pages rest n new_text) as [rest' updated]. cbn [fst] in *.
    constructor; assumption.
Qed.

Lemma reachable_status (db : database) :
  reachable db -> Forall (fun d => Forall page_status_ok (Doc.pages d)) db.
Proof.
  induction 1 as [| db X pdf_path lang doc_id filename document _ IH E
                  | db doc_id n new_text _ IH
                  | db doc_id _ IH].
  - constructor.
  - unfold db_insert. apply Forall_app. split; [exact IH |].
    constructor; [| constructor]. exact (extract_status _ _ _ _ _ _ E).
  - unfold edit_page_text.
    destruct (db_get db doc_id) as [document |] eqn:Hget; [| exact IH].
    destruct (db_get_In _ _ _ Hget) as [Hin _].
    rewrite Forall_forall in IH.
    pose proof (edit_pages_status (Doc.pages document) n new_text (IH _ Hin))
      as Hst.
    destruct (edit_pages (Doc.pages document) n new_text) as [pages updated].
    cbn [fst] in *.
    destruct updated; cbn [negb snd]; [| rewrite Forall_forall; exact IH].
    unfold db_update. rewrite Forall_forall. intros d Hd.
    apply in_map_iff in Hd. destruct Hd as (d0 & <- & Hd0).
    destruct (String.eqb (Doc.id d0) doc_id); [exact Hst | exact (IH _ Hd0)].
  - unfold db_remove. rewrite Forall_forall in *. intros d Hd.
    apply filter_In in Hd. apply IH. exact (proj1 Hd).
Qed.

(** X8: in every store the service can reach, the status of a page tells
    how its text came about: [success] goes with a text that is not empty,
    [ocr_failed] with the empty text, and any other page has the status
    [edited]; a successful recognition that gave the empty string is
    therefore stored as [ocr_failed]. *)
Theorem page_status_invariant (db : database) (d : Doc.t) (p : Page.t) :
  reachable db ->
  In d db ->
  In p (Doc.pages d) ->
  (Page.status p = "success" /\ Page.text p <> "")
  \/ (Page.status p = "ocr_failed" /\ Page.text p = "")
  \/ Page.status p = "edited".
Proof.
  intros Hreach Hd Hp.
  pose proof (reachable_status db Hreach) as H.
  rewrite Forall_forall in H. specialize (H d Hd).
  rewrite Forall_forall in H. exact (H p Hp).
Qed.

Lemma page_status_invariant_witness :
  (Page.status (Page.mk 3 "" "ocr_failed") = "success"
   /\ Page.text (Page.mk 3 "" "ocr_failed") <> "")
  \/ (Page.status (Page.mk 3 "" "ocr_failed") = "ocr_failed"
      /\ Page.text (Page.mk 3 "" "ocr_failed") = "")
  \/ Page.status (Page.mk 3 "" "ocr_failed") = "edited".
Proof.
  apply (page_status_invariant [five_pages] five_pages (Page.mk 3 "" "ocr_failed")
           five_pages_stored).
  - left; reflexivity.
  - right; right; left; reflexivity.
Defined.

(** ** Uploads *)

Lemma extract_fields (X : External)
    (pdf_path language doc_id original_filename : string) (document : Doc.t) :
  outcome (extract_text_from_pdf X pdf_path language doc_id original_filename)
    = Ok (Some document) ->
  Doc.id document = doc_id
  /\ Doc.source_file document = original_filename
  /\ Doc.language document = language
  /\ 0 < Doc.page_count document.
Proof.
  rewrite extract_outcome.
  destruct (convert_from_path X pdf_path) as [[| image rest] | e];
    try discriminate.
  intros E.
  assert (Ed : document
               = Doc.mk doc_id original_filename language
                        (Z.of_nat (length (image :: rest)))
                        (entries X language (image :: rest) 0)) by congruence.
  rewrite Ed. cbn [Doc.id Doc.source_file Doc.language Doc.page_count length].
  repeat split; lia.
Qed.

Lemma store_result_cases (X : External) (db : database)
    (pdf_path lang doc_id filename : string) :
  (exists document,
      outcome (extract_text_from_pdf X pdf_path lang doc_id filename)
        = Ok (Some document)
      /\ store_result X db pdf_path lang doc_id filename
         = ((trace (extract_text_from_pdf X pdf_path lang doc_id filename),
             Ok (inr ("OCR completed", doc_id, Doc.page_count document))),
            db_insert db document))
  \/ ((forall reply,
          outcome (fst (store_result X db pdf_path lang doc_id filename))
            <> Ok (inr reply))
      /\ snd (store_result X db pdf_path lang doc_id filename) = db).
Proof.
  unfold store_result.
  destruct (outcome (extract_text_from_pdf X pdf_path lang doc_id filename))
    as [[document |] | msg].
  - left. exists document. split; reflexivity.
  - right. split; [intros reply; discriminate | reflexivity].
  - right. split; [intros reply; discriminate | reflexivity].
Qed.

(** X9: an upload changes the store only when it answers [OCR completed],
    and then by one record appended at the end: the document of the
    extraction, which bears the identifier drawn for the request and the
    name of the file, and whose number of pages is the page count of the
    answer; a file name that does not end in [.pdf] is answered 400 without
    any call to the engine. *)
Theorem upload_pdf_store (X : External) (H : Host) (db : database)
    (filename content lang doc_id : string) :
  (endswith filename ".pdf" = false ->
   upload_pdf X H db filename content lang doc_id
   = (([], Ok (inl (mkHTTPException 400 "File must be a PDF"))), db))
  /\ (forall reply,
         outcome (fst (upload_pdf X H db filename content lang doc_id))
           = Ok (inr reply) ->
         exists document,
           outcome (extract_text_from_pdf X (path_join H UPLOAD_DIR filename)
                                          lang doc_id filename)
             = Ok (Some document)
           /\ snd (upload_pdf X H db filename content lang doc_id)
              = (db ++ [document])%list
           /\ reply = ("OCR completed", doc_id,
                       Z.of_nat (length (Doc.pages document)))
           /\ Doc.id document = doc_id
           /\ Doc.source_file document = filename)
  /\ ((forall reply,
          outcome (fst (upload_pdf X H db filename content lang doc_id))
            <> Ok (inr reply)) ->
      snd (upload_pdf X H db filename content lang doc_id) = db).
Proof.
  unfold upload_pdf.
  destruct (endswith filename ".pdf") eqn:Eend; cbn [negb].
  2:{ split; [reflexivity |]. split; [intros reply; discriminate | reflexivity]. }
  split; [discriminate |].
  destruct (write_file H (path_join H UPLOAD_DIR filename) content) as [u | msg].
  2:{ split; [intros reply; discriminate | reflexivity]. }
  destruct (store_result_cases X db (path_join H UPLOAD_DIR filename) lang doc_id
              filename) as [(document & E & ->) | [Hno ->]].
  - split.
    + cbn [fst snd outcome]. intros reply [= <-].
      exists document. split; [exact E |]. split; [reflexivity |].
      destruct (extract_fields _ _ _ _ _ _ E) as (Hid & Hsrc & _ & _).
      destruct (extract_numbered _ _ _ _ _ _ E) as [Hcount _].
      rewrite Hcount. repeat split; assumption.
    + cbn [fst snd outcome]. intros Hno. exfalso. exact (Hno _ eq_refl).
  - split; [| reflexivity].
    intros reply Hr. destruct (Hno reply Hr).
Qed.

(** X10: the upload in base64 answers 400 for a string that does not
    decode, without any call to the engine; it changes the store only when
    it answers [OCR completed], and then by the document of the
    extraction appended at the end; it makes no check of the file name:
    for a name that ends in [.pdf] it does what the upload of a file does
    for the decoded content, and for any other name it goes on to the
    extraction where the upload of a file answers 400. *)
Theorem upload_base64_store (X : External) (H : Host) (db : database)
    (b64_string filename lang doc_id : string) :
  (forall e, b64decode H b64_string = Raise e ->
             upload_base64_pdf X H db b64_string filename lang doc_id
             = (([], Ok (inl (mkHTTPException 400 "Invalid base64 string"))), db))
  /\ (forall reply,
         outcome (fst (upload_base64_pdf X H db b64_string filename lang doc_id))
           = Ok (inr reply) ->
         exists pdf_data document,
           b64decode H b64_string = Ok pdf_data
           /\ outcome (extract_text_from_pdf X (path_join H UPLOAD_DIR filename)
                                             lang doc_id filename)
              = Ok (Some document)
           /\ snd (upload_base64_pdf X H db b64_string filename lang doc_id)
              = (db ++ [document])%list
           /\ reply = ("OCR completed", doc_id, Doc.page_count document))
  /\ ((forall reply,
          outcome (fst (upload_base64_pdf X H db b64_string filename lang doc_id))
            <> Ok (inr reply)) ->
      snd (upload_base64_pdf X H db b64_string filename lang doc_id) = db)
  /\ (forall pdf_data,
         b64decode H b64_string = Ok pdf_data ->
         (endswith filename ".pdf" = true ->
          upload_base64_pdf X H db b64_string filename lang doc_id
          = upload_pdf X H db filename pdf_data lang doc_id)
         /\ (endswith filename ".pdf" = false ->
             write_file H (path_join H UPLOAD_DIR filename) pdf_data = Ok tt ->
             upload_base64_pdf X H db b64_string filename lang doc_id
             = store_result X db (path_join H UPLOAD_DIR filename) lang doc_id
                            filename
             /\ outcome (fst (upload_pdf X H db filename pdf_data lang doc_id))
                = Ok (inl (mkHTTPException 400 "File must be a PDF")))).
Proof.
  unfold upload_base64_pdf.
  destruct (b64decode H b64_string) as [pdf_data | e0].
  2:{ split; [reflexivity |].
      split; [intros reply; discriminate |].
      split; [reflexivity | discriminate]. }
  split; [discriminate |].
  assert (Hlast : forall pdf_data0,
             Ok pdf_data = Ok pdf_data0 ->
             (endswith filename ".pdf" = true ->
              match write_file H (path_join H UPLOAD_DIR filename) pdf_data with
              | Ok _ => store_result X db (path_join H UPLOAD_DIR filename) lang
                                     doc_id filename
              | Raise msg => (raise msg, db)
              end = upload_pdf X H db filename pdf_data0 lang doc_id)
             /\ (endswith filename ".pdf" = false ->
                 write_file H (path_join H UPLOAD_DIR filename) pdf_data0 = Ok tt ->
                 match write_file H (path_join H UPLOAD_DIR filename) pdf_data with
                 | Ok _ => store_result X db (path_join H UPLOAD_DIR filename) lang
                                        doc_id filename
                 | Raise msg => (raise msg, db)
                 end = store_result X db (path_join H UPLOAD_DIR filename) lang
                                    doc_id filename
                 /\ outcome (fst (upload_pdf X H db filename pdf_data0 lang doc_id))
                    = Ok (inl (mkHTTPException 400 "File must be a PDF")))).
  { intros pdf_data0 [= <-]. unfold upload_pdf. split.
    - intros ->. reflexivity.
    - intros -> ->. split; reflexivity. }
  destruct (write_file H (path_join H UPLOAD_DIR filename) pdf_data) as [u | msg].
  2:{ split; [intros reply; discriminate |].
      split; [reflexivity | exact Hlast]. }
  destruct (store_result_cases X db (path_join H UPLOAD_DIR filename) lang doc_id
              filename) as [(document & E & Es) | [Hno Es]].
  - rewrite Es in *. cbn [fst snd outcome]. split.
    + intros reply [= <-]. exists pdf_data, document.
      repeat split; try reflexivity. exact E.
    + split; [intros Hno; exfalso; exact (Hno _ eq_refl) | exact Hlast].
  - split; [intros reply Hr; destruct (Hno reply Hr) |].
    split; [intros _; exact Es | exact Hlast].
Qed.

Lemma db_get_app (db : database) (d : Doc.t) (doc_id : string) :
  db_get (db ++ [d])%list doc_id
  = match db_get db doc_id with
    | Some old => Some old
    | None => if String.eqb (Doc.id d) doc_id then Some d else None
    end.
Proof.
  unfold db_get. induction db as [| d0 db IH]; cbn [app find]; [reflexivity |].
  destruct (String.eqb (Doc.id d0) doc_id); [reflexivity | exact IH].
Qed.

(** X11: after an upload that answers [OCR completed], the lookup of the
    identifier of the request gives the uploaded document when no stored
    document had that identifier, and still the older document otherwise;
    the lookup of any other identifier gives what it gave before. *)
Theorem upload_then_get (X : External) (H : Host) (db : database)
    (filename content lang doc_id : string) (reply : string * string * Z) :
  outcome (fst (upload_pdf X H db filename content lang doc_id)) = Ok (inr reply) ->
  (db_get db doc_id = None ->
   exists document,
     outcome (extract_text_from_pdf X (path_join H UPLOAD_DIR filename)
                                    lang doc_id filename)
       = Ok (Some document)
     /\ db_get (snd (upload_pdf X H db filename content lang doc_id)) doc_id
        = Some document)
  /\ (forall old, db_get db doc_id = Some old ->
                  db_get (snd (upload_pdf X H db filename content lang doc_id))
                         doc_id = Some old)
  /\ (forall other, other <> doc_id ->
                    db_get (snd (upload_pdf X H db filename content lang doc_id))
                           other = db_get db other).
Proof.
  intros Hok. revert Hok. unfold upload_pdf.
  destruct (endswith filename ".pdf"); cbn [negb]; [| discriminate].
  destruct (write_file H (path_join H UPLOAD_DIR filename) content) as [u | msg];
    [| discriminate].
  destruct (store_result_cases X db (path_join H UPLOAD_DIR filename) lang doc_id
              filename) as [(document & E & ->) | [Hno _]].
  2:{ intros Hr. destruct (Hno reply Hr). }
  intros _. cbn [snd]. unfold db_insert.
  destruct (extract_fields _ _ _ _ _ _ E) as (Hid & _).
  split; [| split].
  - intros Hnone. exists document. split; [exact E |].
    rewrite db_get_app, Hnone, Hid, String.eqb_refl. reflexivity.
  - intros old Hold. rewrite db_get_app, Hold. reflexivity.
  - intros other Hne. rewrite db_get_app.
    destruct (db_get db other); [reflexivity |].
    rewrite Hid. apply not_eq_sym, String.eqb_neq in Hne. rewrite Hne.
    reflexivity.
Qed.

Lemma upload_then_get_witness :
  exists document,
    outcome (extract_text_from_pdf five_page_engine
               (path_join sample_host UPLOAD_DIR "a.pdf") "eng" "d1" "a.pdf")
      = Ok (Some document)
    /\ db_get (snd (upload_pdf five_page_engine sample_host [] "a.pdf" "%PDF"
                               "eng" "d1")) "d1"
       = Some document.
Proof.
  exact (proj1 (upload_then_get five_page_engine sample_host [] "a.pdf" "%PDF"
                  "eng" "d1" ("OCR completed", "d1", 5) eq_refl) eq_refl).
Defined.

(** ** Search *)

Lemma matched_pages_filter (H : Host) (query : string) (record : Doc.t)
    (pages : list Page.t) :
  matched_pages H query record pages
  = map (fun page => mkMatch (Page.page_number page) (Page.text page)
                             (encoded_image H record page) "image/png")
        (filter (page_matches query) pages).
Proof.
  induction pages as [| page rest IH]; cbn [matched_pages filter map];
    [reflexivity |].
  destruct (page_matches query page); cbn [map]; rewrite IH; reflexivity.
Qed.

Lemma filter_nil_existsb {A : Type} (f : A -> bool) (l : list A) :
  filter f l = [] <-> existsb f l = false.
Proof.
  induction l as [| x l IH]; cbn [filter existsb]; [tauto |].
  destruct (f x); cbn [orb]; [split; discriminate | exact IH].
Qed.

Lemma search_text_In (H : Host) (db : database) (query : string) (r : Found) :
  In r (search_text H db query)
  <-> exists record,
        In record db
        /\ filter (page_matches query) (Doc.pages record) <> []
        /\ r = mkFound (Doc.id record) (Doc.source_file record)
                       (Doc.page_count record)
                       (matched_pages H query record (Doc.pages record)).
Proof.
  revert r. induction db as [| d db IH]; intros r; cbn [search_text In].
  - split; [intros [] | intros (record & [] & _)].
  - assert (Hd : matched_pages H query d (Doc.pages d) = []
                 <-> filter (page_matches query) (Doc.pages d) = []).
    { rewrite matched_pages_filter.
      destruct (filter (page_matches query) (Doc.pages d)); cbn [map];
        split; congruence. }
    destruct (matched_pages H query d (Doc.pages d)) as [| m ms] eqn:E.
    + rewrite IH. split.
      * intros (record & Hin & Hne & Hr). exists record. auto.
      * intros (record & [<- | Hin] & Hne & Hr);
          [destruct (Hne (proj1 Hd eq_refl)) | exists record; auto].
    + cbn [In]. rewrite IH. split.
      * intros [<- | (record & Hin & Hne & Hr)].
        -- exists d. split; [left; reflexivity |].
           split; [intros Hf; apply Hd in Hf; discriminate |].
           rewrite E. reflexivity.
        -- exists record. auto.
      * intros (record & [<- | Hin] & Hne & Hr).
        -- left. rewrite Hr, E. reflexivity.
        -- right. exists record. auto.
Qed.

Lemma search_text_ids (H : Host) (db : database) (query : string) :
  map f_id (search_text H db query)
  = map Doc.id (filter (fun d => existsb (page_matches query) (Doc.pages d)) db).
Proof.
  induction db as [| d db IH]; cbn [search_text filter map]; [reflexivity |].
  rewrite matched_pages_filter.
  destruct (filter (page_matches query) (Doc.pages d)) as [| p ps] eqn:E.
  - apply filter_nil_existsb in E. rewrite E. exact IH.
  - assert (Ex : existsb (page_matches query) (Doc.pages d) = true).
    { destruct (existsb (page_matches query) (Doc.pages d)) eqn:Ex;
        [reflexivity |].
      apply filter_nil_existsb in Ex. congruence. }
    rewrite Ex. cbn [map f_id]. rewrite IH. reflexivity.
Qed.

(** X12: a search answers with the stored documents that have at least
    one page whose text contains the query, letter case apart, in the
    order of the store; the matches of a document are exactly its pages
    that contain the query, in page order, each with its number and its
    text; a document without such a page is left out. *)
Theorem search_text_matches (H : Host) (db : database) (query : string) :
  map f_id (search_text H db query)
  = map Doc.id (filter (fun d => existsb (page_matches query) (Doc.pages d)) db)
  /\ (forall r,
         In r (search_text H db query) ->
         exists record,
           In record db
           /\ f_id r = Doc.id record
           /\ f_source_file r = Doc.source_file record
           /\ f_page_count r = Doc.page_count record
           /\ f_matches r <> []
           /\ map (fun m => (m_page_number m, m_text m)) (f_matches r)
              = map (fun p => (Page.page_number p, Page.text p))
                    (filter (page_matches query) (Doc.pages record))).
Proof.
  split; [apply search_text_ids |].
  intros r Hr. apply search_text_In in Hr.
  destruct Hr as (record & Hin & Hne & ->).
  exists record. cbn [f_id f_source_file f_page_count f_matches].
  rewrite matched_pages_filter, map_map. cbn [m_page_number m_text].
  repeat split; try assumption.
  destruct (filter (page_matches query) (Doc.pages record)); [congruence |].
  discriminate.
Qed.

Lemma page_matches_empty (page : Page.t) : page_matches "" page = true.
Proof.
  unfold page_matches. cbn [lower].
  destruct (lower (Page.text page)); reflexivity.
Qed.

Lemma filter_all {A : Type} (f : A -> bool) (l : list A) :
  (forall x, f x = true) -> filter f l = l.
Proof.
  intros Hf. induction l as [| x l IH]; cbn [filter]; [reflexivity |].
  rewrite Hf, IH. reflexivity.
Qed.

Lemma reachable_pages_nonempty (db : database) (d : Doc.t) :
  reachable db -> In d db -> Doc.pages d <> [].
Proof.
  intros Hreach. revert d.
  cut (Forall (fun d => 0 < Doc.page_count d) db).
  { intros Hpos d Hd.
    pose proof (reachable_numbered db Hreach) as Hnum.
    rewrite Forall_forall in Hpos, Hnum.
    specialize (Hpos d Hd). destruct (Hnum d Hd) as [Hcount _].
    intros E. rewrite E in Hcount. cbn [length Z.of_nat] in Hcount. lia. }
  induction Hreach as [| db X pdf_path lang doc_id filename document _ IH E
                       | db doc_id n new_text _ IH
                       | db doc_id _ IH].
  - constructor.
  - unfold db_insert. apply Forall_app. split; [exact IH |].
    constructor; [| constructor]. apply (extract_fields _ _ _ _ _ _ E).
  - unfold edit_page_text.
    destruct (db_get db doc_id) as [document |] eqn:Hget; [| exact IH].
    destruct (db_get_In _ _ _ Hget) as [Hin _].
    destruct (edit_pages (Doc.pages document) n new_text) as [pages updated].
    destruct updated; cbn [negb snd]; [| exact IH].
    rewrite Forall_forall in IH.
    unfold db_update. rewrite Forall_forall. intros d Hd.
    apply in_map_iff in Hd. destruct Hd as (d0 & <- & Hd0).
    destruct (String.eqb (Doc.id d0) doc_id); [| exact (IH _ Hd0)].
    exact (IH _ Hin).
  - unfold db_remove. rewrite Forall_forall in *. intros d Hd.
    apply filter_In in Hd. apply IH. exact (proj1 Hd).
Qed.

(** X13: in every store the service can reach, a search for the empty
    string answers with every stored document, in the order of the store,
    and each with all of its pages as matches. *)
Theorem search_empty_query (H : Host) (db : database) :
  reachable db ->
  map f_id (search_text H db "") = map Doc.id db
  /\ map (fun r => map m_page_number (f_matches r)) (search_text H db "")
     = map (fun d => map Page.page_number (Doc.pages d)) db.
Proof.
  intros Hreach.
  assert (Hne : forall d, In d db -> Doc.pages d <> [])
    by (intros d; apply reachable_pages_nonempty; exact Hreach).
  clear Hreach. induction db as [| d db IH]; [split; reflexivity |].
  cbn [search_text]. rewrite matched_pages_filter.
  rewrite (filter_all _ _ page_matches_empty).
  pose proof (Hne d (or_introl eq_refl)) as Hd.
  destruct (Doc.pages d) as [| p ps] eqn:Ep; [congruence |].
  cbn [map f_id f_matches].
  destruct IH as [IH1 IH2]; [intros d' Hd'; apply Hne; right; exact Hd' |].
  rewrite IH1, IH2. rewrite Ep.
  split; [reflexivity |]. f_equal. cbn [map m_page_number].
  rewrite map_map. reflexivity.
Qed.

Lemma search_empty_query_witness :
  map f_id (search_text sample_host [five_pages] "") = ["d1"]
  /\ map (fun r => map m_page_number (f_matches r))
         (search_text sample_host [five_pages] "")
     = [[1; 2; 3; 4; 5]].
Proof.
  exact (search_empty_query sample_host [five_pages] five_pages_stored).
Defined.

(** ** Edits and the other routes *)

Lemma edit_page_text_in_range (db : database) (doc_id : string)
    (document : Doc.t) (n : Z) (new_text : string) :
  reachable db ->
  db_get db doc_id = Some document ->
  1 <= n <= Doc.page_count document ->
  exists pages',
    snd (edit_page_text db doc_id n new_text)
    = db_update db (set_pages document pages') doc_id
    /\ In (Page.mk n new_text "edited") pages'.
Proof.
  intros Hreach Hget Hrange.
  destruct (db_get_In _ _ _ Hget) as [Hin Hid].
  pose proof (reachable_numbered db Hreach) as Hall.
  rewrite Forall_forall in Hall. destruct (Hall _ Hin) as [Hcount Hnum].
  destruct (edit_pages_in 0 (Doc.pages document) n new_text Hnum)
    as (pages' & E & Hlen & Hnth); [lia |].
  exists pages'. unfold edit_page_text. rewrite Hget, E. cbn [negb snd].
  split; [reflexivity |].
  apply (nth_error_In pages' (Z.to_nat (n - 1))).
  apply (Hnth (Z.to_nat (n - 1))). lia.
Qed.

(** X14: in a store the service can reach, after the edit of an existing
    page, a search for a query that the new text contains, letter case
    apart, answers with that document, and its matches hold that page with
    the new text. *)
Theorem edit_then_search (H : Host) (db : database) (doc_id : string)
    (document : Doc.t) (n : Z) (new_text query : string) :
  reachable db ->
  db_get db doc_id = Some document ->
  1 <= n <= Doc.page_count document ->
  contains (lower query) (lower new_text) = true ->
  exists r,
    In r (search_text H (snd (edit_page_text db doc_id n new_text)) query)
    /\ f_id r = doc_id
    /\ In (n, new_text) (map (fun m => (m_page_number m, m_text m)) (f_matches r)).
Proof.
  intros Hreach Hget Hrange Hq.
  destruct (edit_page_text_in_range db doc_id document n new_text Hreach Hget
              Hrange) as (pages' & -> & Hpage).
  destruct (db_get_In _ _ _ Hget) as [Hin Hid].
  assert (Hafter : In (set_pages document pages')
                      (db_update db (set_pages document pages') doc_id)).
  { unfold db_update. apply in_map_iff. exists document.
    split; [| exact Hin].
    apply String.eqb_eq in Hid. rewrite Hid. reflexivity. }
  assert (Hf : In (Page.mk n new_text "edited")
                  (filter (page_matches query) pages')).
  { apply filter_In. split; [exact Hpage | exact Hq]. }
  eexists. split; [| split].
  - apply search_text_In. exists (set_pages document pages').
    split; [exact Hafter |]. split; [| reflexivity].
    cbn [set_pages Doc.pages]. intros E. rewrite E in Hf. destruct Hf.
  - cbn [f_id set_pages Doc.id]. exact Hid.
  - cbn [f_matches set_pages Doc.pages].
    rewrite matched_pages_filter, map_map. cbn [m_page_number m_text].
    apply in_map_iff. exists (Page.mk n new_text "edited").
    split; [reflexivity | exact Hf].
Qed.

Lemma edit_then_search_witness :
  exists r,
    In r (search_text sample_host
            (snd (edit_page_text [five_pages] "d1" 3 "High Court of Manipur"))
            "court")
    /\ f_id r = "d1"
    /\ In (3, "High Court of Manipur")
          (map (fun m => (m_page_number m, m_text m)) (f_matches r)).
Proof.
  apply (edit_then_search sample_host [five_pages] "d1" five_pages 3
           "High Court of Manipur" "court" five_pages_stored eq_refl).
  - cbn [Doc.page_count five_pages]. lia.
  - reflexivity.
Defined.

Lemma edit_pages_twice (pages : list Page.t) (n : Z) (t1 t2 : string) :
  edit_pages (fst (edit_pages pages n t1)) n t2 = edit_pages pages n t2.
Proof.
  induction pages as [| p rest IH]; cbn [edit_pages]; [reflexivity |].
  destruct (Page.page_number p =? n) eqn:E.
  - cbn [fst edit_pages set_page Page.page_number]. rewrite E. reflexivity.
  - destruct (edit_pages rest n t1) as [rest1 u1] eqn:E1. cbn [fst] in *.
    cbn [edit_pages]. rewrite E, IH. reflexivity.
Qed.

Lemma edit_pages_updated (pages : list Page.t) (n : Z) (t1 t2 : string) :
  snd (edit_pages pages n t1) = snd (edit_pages pages n t2).
Proof.
  induction pages as [| p rest IH]; cbn [edit_pages]; [reflexivity |].
  destruct (Page.page_number p =? n); [reflexivity |].
  destruct (edit_pages rest n t1), (edit_pages rest n t2). exact IH.
Qed.

Lemma db_update_twice (db : database) (a b : Doc.t) (doc_id : string) :
  Doc.id a = doc_id ->
  db_update (db_update db a doc_id) b doc_id = db_update db b doc_id.
Proof.
  intros Hid. unfold db_update. rewrite map_map. apply map_ext. intros d.
  destruct (String.eqb (Doc.id d) doc_id) eqn:E.
  - rewrite Hid, String.eqb_refl. reflexivity.
  - rewrite E. reflexivity.
Qed.

(** X15: of two edits of the same page of the same document, the later
    one wins: the store after both is the store after the later one
    alone, whatever the store, the document and the page number. *)
Theorem edit_last_wins (db : database) (doc_id : string) (n : Z)
    (t1 t2 : string) :
  snd (edit_page_text (snd (edit_page_text db doc_id n t1)) doc_id n t2)
  = snd (edit_page_text db doc_id n t2).
Proof.
  unfold edit_page_text at 2.
  destruct (db_get db doc_id) as [document |] eqn:Hget; [| reflexivity].
  destruct (db_get_In _ _ _ Hget) as [_ Hid].
  pose proof (edit_pages_twice (Doc.pages document) n t1 t2) as Htwice.
  pose proof (edit_pages_updated (Doc.pages document) n t1 t2) as Hupd.
  destruct (edit_pages (Doc.pages document) n t1) as [pages1 updated] eqn:E1.
  cbn [fst snd] in Htwice, Hupd.
  destruct updated; cbn [negb snd]; [| reflexivity].
  unfold edit_page_text.
  rewrite (db_get_update_same db doc_id document (set_pages document pages1)
             Hget Hid).
  rewrite Hget. cbn [set_pages Doc.pages]. rewrite Htwice.
  destruct (edit_pages (Doc.pages document) n t2) as [pages2 updated2].
  cbn [snd] in Hupd. subst updated2. cbn [negb snd].
  rewrite db_update_twice by exact Hid. reflexivity.
Qed.

(** ** Deletion and previews *)

Lemma db_search_nil (db : database) (doc_id : string) :
  db_search db doc_id = [] <-> db_get db doc_id = None.
Proof.
  unfold db_search, db_get. induction db as [| d db IH]; cbn [filter find];
    [tauto |].
  destruct (String.eqb (Doc.id d) doc_id); [split; discriminate | exact IH].
Qed.

Lemma db_get_remove_same (db : database) (doc_id : string) :
  db_get (db_remove db doc_id) doc_id = None.
Proof.
  unfold db_get, db_remove. induction db as [| d db IH]; cbn [filter find];
    [reflexivity |].
  destruct (String.eqb (Doc.id d) doc_id) eqn:E; cbn [negb find];
    [| rewrite E]; exact IH.
Qed.

Lemma db_get_remove_other (db : database) (doc_id other : string) :
  other <> doc_id ->
  db_get (db_remove db doc_id) other = db_get db other.
Proof.
  intros Hne. unfold db_get, db_remove.
  induction db as [| d db IH]; cbn [filter find]; [reflexivity |].
  destruct (String.eqb (Doc.id d) doc_id) eqn:E; cbn [negb find].
  - apply String.eqb_eq in E.
    assert (E' : String.eqb (Doc.id d) other = false)
      by (apply String.eqb_neq; congruence).
    rewrite E'. exact IH.
  - destruct (String.eqb (Doc.id d) other); [reflexivity | exact IH].
Qed.

(** X16: a deletion never answers 404: for an identifier that is not
    stored, the exception of the missing document is caught by the handler
    of the route and answered as 500, and so is a failure to remove the
    file; in both cases the store is as before.  When the route answers
    that the document is deleted, no record of that identifier is left,
    every other record is kept, and the other lookups give what they gave
    before. *)
Theorem delete_document_store (H : Host) (db : database) (doc_id : string) :
  (db_get db doc_id = None ->
   delete_document H db doc_id
   = (inl (mkHTTPException 500
             ("Error deleting document: "
              ++ str_HTTPException H
                   (mkHTTPException 404 "Document not found"))), db))
  /\ (forall e db',
         delete_document H db doc_id = (inl e, db') ->
         status_code e = 500 /\ db' = db)
  /\ (forall reply db',
         delete_document H db doc_id = (inr reply, db') ->
         reply = ("Document deleted successfully", doc_id)
         /\ db_get db doc_id <> None
         /\ db_get db' doc_id = None
         /\ (forall d, In d db' <-> In d db /\ Doc.id d <> doc_id)
         /\ (forall other, other <> doc_id -> db_get db' other = db_get db other)).
Proof.
  unfold delete_document.
  pose proof (db_search_nil db doc_id) as Hnil.
  destruct (db_search db doc_id) as [| document rest].
  - split; [reflexivity |].
    split; [intros e db' [= <- <-]; split; reflexivity | discriminate].
  - split; [intros Hnone; apply Hnil in Hnone; discriminate |].
    destruct (if path_exists H (path_join H UPLOAD_DIR (Doc.source_file document))
              then os_remove H (path_join H UPLOAD_DIR (Doc.source_file document))
              else Ok tt) as [u | e0].
    + split; [discriminate |].
      intros reply db' [= <- <-].
      split; [reflexivity |].
      split; [intros Hnone; apply Hnil in Hnone; discriminate |].
      split; [apply db_get_remove_same |].
      split.
      * intros d. unfold db_remove. rewrite filter_In, negb_true_iff.
        rewrite String.eqb_neq. reflexivity.
      * intros other Hne. apply db_get_remove_other. exact Hne.
    + split; [| discriminate].
      intros e db' [= <- <-]. split; reflexivity.
Qed.

(** X17: the preview of a page never answers 400: a page number outside
    the pages of the file is answered 500, because the exception of the
    range check is raised inside the [try] of the route; every error
    answer is 404 or 500; and a preview is answered only for a stored
    document whose file is there and a page number within the pages of
    the file. *)
Theorem page_image_status (H : Host) (db : database) (doc_id : string)
    (page_number : Z) :
  (forall e,
      get_document_page_image H db doc_id page_number = inl e ->
      status_code e = 404 \/ status_code e = 500)
  /\ (forall record page_count,
         db_get db doc_id = Some record ->
         path_exists H (path_join H UPLOAD_DIR (Doc.source_file record)) = true ->
         fitz_page_count H (path_join H UPLOAD_DIR (Doc.source_file record))
           = Ok page_count ->
         ~ (1 <= page_number <= page_count) ->
         exists e, get_document_page_image H db doc_id page_number = inl e
                   /\ status_code e = 500)
  /\ (forall encoded format,
         get_document_page_image H db doc_id page_number = inr (encoded, format) ->
         format = "image/png"
         /\ exists record page_count,
              db_get db doc_id = Some record
              /\ path_exists H (path_join H UPLOAD_DIR (Doc.source_file record))
                 = true
              /\ fitz_page_count H (path_join H UPLOAD_DIR (Doc.source_file record))
                 = Ok page_count
              /\ 1 <= page_number <= page_count
              /\ page_png_base64 H (path_join H UPLOAD_DIR (Doc.source_file record))
                                 (page_number - 1) = Ok encoded).
Proof.
  unfold get_document_page_image.
  destruct (db_get db doc_id) as [record |].
  2:{ split; [intros e [= <-]; left; reflexivity |].
      split; [discriminate | discriminate]. }
  destruct (path_exists H (path_join H UPLOAD_DIR (Doc.source_file record)))
    eqn:Eex; cbn [negb].
  2:{ split; [intros e [= <-]; left; reflexivity |].
      split; [intros r p [= <-] Hex; congruence | discriminate]. }
  destruct (fitz_page_count H (path_join H UPLOAD_DIR (Doc.source_file record)))
    as [pc | e0] eqn:Epc.
  2:{ split; [intros e [= <-]; right; reflexivity |].
      split; [intros r p [= <-] _ Hpc; congruence | discriminate]. }
  destruct ((0 <? page_number) && (page_number <=? pc)) eqn:Erange; cbn [negb].
  - apply andb_true_iff in Erange. destruct Erange as [E1 E2].
    apply Z.ltb_lt in E1. apply Z.leb_le in E2.
    destruct (page_png_base64 H (path_join H UPLOAD_DIR (Doc.source_file record))
                              (page_number - 1)) as [img | e1] eqn:Eimg.
    + split; [discriminate |].
      split; [intros r p [= <-] _ Hpc Hout; rewrite Epc in Hpc;
              injection Hpc as <-; lia |].
      intros encoded format [= <- <-]. split; [reflexivity |].
      exists record, pc. repeat split; try assumption; lia.
    + split; [intros e [= <-]; right; reflexivity |].
      split; [intros r p [= <-] _ Hpc Hout; rewrite Epc in Hpc;
              injection Hpc as <-; lia | discriminate].
  - split; [intros e [= <-]; right; reflexivity |].
    split; [| discriminate].
    intros r p _ _ _ _. eexists. split; reflexivity.
Qed.

(** ** Export of the text as a document *)

Lemma join_head (sep : string) (c : ascii) (w : string) (ws : list string) :
  join sep (String c w :: ws) = String c (join sep (w :: ws)).
Proof. destruct ws; reflexivity. Qed.

Lemma join_cons (sep x : string) (l : list string) :
  l <> [] -> join sep (x :: l) = x ++ sep ++ join sep l.
Proof. destruct l; [congruence | reflexivity]. Qed.

Lemma join_split_on (sep : ascii) (s : string) :
  join (String sep EmptyString) (split_on sep s) = s.
Proof.
  induction s as [| c s IH]; cbn [split_on]; [reflexivity |].
  destruct (Ascii.eqb c sep) eqn:E.
  - apply Ascii.eqb_eq in E. subst c.
    rewrite join_cons by apply split_on_nonempty. rewrite IH. reflexivity.
  - pose proof (split_on_nonempty sep s) as Hne.
    destruct (split_on sep s) as [| w ws]; [congruence |].
    rewrite join_head, IH. reflexivity.
Qed.

Lemma split_str_from_nonempty (sep s : string) (skip : nat) :
  split_str_from sep s skip <> [].
Proof.
  revert skip. induction s as [| c s IH]; intros skip; cbn [split_str_from];
    [discriminate |].
  destruct skip as [| k]; [| apply IH].
  destruct (String.prefix sep (String c s)); [discriminate |].
  destruct (split_str_from sep s 0); discriminate.
Qed.

Lemma prefix_drop (p s : string) :
  String.prefix p s = true -> p ++ drop (String.length p) s = s.
Proof.
  revert s. induction p as [| a p IH]; intros s; [reflexivity |].
  destruct s as [| b s]; cbn [String.prefix]; [discriminate |].
  destruct (ascii_dec a b) as [<- | Hne]; [| discriminate].
  intros Hp. cbn [String.length drop append]. rewrite (IH s Hp). reflexivity.
Qed.

(** Joining the pieces of a split with the separator gives the string
    back. *)
Lemma join_split_str_from (sep s : string) (skip : nat) :
  sep <> "" ->
  join sep (split_str_from sep s skip) = drop skip s.
Proof.
  intros Hsep. revert skip. induction s as [| c s IH]; intros skip.
  - destruct skip; reflexivity.
  - cbn [split_str_from]. destruct skip as [| k]; [| cbn [drop]; apply IH].
    cbn [drop]. destruct (String.prefix sep (String c s)) eqn:Ep.
    + rewrite join_cons by apply split_str_from_nonempty.
      rewrite IH. cbn [append].
      destruct sep as [| a sep']; [congruence |].
      cbn [String.length Nat.sub]. rewrite Nat.sub_0_r.
      cbn [String.prefix] in Ep.
      destruct (ascii_dec a c) as [<- | Hne]; [| discriminate].
      cbn [append]. rewrite (prefix_drop sep' s Ep). reflexivity.
    + pose proof (split_str_from_nonempty sep s 0) as Hne.
      specialize (IH 0%nat). cbn [drop] in IH.
      destruct (split_str_from sep s 0) as [| w ws]; [congruence |].
      rewrite join_head, IH. reflexivity.
Qed.

Lemma given_text_runs_of_lines (lines : list string) :
  given_text (runs_of_lines lines) = join newline lines.
Proof.
  induction lines as [| line rest IH]; [reflexivity |].
  cbn [runs_of_lines]. destruct rest as [| line' rest'].
  - cbn [given_text join String.concat]. apply str_app_nil_r.
  - cbn [given_text]. rewrite IH. reflexivity.
Qed.

Lemma runs_of_lines_shape (lines : list string) :
  lines <> [] ->
  runs_of_lines lines <> []
  /\ (forall line, In (run_text line) (runs_of_lines lines) <-> In line lines)
  /\ S (length (filter is_break (runs_of_lines lines))) = length lines.
Proof.
  induction lines as [| line rest IH]; [congruence |]. intros _.
  cbn [runs_of_lines]. destruct rest as [| line' rest'].
  - split; [discriminate |]. split; [| reflexivity].
    intros l. cbn [In]. split; [intros [[= <-] | []]; auto | intros [<- | []]; auto].
  - destruct IH as (_ & Hin & Hcount); [discriminate |].
    split; [discriminate |]. split.
    + intros l. cbn [In] in *. rewrite Hin. cbn [In].
      split; [intros [[= <-] | [Hb | Hr]]; [auto | discriminate | auto]
             | intros [<- | Hr]; auto].
    + cbn [filter is_break length] in *. rewrite Hcount. reflexivity.
Qed.

(** The loop over the lines ends well exactly when the library takes
    every line, and then with the runs of the lines. *)
Lemma add_runs_ok (D : Docx) (lines : list string) :
  Forall (accepted D) lines -> add_runs D lines = Ok (runs_of_lines lines).
Proof.
  induction 1 as [| line rest Hl Hrest IH]; [reflexivity |].
  cbn [add_runs runs_of_lines]. rewrite Hl.
  destruct rest as [| line' rest']; [reflexivity |].
  rewrite IH. reflexivity.
Qed.

Lemma add_runs_inv (D : Docx) (lines : list string) (p : paragraph) :
  add_runs D lines = Ok p ->
  Forall (accepted D) lines /\ p = runs_of_lines lines.
Proof.
  revert p. induction lines as [| line rest IH]; intros p.
  - intros [= <-]. split; [constructor | reflexivity].
  - cbn [add_runs runs_of_lines].
    destruct (add_run D line) as [[] | e] eqn:El; [| discriminate].
    destruct rest as [| line' rest'].
    + intros [= <-]. split; [repeat constructor; exact El | reflexivity].
    + destruct (add_runs D (line' :: rest')) as [runs | e] eqn:Er;
        [| discriminate].
      intros [= <-]. destruct (IH runs eq_refl) as [Hall ->].
      split; [constructor; [exact El | exact Hall] | reflexivity].
Qed.

Lemma add_paragraphs_ok (D : Docx) (paragraphs : list string) :
  Forall (accepted D) (flat_map (split_on "010") paragraphs) ->
  add_paragraphs D paragraphs
  = Ok (map (fun para => runs_of_lines (split_on "010" para)) paragraphs).
Proof.
  induction paragraphs as [| para rest IH]; [reflexivity |].
  cbn [flat_map]. intros H. apply Forall_app in H. destruct H as [Hp Hrest].
  cbn [add_paragraphs map]. rewrite (add_runs_ok D _ Hp), (IH Hrest).
  reflexivity.
Qed.

Lemma add_paragraphs_inv (D : Docx) (paragraphs : list string)
    (ps : list paragraph) :
  add_paragraphs D paragraphs = Ok ps ->
  Forall (accepted D) (flat_map (split_on "010") paragraphs)
  /\ ps = map (fun para => runs_of_lines (split_on "010" para)) paragraphs.
Proof.
  revert ps. induction paragraphs as [| para rest IH]; intros ps.
  - intros [= <-]. split; [constructor | reflexivity].
  - cbn [add_paragraphs flat_map map].
    destruct (add_runs D (split_on "010" para)) as [p | e] eqn:Ep;
      [| discriminate].
    destruct (add_paragraphs D rest) as [qs | e] eqn:Er; [| discriminate].
    intros [= <-].
    destruct (add_runs_inv D _ p Ep) as [Hp ->].
    destruct (IH qs eq_refl) as [Hrest ->].
    split; [apply Forall_app; split; assumption | reflexivity].
Qed.

Lemma page_paragraphs_inv (D : Docx) (text : string) (ps : list paragraph) :
  page_paragraphs D text = Ok ps ->
  Forall (accepted D) (page_lines text)
  /\ ps = map (fun para => runs_of_lines (split_on "010" para))
              (split_str (newline ++ newline) (replace crlf newline text)).
Proof. apply add_paragraphs_inv. Qed.

(** X18: the export of a page ends well exactly when the library takes
    every text given to it; what the code then gave for the page carries
    the text of the page: taking, for each paragraph, the texts given to
    [add_run] in order, with a newline for each call of [add_break], and
    putting an empty line between the paragraphs gives the text of the page
    with every carriage return and line feed pair replaced by a line feed.
    Every page, even one without text, gets at least one paragraph.  When
    the library refuses one of the texts of a page, the export of the page,
    and of the document, ends with an exception. *)
Theorem docx_round_trip (D : Docx) (text : string) :
  (Forall (accepted D) (page_lines text) ->
   exists ps,
     page_paragraphs D text = Ok ps
     /\ ps <> []
     /\ join (newline ++ newline) (map given_text ps)
        = replace crlf newline text)
  /\ (forall ps, page_paragraphs D text = Ok ps ->
                 Forall (accepted D) (page_lines text))
  /\ (forall line e,
         In line (page_lines text) ->
         add_run D line = Raise e ->
         exists e', page_paragraphs D text = Raise e')
  /\ (forall pages ps,
         docx_paragraphs D pages = Ok ps ->
         (length pages <= length ps)%nat
         /\ Forall (fun page => Forall (accepted D) (page_lines (Page.text page)))
                   pages)
  /\ (forall pages page e',
         In page pages ->
         page_paragraphs D (Page.text page) = Raise e' ->
         exists e, docx_paragraphs D pages = Raise e).
Proof.
  assert (Hok : Forall (accepted D) (page_lines text) ->
                exists ps,
                  page_paragraphs D text = Ok ps
                  /\ ps <> []
                  /\ join (newline ++ newline) (map given_text ps)
                     = replace crlf newline text).
  { intros Hall. unfold page_paragraphs.
    rewrite (add_paragraphs_ok D _ Hall). eexists. split; [reflexivity |].
    split.
    - unfold split_str.
      pose proof (split_str_from_nonempty (newline ++ newline)
                    (replace crlf newline text) 0) as H.
      destruct (split_str_from (newline ++ newline)
                               (replace crlf newline text) 0);
        [congruence | discriminate].
    - rewrite map_map. rewrite (map_ext _ (fun para => para)).
      + rewrite map_id. unfold split_str.
        rewrite join_split_str_from by discriminate. reflexivity.
      + intros para. rewrite given_text_runs_of_lines.
        apply (join_split_on "010"). }
  assert (Hinv : forall t ps, page_paragraphs D t = Ok ps ->
                              Forall (accepted D) (page_lines t) /\ ps <> []).
  { intros t ps E. destruct (page_paragraphs_inv D t ps E) as [Hall ->].
    split; [exact Hall |]. unfold split_str.
    pose proof (split_str_from_nonempty (newline ++ newline)
                  (replace crlf newline t) 0) as H.
    destruct (split_str_from (newline ++ newline) (replace crlf newline t) 0);
      [congruence | discriminate]. }
  split; [exact Hok |].
  split; [intros ps E; exact (proj1 (Hinv text ps E)) |].
  split.
  { intros line e Hin He.
    destruct (page_paragraphs D text) as [ps | e'] eqn:E;
      [| eexists; reflexivity].
    exfalso. pose proof (proj1 (Hinv text ps E)) as Hall.
    rewrite Forall_forall in Hall. specialize (Hall line Hin).
    unfold accepted in Hall. congruence. }
  split.
  - induction pages as [| page rest IH]; intros ps.
    + intros [= <-]. split; [cbn; lia | constructor].
    + cbn [docx_paragraphs].
      destruct (page_paragraphs D (Page.text page)) as [qs | e] eqn:Ep;
        [| discriminate].
      destruct (docx_paragraphs D rest) as [rs | e] eqn:Er; [| discriminate].
      intros [= <-]. destruct (IH rs eq_refl) as [Hlen Hall].
      destruct (Hinv _ _ Ep) as [Hp Hne].
      split; [| constructor; assumption].
      rewrite length_app. cbn [length].
      destruct qs as [| q qs]; [congruence |]. cbn [length]. lia.
  - induction pages as [| page0 rest IH]; intros page e' Hin Hp; [destruct Hin |].
    cbn [docx_paragraphs].
    destruct (page_paragraphs D (Page.text page0)) as [qs | e] eqn:Ep;
      [| eexists; reflexivity].
    destruct Hin as [-> | Hin]; [congruence |].
    destruct (IH page e' Hin Hp) as [e ->]. eexists; reflexivity.
Qed.

Lemma docx_round_trip_witness :
  page_paragraphs sample_docx
    ("a" ++ crlf ++ "b" ++ String "013" "c" ++ newline ++ newline ++ "d")
  = Ok [[run_text "a"; run_break; run_text ("b" ++ String "013" "c")];
        [run_text "d"]]
  /\ (exists e, page_paragraphs sample_docx ("page text" ++ String "012" "")
                = Raise e).
Proof.
  destruct (docx_round_trip sample_docx ("page text" ++ String "012" ""))
    as (_ & _ & H3 & _).
  split.
  - reflexivity.
  - exact (H3 ("page text" ++ String "012" "")
              "All strings must be XML compatible"
              (or_introl eq_refl) eq_refl).
Defined.

(** X19: in an export that ends well, every paragraph gets at least one
    call of [add_run]; no text given to [add_run] holds a line feed (a
    carriage return without line feed, or a tab, stays in the text given
    to the library, which makes a break or a tab of it); and [add_break] is
    called once between two lines of a paragraph, one time less than the
    paragraph has lines. *)
Theorem docx_runs (D : Docx) (text : string) (ps : list paragraph)
    (p : paragraph) :
  page_paragraphs D text = Ok ps ->
  In p ps ->
  p <> []
  /\ (forall line, In (run_text line) p ->
                   free_of "010" line = true /\ accepted D line
                   /\ In line (page_lines text))
  /\ exists para,
       In para (split_str (newline ++ newline) (replace crlf newline text))
       /\ given_text p = para
       /\ S (length (filter is_break p)) = length (split_on "010" para).
Proof.
  intros E Hin. destruct (page_paragraphs_inv D text ps E) as [Hall ->].
  apply in_map_iff in Hin. destruct Hin as (para & <- & Hpara).
  destruct (runs_of_lines_shape (split_on "010" para)
              (split_on_nonempty "010" para))
    as (Hne & Hruns & Hcount).
  split; [exact Hne |]. split.
  - intros line Hl. apply Hruns in Hl.
    pose proof (split_on_free "010" para) as Hfree.
    rewrite Forall_forall in Hfree, Hall.
    assert (Hline : In line (page_lines text)).
    { unfold page_lines. apply in_flat_map. exists para. split; assumption. }
    split; [exact (Hfree line Hl) |]. split; [exact (Hall line Hline) | exact Hline].
  - exists para. split; [exact Hpara |]. split; [| exact Hcount].
    rewrite given_text_runs_of_lines. apply (join_split_on "010").
Qed.

Lemma docx_runs_witness :
  page_paragraphs sample_docx ("a" ++ crlf ++ "b" ++ newline ++ newline ++ "c")
  = Ok [[run_text "a"; run_break; run_text "b"]; [run_text "c"]]
  /\ [run_text "a"; run_break; run_text "b"] <> []
  /\ given_text [run_text "a"; run_break; run_text "b"] = "a" ++ newline ++ "b".
Proof.
  assert (E : page_paragraphs sample_docx
                ("a" ++ crlf ++ "b" ++ newline ++ newline ++ "c")
              = Ok [[run_text "a"; run_break; run_text "b"]; [run_text "c"]])
    by reflexivity.
  destruct (docx_runs _ _ _ _ E (or_introl eq_refl)) as (Hne & _ & _).
  exact (conj E (conj Hne eq_refl)).
Defined.

(** ** Accounts *)

Lemma user_get_None (udb : user_database) (username : string) :
  user_get udb username = None <-> ~ In username (map User.username udb).
Proof.
  unfold user_get. induction udb as [| u udb IH]; cbn [find map In]; [tauto |].
  destruct (String.eqb (User.username u) username) eqn:E.
  - apply String.eqb_eq in E. split; [discriminate | tauto].
  - apply String.eqb_neq in E. rewrite IH. tauto.
Qed.

Lemma set_refresh_token_names (udb : user_database) (username t : string) :
  map User.username (set_refresh_token udb username t) = map User.username udb.
Proof.
  unfold set_refresh_token. rewrite map_map. apply map_ext. intros u.
  destruct (String.eqb (User.username u) username); reflexivity.
Qed.

(** X20: in every user store the service can reach, no two accounts bear
    the same user name: a registration adds an account only for a name
    that is not taken, and a login changes no name. *)
Theorem usernames_unique (udb : user_database) :
  users_reachable udb -> NoDup (map User.username udb).
Proof.
  induction 1 as [| T udb username password _ IH | T udb username password _ IH].
  - constructor.
  - unfold register. destruct (user_get udb username) eqn:E; cbn [snd];
      [exact IH |].
    rewrite map_app. cbn [map User.username].
    apply NoDup_app; [exact IH | repeat constructor; intros [] |].
    intros x Hx [<- | []]. apply user_get_None in E. exact (E Hx).
  - unfold login.
    destruct (find _ udb); cbn [snd]; [| exact IH].
    rewrite set_refresh_token_names. exact IH.
Qed.

Lemma usernames_unique_witness :
  NoDup (map User.username
             (snd (register sample_tokens
                     (snd (login sample_tokens
                             (snd (register sample_tokens [] "bob" "pw"))
                             "bob" "pw"))
                     "bob" "other"))).
Proof.
  apply usernames_unique.
  apply users_register. apply users_login. apply users_register.
  apply users_empty.
Defined.

Lemma find_app_None {A : Type} (f : A -> bool) (l : list A) (x : A) :
  find f l = None -> find f (l ++ [x]) = if f x then Some x else None.
Proof.
  induction l as [| y l IH]; cbn [app find]; [reflexivity |].
  destruct (f y); [discriminate | exact IH].
Qed.

Lemma find_weaker_None {A : Type} (f g : A -> bool) (l : list A) :
  find f l = None -> find (fun x => f x && g x) l = None.
Proof.
  induction l as [| y l IH]; cbn [find]; [reflexivity |].
  destruct (f y); cbn [andb]; [discriminate | exact IH].
Qed.

(** X21: after the registration of a name that was free, a login with
    that name and that password is answered with the tokens made for the
    name, and the refresh token is stored with the account; a second
    registration of the name is answered 400 and changes nothing. *)
Theorem register_then_login (T : Tokens) (udb : user_database)
    (username password : string) :
  user_get udb username = None ->
  register T udb username password
  = (inr ("User registered", username),
     (udb ++ [User.mk username (hash_password T password) None])%list)
  /\ fst (login T (snd (register T udb username password)) username password)
     = inr (access_token_for T username, refresh_token_for T username, "bearer")
  /\ user_get (snd (login T (snd (register T udb username password))
                          username password)) username
     = Some (User.mk username (hash_password T password)
                     (Some (refresh_token_for T username)))
  /\ (forall password',
         register T (snd (register T udb username password)) username password'
         = (inl (mkHTTPException 400 "Username already exists"),
            snd (register T udb username password))).
Proof.
  intros Hfree.
  assert (Hreg : register T udb username password
                 = (inr ("User registered", username),
                    (udb ++ [User.mk username (hash_password T password) None])%list))
    by (unfold register; rewrite Hfree; reflexivity).
  rewrite !Hreg. cbn [snd].
  assert (Hfind : find (fun u => String.eqb (User.username u) username
                                 && String.eqb (User.password u)
                                               (hash_password T password))
                       (udb ++ [User.mk username (hash_password T password) None])
                  = Some (User.mk username (hash_password T password) None)).
  { rewrite find_app_None by (apply find_weaker_None; exact Hfree).
    cbn [User.username User.password]. rewrite !String.eqb_refl. reflexivity. }
  assert (Hget : user_get (udb ++ [User.mk username (hash_password T password)
                                           None])%list username
                 = Some (User.mk username (hash_password T password) None)).
  { unfold user_get. rewrite find_app_None by exact Hfree.
    cbn [User.username]. rewrite String.eqb_refl. reflexivity. }
  split; [reflexivity |].
  unfold login. rewrite Hfind. cbn [fst snd].
  split; [reflexivity |]. split.
  - unfold user_get, set_refresh_token. rewrite map_app. cbn [map User.username].
    rewrite String.eqb_refl. cbn [User.username User.password].
    rewrite find_app_None.
    + cbn [User.username]. rewrite String.eqb_refl. reflexivity.
    + clear Hfind Hget Hreg. unfold user_get in Hfree.
      induction udb as [| u udb IH]; cbn [map find] in *; [reflexivity |].
      destruct (String.eqb (User.username u) username) eqn:E; [discriminate |].
      rewrite E. apply IH. exact Hfree.
  - intros password'. unfold register. rewrite Hget. reflexivity.
Qed.

Lemma register_then_login_witness :
  fst (login sample_tokens (snd (register sample_tokens [] "bob" "pw")) "bob" "pw")
  = inr ("access:bob", "refresh:bob", "bearer").
Proof.
  exact (proj1 (proj2 (register_then_login sample_tokens [] "bob" "pw" eq_refl))).
Defined.

Lemma user_get_set_refresh_token (udb : user_database) (username t : string)
    (u : User.t) :
  user_get udb username = Some u ->
  user_get (set_refresh_token udb username t) username
  = Some (User.mk (User.username u) (User.password u) (Some t)).
Proof.
  unfold user_get, set_refresh_token.
  induction udb as [| v udb IH]; cbn [map find]; [discriminate |].
  destruct (String.eqb (User.username v) username) eqn:E.
  - cbn [User.username]. rewrite E. intros [= <-]. reflexivity.
  - rewrite E. exact IH.
Qed.

(** X22: after a login that is answered with tokens, a later refresh is
    accepted for the refresh token of that login and for no other token
    of the same user: any refresh token that an earlier login gave to the
    user, if it differs, is answered 401 from then on. *)
Theorem refresh_after_login (T T' : Tokens) (udb : user_database)
    (username password : string) (tokens : string * string * string)
    (token : string) :
  fst (login T udb username password) = inr tokens ->
  decoded_sub T' token = Ok (Some username) ->
  tokens = (access_token_for T username, refresh_token_for T username, "bearer")
  /\ refresh_token T' (snd (login T udb username password)) token
     = if String.eqb (refresh_token_for T username) token
       then inr (access_token_for T' username, "bearer")
       else inl (mkHTTPException 401 "Invalid refresh token").
Proof.
  unfold login.
  destruct (find (fun u => String.eqb (User.username u) username
                           && String.eqb (User.password u)
                                         (hash_password T password)) udb)
    as [u |] eqn:Efind; cbn [fst snd]; [| discriminate].
  intros [= <-] Hsub. split; [reflexivity |].
  assert (Hget : exists v, user_get udb username = Some v).
  { unfold user_get.
    destruct (find (fun u0 => String.eqb (User.username u0) username) udb)
      as [v |] eqn:E; [eauto |].
    rewrite (find_weaker_None _ (fun u0 => String.eqb (User.password u0)
                                             (hash_password T password)) _ E)
      in Efind. discriminate. }
  destruct Hget as [v Hv].
  unfold refresh_token, verify_token. rewrite Hsub.
  rewrite (user_get_set_refresh_token udb username _ v Hv).
  cbn [User.refresh_token]. reflexivity.
Qed.

Lemma refresh_after_login_witness :
  refresh_token sample_tokens
    (snd (login sample_tokens [User.mk "bob" "sha256:pw" (Some "refresh:bobby")]
                "bob" "pw"))
    "refresh:bob"
  = inr ("access:bob", "bearer").
Proof.
  exact (proj2 (refresh_after_login sample_tokens sample_tokens
                  [User.mk "bob" "sha256:pw" (Some "refresh:bobby")]
                  "bob" "pw" ("access:bob", "refresh:bob", "bearer")
                  "refresh:bob" eq_refl eq_refl)).
Defined.

(** ** Exceptions of an extraction *)

(** X23: an extraction raises exactly when the rasterization raises, and
    then with the message of the renderer after the words [Failed to
    convert PDF: ]; no failure of the engine on any page makes it raise. *)
Theorem extraction_raises_iff (X : External)
    (pdf_path language doc_id original_filename msg : string) :
  outcome (extract_text_from_pdf X pdf_path language doc_id original_filename)
    = Raise msg
  <-> exists e, convert_from_path X pdf_path = Raise e
                /\ msg = "Failed to convert PDF: " ++ e.
Proof.
  rewrite extract_outcome.
  destruct (convert_from_path X pdf_path) as [[| image rest] | e].
  - split; [discriminate | intros (e & He & _); discriminate].
  - split; [discriminate | intros (e & He & _); discriminate].
  - split.
    + intros [= <-]. exists e. split; reflexivity.
    + intros (e' & [= <-] & ->). reflexivity.
Qed.

